(** * granola-mcp: the indexing and retrieval pipeline

    A shallow embedding of the TypeScript sources
    - [src/types.ts]                      (module [Types]),
    - [src/indexing/themes.ts]            (module [Themes]),
    - [src/indexing/insight-extractor.ts] (module [InsightExtractor]),
    - [src/indexing/embedder.ts]          (module [Embedder]),
    - [src/indexing/vector-store.ts]      (module [VectorStore]),
    - the [index] and [sync] command actions of [src/index.ts]
      (module [Orchestrator]),
    together with the properties of the specification that are settled
    against them.

    Conventions.  A JavaScript string is a [string], a sequence of code
    units below 256; [toLowerCase] lowers the capital letters among them,
    those of ASCII and those of Latin-1.  A promise that
    rejects and a [throw] are both the [Throw] case of [result].  Numbers
    that the code only compares or divides (vector distances, scores) are
    exact rationals [Q]; integer counters are [nat] or [Z]. *)

From Stdlib Require Import ZArith QArith Lqa List String Ascii Bool Arith Lia.
From Stdlib Require Import Permutation Sorted DecimalString Qround.
From Stdlib Require DecimalNat.
Import ListNotations.
Close Scope Q_scope.
Open Scope list_scope.
Open Scope string_scope.

Set Implicit Arguments.

(* ================================================================== *)
(** * JavaScript values and built-ins used by the sources              *)
(* ================================================================== *)
Module JS.

(** An [Error] object; only its [message] is ever inspected. *)
Record Error : Type := mkError { message : string }.

(** The outcome of evaluating an expression that may throw. *)
Inductive result (A : Type) : Type :=
| Ok (a : A)
| Throw (e : Error).
Arguments Ok {A} a.
Arguments Throw {A} e.

Definition bind {A B} (c : result A) (k : A -> result B) : result B :=
  match c with
  | Ok a => k a
  | Throw e => Throw e
  end.

Declare Scope js_scope.
Delimit Scope js_scope with js.
Notation "x <- c ;; k" := (bind c (fun x => k))
  (at level 61, c at next level, right associativity) : js_scope.
Open Scope js_scope.

(** [Array.prototype.map] with a callback that may throw: the callback is
    run on the elements in order and the first exception aborts the call. *)
Fixpoint mapM {A B} (f : A -> result B) (l : list A) : result (list B) :=
  match l with
  | [] => Ok []
  | a :: l' =>
      b <- f a ;;
      bs <- mapM f l' ;;
      Ok (b :: bs)
  end.

(** [Array.prototype.filter] with a callback that may throw. *)
Fixpoint filterM {A} (f : A -> result bool) (l : list A) : result (list A) :=
  match l with
  | [] => Ok []
  | a :: l' =>
      keep <- f a ;;
      rest <- filterM f l' ;;
      Ok (if keep then a :: rest else rest)
  end.

(** ** Strings *)

(** [s.startsWith(p)]. *)
Fixpoint startsWith (s p : string) : bool :=
  match p, s with
  | EmptyString, _ => true
  | String _ _, EmptyString => false
  | String c p', String d s' => Ascii.eqb c d && startsWith s' p'
  end.

(** [s.includes(sub)]: [sub] occurs in [s] as a contiguous substring. *)
Fixpoint includes (s sub : string) : bool :=
  startsWith s sub ||
  match s with
  | EmptyString => false
  | String _ s' => includes s' sub
  end.

(** [s.substring(0, n)]: the first [n] code units of [s]. *)
Fixpoint substring0 (n : nat) (s : string) : string :=
  match n, s with
  | O, _ => EmptyString
  | S _, EmptyString => EmptyString
  | S n', String c s' => String c (substring0 n' s')
  end.

(** The lower case of a code unit below 256: the capital letters are A to
    Z (65 to 90) and the accented capitals 192 to 214 and 216 to 222 (the
    multiplication sign 215 is no letter); each has its small letter 32
    places further. *)
Definition lowerChar (c : ascii) : ascii :=
  let n := nat_of_ascii c in
  if ((65 <=? n)%nat && (n <=? 90)%nat)
     || ((192 <=? n)%nat && (n <=? 214)%nat)
     || ((216 <=? n)%nat && (n <=? 222)%nat)
  then ascii_of_nat (n + 32) else c.

(** [s.toLowerCase()] *)
Fixpoint toLowerCase (s : string) : string :=
  match s with
  | EmptyString => EmptyString
  | String c s' => String (lowerChar c) (toLowerCase s')
  end.

(** [names.includes(x)] for an array of strings and a string [x]. *)
Definition arrayIncludes (names : list string) (x : string) : bool :=
  existsb (String.eqb x) names.

(** [parts.join(sep)]. *)
Fixpoint join (sep : string) (parts : list string) : string :=
  match parts with
  | [] => ""
  | [p] => p
  | p :: rest => p ++ sep ++ join sep rest
  end.

(** ** JSON values, as produced by [JSON.parse]

    A number is kept as an integer: the sources only test numbers for
    being zero and for being positive.  The [fields] of an object list
    its properties; a name that occurs twice stands for its first entry. *)

#[local] Unset Elimination Schemes.
Inductive json : Type :=
| JNull
| JBool (b : bool)
| JNum (n : Z)
| JStr (s : string)
| JArr (items : list json)
| JObj (fields : list (string * json)).
#[local] Set Elimination Schemes.

(** A JavaScript value that may be [undefined] is an [option json]. *)
Definition value := option json.
Definition undefined : value := None.

Fixpoint lookup (k : string) (fields : list (string * json)) : value :=
  match fields with
  | [] => undefined
  | (k', v) :: rest => if String.eqb k k' then Some v else lookup k rest
  end.

(** Truthiness, as tested by [||], [&&], [!] and [? :]. *)
Definition truthy (v : value) : bool :=
  match v with
  | None => false
  | Some JNull => false
  | Some (JBool b) => b
  | Some (JNum n) => negb (n =? 0)%Z
  | Some (JStr s) => negb (String.eqb s "")
  | Some (JArr _) => true
  | Some (JObj _) => true
  end.

(** [v || d] where [d] is a (defined) default. *)
Definition orElse (v : value) (d : json) : json :=
  match v with
  | Some x => if truthy v then x else d
  | None => d
  end.

(** [v || undefined]. *)
Definition orUndefined (v : value) : value :=
  if truthy v then v else undefined.

Definition typeError (msg : string) : Error := mkError msg.

(** Property read [v.k] for the property names the sources use.  Reading a
    property of [null] or [undefined] throws a [TypeError]; strings and
    arrays have a [length]; every other read of a name that is not an own
    property yields [undefined]. *)
Definition get (v : value) (k : string) : result value :=
  match v with
  | None =>
      Throw (typeError ("Cannot read properties of undefined (reading '" ++ k ++ "')"))
  | Some JNull =>
      Throw (typeError ("Cannot read properties of null (reading '" ++ k ++ "')"))
  | Some (JObj fields) => Ok (lookup k fields)
  | Some (JStr s) =>
      if String.eqb k "length" then Ok (Some (JNum (Z.of_nat (String.length s))))
      else Ok undefined
  | Some (JArr items) =>
      if String.eqb k "length" then Ok (Some (JNum (Z.of_nat (List.length items))))
      else Ok undefined
  | Some (JBool _) | Some (JNum _) => Ok undefined
  end.

(** Optional chaining [v?.k]. *)
Definition getOpt (v : value) (k : string) : result value :=
  match v with
  | None | Some JNull => Ok undefined
  | _ => get v k
  end.

(** [typeof v === 'string']. *)
Definition isString (v : json) : bool :=
  match v with JStr _ => true | _ => false end.

(** [names.includes(v)] for an array of strings and an arbitrary value:
    the comparison is strict, so only a string can be found. *)
Definition includesValue (names : list string) (v : value) : bool :=
  match v with
  | Some (JStr s) => arrayIncludes names s
  | _ => false
  end.

End JS.
Import JS.

(* ================================================================== *)
(** * src/indexing/themes.ts                                           *)
(* ================================================================== *)
Module Themes.

Record ThemeDefinition : Type := {
  id : string;
  name : string;
  prompt : string
}.

(** The registry.  The second prompt quotes a phrase; the quotation marks
    around it are written as apostrophes here. *)
Definition THEMES : list ThemeDefinition := [
  {| id := "pain-points"; name := "Pain Points";
     prompt := "User frustrations, problems, complaints, difficulties, blockers" |};
  {| id := "feature-requests"; name := "Feature Requests";
     prompt := "Desired features, wishlist items, 'I wish it could...', suggestions for improvement" |};
  {| id := "positive-feedback"; name := "Positive Feedback";
     prompt := "What users liked, praised, found valuable, appreciated, works well" |};
  {| id := "pricing"; name := "Pricing";
     prompt := "Cost concerns, value perception, willingness to pay, budget constraints, pricing feedback" |};
  {| id := "competition"; name := "Competition";
     prompt := "Mentions of competitors, alternatives, comparisons, switching from/to other products" |};
  {| id := "workflow"; name := "Workflow";
     prompt := "How users currently do things, workarounds, existing processes, current tools used" |};
  {| id := "decisions"; name := "Decisions";
     prompt := "Key decisions made, action items, next steps, conclusions, agreements" |};
  {| id := "questions"; name := "Questions";
     prompt := "Open questions raised, things needing clarification, uncertainties, follow-ups needed" |}
].

Definition getThemeById (i : string) : option ThemeDefinition :=
  find (fun t => String.eqb (id t) i) THEMES.

Definition getThemeNames : list string := map id THEMES.

Definition getThemePromptList : string :=
  join (String "010" EmptyString)
       (map (fun t => "- " ++ id t ++ ": " ++ prompt t) THEMES).

End Themes.

(* ================================================================== *)
(** * src/types.ts                                                     *)
(* ================================================================== *)
Module Types.

Inductive Speaker : Type := me | participant.

(** [number[]] *)
Definition Vector : Type := list Q.

Record ThemeEvidence : Type := {
  ev_text : string;
  ev_speaker : Speaker
}.

Record Theme : Type := {
  th_name : string;
  th_description : string;
  th_evidence : list ThemeEvidence
}.

Record Quote : Type := {
  q_text : string;
  q_speaker : Speaker;
  q_timestamp : option string;
  q_context : string;
  q_theme : option string
}.

Record IndexedDocument : Type := {
  doc_id : string;
  doc_title : string;
  doc_folders : list string;
  doc_created_at : string;
  doc_updated_at : option string;
  doc_granola_summary : string;
  doc_themes : list Theme;
  doc_key_quotes : list Quote;
  doc_insights_summary : string;
  doc_has_transcript : bool
}.

Inductive ChunkType : Type := quote | theme | summary | granola_summary.

Record ChunkRecord : Type := {
  chunk_id : string;
  chunk_document_id : string;
  chunk_content : string;
  chunk_type : ChunkType;
  chunk_theme_name : option string;
  chunk_timestamp : option string;
  chunk_vector : Vector
}.

Record ExtractedInsights : Type := {
  insights_summary : string;
  themes : list Theme;
  key_quotes : list Quote
}.

End Types.

(* ================================================================== *)
(** * src/indexing/insight-extractor.ts                                *)
(* ================================================================== *)
Module InsightExtractor.

Import Types(Speaker, me, participant).

(** One element of a repaired theme's [evidence]: [text] is whatever value
    the model supplied (or the empty string), [speaker] is validated. *)
Record Evidence : Type := {
  ev_text : json;
  ev_speaker : Speaker
}.

(** A repaired theme [{ ...t, evidence }]: the properties spread from the
    model's object [t], with [evidence] replaced. *)
Record Theme : Type := {
  th_spread : json;
  th_evidence : list Evidence
}.

(** The [name] of a repaired theme is the one spread from [t]. *)
Definition th_name (t : Theme) : value :=
  match th_spread t with
  | JObj fields => lookup "name" fields
  | _ => undefined
  end.

Record Quote : Type := {
  q_text : json;
  q_speaker : Speaker;
  q_timestamp : value;
  q_context : json;
  q_theme : value
}.

Record ExtractedInsights : Type := {
  insights_summary : json;
  themes : list Theme;
  key_quotes : list Quote
}.

(** The process state the module reads: the environment variable and the
    module-level [openaiClient] (here: whether it has been constructed). *)
Record Process : Type := {
  OPENAI_API_KEY : option string;
  openaiClient : bool
}.

Definition getOpenAI (p : Process) : result Process :=
  if openaiClient p then Ok p
  else
    match OPENAI_API_KEY p with
    | Some key =>
        if String.eqb key "" then
          Throw (mkError "OPENAI_API_KEY environment variable is required")
        else Ok {| OPENAI_API_KEY := OPENAI_API_KEY p; openaiClient := true |}
    | None => Throw (mkError "OPENAI_API_KEY environment variable is required")
    end.

(** The chat completion returned by the provider. *)
Record Message : Type := { content : option string }.
Record Choice : Type := { message_of : option Message }.
Record ChatCompletion : Type := { choices : list Choice }.

(** [response.choices[0]?.message?.content] *)
Definition firstContent (r : ChatCompletion) : option string :=
  match choices r with
  | [] => None
  | c :: _ =>
      match message_of c with
      | None => None
      | Some m => content m
      end
  end.

Record ChatRequest : Type := {
  rq_model : string;
  rq_system : string;
  rq_user : string
}.

Definition maxRetries : nat := 3.

(** [validateSpeaker] *)
Definition validateSpeaker (s : value) : Speaker :=
  match s with
  | Some (JStr x) =>
      if String.eqb x "me" then me
      else participant
  | _ => participant
  end.

Definition isRetryable (e : Error) : bool :=
  includes (message e) "Connection" ||
  includes (message e) "timeout" ||
  includes (message e) "ECONNRESET" ||
  includes (message e) "rate limit".

(** [Math.pow(2, attempt) * 1000] *)
Definition backoff (attempt : nat) : Z := (2 ^ Z.of_nat attempt * 1000)%Z.

(** What a call of [extractInsights] did besides computing its result: the
    requests it sent and the delays it slept, in order. *)
Record Trace : Type := {
  requests : list ChatRequest;
  sleeps : list Z
}.

Definition noTrace : Trace := {| requests := []; sleeps := [] |}.
Definition sent (r : ChatRequest) (t : Trace) : Trace :=
  {| requests := (requests t ++ [r])%list; sleeps := sleeps t |}.
Definition slept (d : Z) (t : Trace) : Trace :=
  {| requests := requests t; sleeps := (sleeps t ++ [d])%list |}.

Section Extractor.

(** [JSON.parse]: either a value or a [SyntaxError]. *)
Variable JSON_parse : string -> result json.

(** The comparison [x > 0] for an [x] that is a string, an array or an
    object (it goes through [ToPrimitive] and [ToNumber], and throws when
    the value cannot be converted). *)
Variable coerceGt0 : json -> result bool.

(** The instruction text of the system prompt, as a function of the theme
    list interpolated into it. *)
Variable systemPromptText : string -> string.

(** The provider: the outcome of the [n]-th call of
    [openai.chat.completions.create] made by one [extractInsights]. *)
Variable chat : nat -> ChatRequest -> result ChatCompletion.

(** [x > 0] *)
Definition gt0 (x : value) : result bool :=
  match x with
  | None => Ok false
  | Some JNull => Ok false
  | Some (JBool b) => Ok b
  | Some (JNum n) => Ok (0 <? n)%Z
  | Some v => coerceGt0 v
  end.

(** [x.length > 0] *)
Definition lengthGt0 (x : json) : result bool :=
  len <- get (Some x) "length" ;;
  gt0 len.

(** [v.map(f)] and [v.filter(f)]: only an array has these methods. *)
Definition callMap {B} (what : string) (v : value) (f : json -> result B)
  : result (list B) :=
  match v with
  | Some (JArr items) => mapM f items
  | None | Some JNull => _ <- get v "map" ;; Ok []
  | _ => Throw (typeError (what ++ ".map is not a function"))
  end.

Definition callFilter (what : string) (v : value) (f : json -> result bool)
  : result (list json) :=
  match v with
  | Some (JArr items) => filterM f items
  | None | Some JNull => _ <- get v "filter" ;; Ok []
  | _ => Throw (typeError (what ++ ".filter is not a function"))
  end.

(** The predicate of the first [filter] on themes:
    [t.name && themeNames.includes(t.name) && t.evidence?.length > 0]. *)
Definition themeAccepted (themeNames : list string) (t : json) : result bool :=
  nm <- get (Some t) "name" ;;
  if negb (truthy nm) then Ok false
  else if negb (includesValue themeNames nm) then Ok false
  else
    ev <- get (Some t) "evidence" ;;
    len <- getOpt ev "length" ;;
    gt0 len.

(** The callback of [t.evidence.map]: both the string format and the
    object format are turned into an [Evidence]. *)
Definition normalizeEvidence (e : json) : result Evidence :=
  if isString e then Ok {| ev_text := e; ev_speaker := participant |}
  else
    txt <- get (Some e) "text" ;;
    spk <- get (Some e) "speaker" ;;
    Ok {| ev_text := orElse txt (JStr ""); ev_speaker := validateSpeaker spk |}.

(** The callback of the [map] on accepted themes. *)
Definition repairTheme (t : json) : result Theme :=
  ev <- get (Some t) "evidence" ;;
  mapped <- callMap "t.evidence" ev normalizeEvidence ;;
  kept <- filterM (fun e => lengthGt0 (ev_text e)) mapped ;;
  Ok {| th_spread := t; th_evidence := kept |}.

(** The callback of the [map] on key quotes. *)
Definition normalizeQuote (themeNames : list string) (q : json) : result Quote :=
  txt <- get (Some q) "text" ;;
  spk <- get (Some q) "speaker" ;;
  ts <- get (Some q) "timestamp" ;;
  ctx <- get (Some q) "context" ;;
  th <- get (Some q) "theme" ;;
  Ok {| q_text := orElse txt (JStr "");
        q_speaker := validateSpeaker spk;
        q_timestamp := orUndefined ts;
        q_context := orElse ctx (JStr "Context not provided");
        q_theme := if truthy th && includesValue themeNames th then th
                   else undefined |}.

(** "Validate and clean up the response": the object returned from the
    [try] block, for the parsed model output [parsed]. *)
Definition repair (themeNames : list string) (parsed : json)
  : result ExtractedInsights :=
  summ <- get (Some parsed) "insights_summary" ;;
  ths <- get (Some parsed) "themes" ;;
  accepted <- callFilter "(parsed.themes || [])" (Some (orElse ths (JArr [])))
                (themeAccepted themeNames) ;;
  repaired <- mapM repairTheme accepted ;;
  kqs <- get (Some parsed) "key_quotes" ;;
  quotes <- callMap "(parsed.key_quotes || [])" (Some (orElse kqs (JArr [])))
              (normalizeQuote themeNames) ;;
  kept <- filterM (fun q => lengthGt0 (q_text q)) quotes ;;
  Ok {| insights_summary := orElse summ (JStr "No insights extracted");
        themes := repaired;
        key_quotes := kept |}.

(** The body of the [try] block of one attempt. *)
Definition attemptBody (themeNames : list string) (rq : ChatRequest) (n : nat)
  : result ExtractedInsights :=
  response <- chat n rq ;;
  match firstContent response with
  | None => Throw (mkError "No content in OpenAI response")
  | Some c =>
      if String.eqb c "" then Throw (mkError "No content in OpenAI response")
      else
        parsed <- JSON_parse c ;;
        repair themeNames parsed
  end.

(** "Return minimal insights on error". *)
Definition degraded (notes : string) : ExtractedInsights :=
  {| insights_summary :=
       orElse (Some (JStr (substring0 200 notes))) (JStr "Extraction failed");
     themes := [];
     key_quotes := [] |}.

(** The retry loop [for (attempt = 1; attempt <= maxRetries; attempt++)].
    [fuel] bounds the number of iterations; leaving the loop (by [break] or
    because the condition fails) yields the degraded result. *)
Fixpoint attemptLoop (fuel : nat) (themeNames : list string) (rq : ChatRequest)
  (notes : string) (attempt : nat) (tr : Trace) : ExtractedInsights * Trace :=
  match fuel with
  | O => (degraded notes, tr)
  | S fuel' =>
      if (attempt <=? maxRetries)%nat then
        match attemptBody themeNames rq attempt with
        | Ok r => (r, sent rq tr)
        | Throw lastError =>
            if isRetryable lastError && (attempt <? maxRetries)%nat then
              attemptLoop fuel' themeNames rq notes (S attempt)
                (slept (backoff attempt) (sent rq tr))
            else (degraded notes, sent rq tr)
        end
      else (degraded notes, tr)
  end.

Definition newline : string := String "010" EmptyString.

Definition userPrompt (title notes transcript : string) : string :=
  "Meeting Title: " ++ title ++ newline ++ newline ++
  "NOTES (Granola's AI-generated summary):" ++ newline ++
  (if String.eqb notes "" then "No notes available" else notes) ++
  newline ++ newline ++
  "TRANSCRIPT:" ++ newline ++
  (if String.eqb transcript "" then "No transcript available" else transcript) ++
  newline ++ newline ++
  "Please analyze this meeting and extract insights as specified.".

(** The request of every attempt: the model and the two messages. *)
Definition buildRequest (transcript notes title model : string) : ChatRequest :=
  let themeList := Themes.getThemePromptList in
  {| rq_model := model;
     rq_system := systemPromptText themeList;
     rq_user := userPrompt title notes transcript |}.

(** [extractInsights(transcript, notes, title, model)] in process state [p]:
    the value the promise resolves to (or the exception it rejects with),
    and the trace of the provider calls and delays. *)
Definition extractInsights (p : Process) (transcript notes title model : string)
  : result (ExtractedInsights * Trace) :=
  _ <- getOpenAI p ;;
  let themeNames := Themes.getThemeNames in
  Ok (attemptLoop maxRetries themeNames (buildRequest transcript notes title model)
        notes 1 noTrace).

End Extractor.
End InsightExtractor.

(* ================================================================== *)
(** * src/indexing/embedder.ts                                         *)
(* ================================================================== *)
Module Embedder.

Import Types(Vector).

Definition DEFAULT_MODEL : string := "text-embedding-3-small".
Definition EMBEDDING_DIMENSIONS : nat := 1536.
Definition getEmbeddingDimensions : nat := EMBEDDING_DIMENSIONS.

(** The cap of [text.substring(0, 8000)]. *)
Definition MAX_CHARS : nat := 8 * 1000.

Definition maxRetries : nat := 3.

(** The [input] of a request is one text or an array of texts. *)
Inductive EmbeddingInput : Type :=
| One (text : string)
| Many (texts : list string).

Record EmbeddingRequest : Type := {
  rq_model : string;
  rq_input : EmbeddingInput
}.

Record EmbeddingItem : Type := {
  embedding : Vector;
  index : Z
}.

Record EmbeddingResponse : Type := { data : list EmbeddingItem }.

Record Process : Type := {
  OPENAI_API_KEY : option string;
  openaiClient : bool
}.

Definition getOpenAI (p : Process) : result Process :=
  if openaiClient p then Ok p
  else
    match OPENAI_API_KEY p with
    | Some key =>
        if String.eqb key "" then
          Throw (mkError "OPENAI_API_KEY environment variable is required")
        else Ok {| OPENAI_API_KEY := OPENAI_API_KEY p; openaiClient := true |}
    | None => Throw (mkError "OPENAI_API_KEY environment variable is required")
    end.

Definition isRetryable (e : Error) : bool :=
  includes (message e) "Connection" ||
  includes (message e) "timeout" ||
  includes (message e) "ECONNRESET" ||
  includes (message e) "rate limit".

(** [Math.pow(2, attempt) * 1000] *)
Definition backoff (attempt : nat) : Z := (2 ^ Z.of_nat attempt * 1000)%Z.

(** What a call did besides computing its result. *)
Inductive Event : Type :=
| Sent (rq : EmbeddingRequest)
| Slept (ms : Z)
| Progress (completed total : nat).

(** [response.data[0].embedding] *)
Definition firstEmbedding (r : EmbeddingResponse) : result Vector :=
  match data r with
  | [] => Throw (typeError "Cannot read properties of undefined (reading 'embedding')")
  | item :: _ => Ok (embedding item)
  end.

(** Insertion of [x] after the elements that the comparator
    [(a, b) => a.index - b.index] does not place after it. *)
Fixpoint insertByIndex (x : EmbeddingItem) (l : list EmbeddingItem)
  : list EmbeddingItem :=
  match l with
  | [] => [x]
  | y :: l' =>
      if (index y - index x <=? 0)%Z then y :: insertByIndex x l'
      else x :: y :: l'
  end.

(** [data.sort((a, b) => a.index - b.index)].  The sort of the language is
    stable and the comparator is a total preorder, so its result is the
    one of the stable insertion sort. *)
Definition sortByIndex (l : list EmbeddingItem) : list EmbeddingItem :=
  fold_left (fun sorted x => insertByIndex x sorted) l [].

(** The order that the comparator induces, and its strict part. *)
Definition indexLe (a b : EmbeddingItem) : Prop := (index a <= index b)%Z.
Definition indexLt (a b : EmbeddingItem) : Prop := (index a < index b)%Z.

(** The requests among the events of a call, in order. *)
Fixpoint sentRequests (log : list Event) : list EmbeddingRequest :=
  match log with
  | [] => []
  | Sent rq :: log' => rq :: sentRequests log'
  | _ :: log' => sentRequests log'
  end.

(** The delays among the events of a call, in order. *)
Fixpoint delays (log : list Event) : list Z :=
  match log with
  | [] => []
  | Slept ms :: log' => ms :: delays log'
  | _ :: log' => delays log'
  end.

(** The items a provider that embeds a text as [emb] owes for a batch:
    one per input, carrying the position of its input, counted from [i]. *)
Fixpoint itemsFrom (emb : string -> Vector) (i : Z) (batch : list string)
  : list EmbeddingItem :=
  match batch with
  | [] => []
  | t :: batch' => {| embedding := emb t; index := i |} :: itemsFrom emb (i + 1) batch'
  end.

(** [texts.slice(i, i + n)] *)
Definition slice {A} (i n : nat) (l : list A) : list A := firstn n (skipn i l).

(** [createSearchableText] *)
Record Content : Type := {
  c_type : Types.ChunkType;
  c_text : string;
  c_theme_name : option string;
  c_context : option string
}.

Definition dquote : string := String (ascii_of_nat 34) EmptyString.

(** A template literal prints a missing optional string as [undefined]. *)
Definition interpolate (s : option string) : string :=
  match s with
  | Some x => x
  | None => "undefined"
  end.

Definition createSearchableText (c : Content) : string :=
  match c_type c with
  | Types.summary => "Meeting summary: " ++ c_text c
  | Types.granola_summary => "Meeting notes: " ++ c_text c
  | Types.theme => "Theme " ++ interpolate (c_theme_name c) ++ ": " ++ c_text c
  | Types.quote =>
      match c_context c with
      | Some ctx =>
          if String.eqb ctx "" then "Quote: " ++ dquote ++ c_text c ++ dquote
          else "Quote about " ++ ctx ++ ": " ++ dquote ++ c_text c ++ dquote
      | None => "Quote: " ++ dquote ++ c_text c ++ dquote
      end
  end.

Section Generator.

(** The provider: the outcome of the [n]-th call of
    [openai.embeddings.create] made by one call of a generator. *)
Variable create : nat -> EmbeddingRequest -> result EmbeddingResponse.

(** The body of the [try] block of one attempt. *)
Definition attemptBody (rq : EmbeddingRequest) (n : nat) : result Vector :=
  response <- create n rq ;;
  firstEmbedding response.

(** The loop [for (attempt = 1; attempt <= maxRetries; attempt++)] of
    [generateEmbedding]; [lastError] is the variable of the source, and the
    [throw lastError] after the loop is the exit taken when the condition
    fails (a [null] there is an error without message). *)
Fixpoint attemptLoop (fuel : nat) (rq : EmbeddingRequest) (attempt : nat)
  (lastError : option Error) (log : list Event) : result Vector * list Event :=
  let afterLoop :=
    match lastError with
    | Some e => Throw e
    | None => Throw (mkError "")
    end in
  match fuel with
  | O => (afterLoop, log)
  | S fuel' =>
      if (attempt <=? maxRetries)%nat then
        match attemptBody rq attempt with
        | Ok v => (Ok v, (log ++ [Sent rq])%list)
        | Throw error =>
            if isRetryable error && (attempt <? maxRetries)%nat then
              attemptLoop fuel' rq (S attempt) (Some error)
                (log ++ [Sent rq; Slept (backoff attempt)])%list
            else (Throw error, (log ++ [Sent rq])%list)
        end
      else (afterLoop, log)
  end.

(** [generateEmbedding(text, model)] *)
Definition generateEmbedding (p : Process) (text model : string)
  : result Vector * list Event :=
  match getOpenAI p with
  | Throw e => (Throw e, [])
  | Ok _ =>
      let truncatedText := substring0 MAX_CHARS text in
      attemptLoop maxRetries {| rq_model := model; rq_input := One truncatedText |}
        1 None []
  end.

(** The loop [for (i = 0; i < texts.length; i += batchSize)] of
    [generateEmbeddings].  [callNo] counts the provider calls.  The loop
    does not end when [batchSize] is [0]: [None] is running out of [fuel]. *)
Fixpoint batchLoop (fuel : nat) (texts : list string) (model : string)
  (batchSize : nat) (i callNo : nat) (results : list Vector) (log : list Event)
  : option (result (list Vector) * list Event) :=
  if (i <? List.length texts)%nat then
    match fuel with
    | O => None
    | S fuel' =>
        let batch := slice i batchSize texts in
        let truncatedBatch := map (substring0 MAX_CHARS) batch in
        let rq := {| rq_model := model; rq_input := Many truncatedBatch |} in
        match create callNo rq with
        | Throw e => Some (Throw e, (log ++ [Sent rq])%list)
        | Ok response =>
            let sortedData := sortByIndex (data response) in
            let results' := (results ++ map embedding sortedData)%list in
            let log' := (log ++ [Sent rq;
                          Progress (Nat.min (i + batchSize) (List.length texts))
                                   (List.length texts)])%list in
            let log'' :=
              if (i + batchSize <? List.length texts)%nat
              then (log' ++ [Slept 100%Z])%list else log' in
            batchLoop fuel' texts model batchSize (i + batchSize) (S callNo)
              results' log''
        end
    end
  else Some (Ok results, log).

(** [generateEmbeddings(texts, model, { batchSize })] *)
Definition generateEmbeddings (p : Process) (texts : list string)
  (model : string) (batchSize : nat)
  : option (result (list Vector) * list Event) :=
  match getOpenAI p with
  | Throw e => Some (Throw e, [])
  | Ok _ => batchLoop (List.length texts) texts model batchSize 0 1 [] []
  end.

End Generator.
End Embedder.

(* ================================================================== *)
(** * src/indexing/vector-store.ts                                     *)
(* ================================================================== *)
Module VectorStore.

Import Types.

(** A row of the [documents] table.  The columns [folders], [themes_json]
    and [key_quotes_json] hold [JSON.stringify] of the lists and are read
    back with [JSON.parse]; the row keeps the lists themselves. *)
Record DocumentRow : Type := {
  row_id : string;
  row_title : string;
  row_folders : list string;
  row_created_at : string;
  row_insights_summary : string;
  row_granola_summary : string;
  row_themes : list Theme;
  row_key_quotes : list Quote;
  row_has_transcript : bool;
  row_vector : Vector
}.

(** A row of the [chunks] table: absent optional columns are stored as the
    empty string. *)
Record ChunkRow : Type := {
  crow_id : string;
  crow_document_id : string;
  crow_content : string;
  crow_type : ChunkType;
  crow_theme_name : string;
  crow_timestamp : string;
  crow_vector : Vector
}.

(** The database: each table exists or not. *)
Record Database : Type := {
  documents : option (list DocumentRow);
  chunks : option (list ChunkRow)
}.

(** [initializeTables]: both tables are dropped. *)
Definition initializeTables (db : Database) : Database :=
  {| documents := None; chunks := None |}.

(** [storeDocuments]: the table is created or overwritten (a write of no
    records is taken to leave an empty table). *)
Definition storeDocuments (db : Database)
  (docs : list (IndexedDocument * Vector)) : Database :=
  {| documents :=
       Some (map (fun d =>
               {| row_id := doc_id (fst d);
                  row_title := doc_title (fst d);
                  row_folders := doc_folders (fst d);
                  row_created_at := doc_created_at (fst d);
                  row_insights_summary := doc_insights_summary (fst d);
                  row_granola_summary := doc_granola_summary (fst d);
                  row_themes := doc_themes (fst d);
                  row_key_quotes := doc_key_quotes (fst d);
                  row_has_transcript := doc_has_transcript (fst d);
                  row_vector := snd d |}) docs);
     chunks := chunks db |}.

(** [x || ''] for an optional string. *)
Definition orEmpty (s : option string) : string :=
  match s with
  | Some x => x
  | None => ""
  end.

(** [storeChunks] *)
Definition storeChunks (db : Database) (cs : list ChunkRecord) : Database :=
  {| documents := documents db;
     chunks :=
       Some (map (fun c =>
               {| crow_id := chunk_id c;
                  crow_document_id := chunk_document_id c;
                  crow_content := chunk_content c;
                  crow_type := chunk_type c;
                  crow_theme_name := orEmpty (chunk_theme_name c);
                  crow_timestamp := orEmpty (chunk_timestamp c);
                  crow_vector := chunk_vector c |}) cs) |}.

(** A row returned by a vector search: the stored row and the [_distance]
    column that the search adds (if it does). *)
Record Hit (A : Type) : Type := {
  hit_row : A;
  _distance : option Q
}.

Record DocumentResult : Type := {
  res_id : string;
  res_title : string;
  res_folders : list string;
  res_created_at : string;
  res_insights_summary : string;
  res_granola_summary : string;
  res_themes : list Theme;
  res_key_quotes : list Quote;
  res_has_transcript : bool;
  res_score : Q
}.

Record ChunkResult : Type := {
  cres_id : string;
  cres_document_id : string;
  cres_content : string;
  cres_type : ChunkType;
  cres_theme_name : string;
  cres_timestamp : string;
  cres_score : Q
}.

(** "Convert L2 distance to similarity (0-1 range): 1/(1+distance)":
    [row._distance !== undefined ? 1 / (1 + row._distance) : 0] *)
Definition similarity (distance : option Q) : Q :=
  match distance with
  | Some d => (1 / (1 + d))%Q
  | None => 0%Q
  end.

(** The predicate of the [filter] on documents:
    [!folder] lets every row through, otherwise some folder name must
    contain the filter, both in lower case. *)
Definition folderMatches (folder : option string) (folders : list string) : bool :=
  match folder with
  | None => true
  | Some fl =>
      if String.eqb fl "" then true
      else existsb (fun f => includes (toLowerCase f) (toLowerCase fl)) folders
  end.

Definition chunkTypeName (t : ChunkType) : string :=
  match t with
  | quote => "quote"
  | theme => "theme"
  | summary => "summary"
  | granola_summary => "granola_summary"
  end.

Definition chunkTypeEqb (a b : ChunkType) : bool :=
  String.eqb (chunkTypeName a) (chunkTypeName b).

(** The predicate of the [filter] on chunks. *)
Definition chunkMatches (type : option ChunkType) (themeName : option string)
  (row : ChunkRow) : bool :=
  let typeOk :=
    match type with
    | Some t => chunkTypeEqb (crow_type row) t
    | None => true
    end in
  let themeOk :=
    match themeName with
    | Some n => if String.eqb n "" then true else String.eqb (crow_theme_name row) n
    | None => true
    end in
  typeOk && themeOk.

Definition toDocumentResult (h : Hit DocumentRow) : DocumentResult :=
  let row := hit_row h in
  {| res_id := row_id row;
     res_title := row_title row;
     res_folders := row_folders row;
     res_created_at := row_created_at row;
     res_insights_summary := row_insights_summary row;
     res_granola_summary := row_granola_summary row;
     res_themes := row_themes row;
     res_key_quotes := row_key_quotes row;
     res_has_transcript := row_has_transcript row;
     res_score := similarity (_distance h) |}.

Definition toChunkResult (h : Hit ChunkRow) : ChunkResult :=
  let row := hit_row h in
  {| cres_id := crow_id row;
     cres_document_id := crow_document_id row;
     cres_content := crow_content row;
     cres_type := crow_type row;
     cres_theme_name := crow_theme_name row;
     cres_timestamp := crow_timestamp row;
     cres_score := similarity (_distance h) |}.

Section Search.

(** The vector search of the database library,
    [table.search(queryVector).limit(n).toArray()], on a table whose rows
    carry their vector: the rows it returns, or an exception. *)
Variable vectorSearch :
  forall A : Type, (A -> Vector) -> list A -> Vector -> nat -> result (list (Hit A)).

(** [searchDocuments(dbPath, queryVector, { limit, folder })]; a table that
    does not exist makes [openTable] throw, and every exception is caught
    and turned into the empty array. *)
Definition searchDocuments (db : Database) (queryVector : Vector)
  (limit : nat) (folder : option string) : list DocumentResult :=
  match documents db with
  | None => []
  | Some table =>
      match vectorSearch row_vector table queryVector limit with
      | Throw _ => []
      | Ok results =>
          map toDocumentResult
            (filter (fun h => folderMatches folder (row_folders (hit_row h))) results)
      end
  end.

(** [searchChunks(dbPath, queryVector, { limit, type, themeName })] *)
Definition searchChunks (db : Database) (queryVector : Vector)
  (limit : nat) (type : option ChunkType) (themeName : option string)
  : list ChunkResult :=
  match chunks db with
  | None => []
  | Some table =>
      match vectorSearch crow_vector table queryVector (limit * 2) with
      | Throw _ => []
      | Ok results =>
          map toChunkResult
            (firstn limit
               (filter (fun h => chunkMatches type themeName (hit_row h)) results))
      end
  end.

End Search.

(** ** A vector search to run the functions with

    Modelled from the spec: the search of the database library is not part
    of the repository; the specification describes it as a
    nearest-neighbor search ranked by vector distance, smaller first, that
    returns at most [limit] candidates.  [l2Search] ranks by the squared
    Euclidean distance. *)
Fixpoint l2 (a b : Vector) : Q :=
  match a, b with
  | x :: a', y :: b' => ((x - y) * (x - y) + l2 a' b')%Q
  | _, _ => 0%Q
  end.

Fixpoint insertHit {A} (dist : A -> Q) (x : A) (l : list A) : list A :=
  match l with
  | [] => [x]
  | y :: l' =>
      if Qle_bool (dist y) (dist x) then y :: insertHit dist x l'
      else x :: y :: l'
  end.

Definition l2Search (A : Type) (vec : A -> Vector) (table : list A)
  (query : Vector) (limit : nat) : result (list (Hit A)) :=
  let ranked :=
    fold_left (fun sorted x => insertHit (fun r => l2 (vec r) query) x sorted)
      table [] in
  Ok (map (fun r => {| hit_row := r; _distance := Some (l2 (vec r) query) |})
        (firstn limit ranked)).

End VectorStore.

(* ================================================================== *)
(** * src/index.ts: the [index] and [sync] command actions             *)
(* ================================================================== *)
Module Orchestrator.

Import Types.
Import VectorStore(Database, initializeTables, storeDocuments, storeChunks).

Record GranolaDocument : Type := {
  g_id : string;
  g_title : string;
  g_created_at : string;
  g_updated_at : string
}.

(** What the loop reads from one directory of the export:
    [document.json] if it exists, the notes without their frontmatter
    (empty without [notes.md]), the transcript text (empty without a
    transcript file), whether a transcript file exists, and the folder
    names found in the frontmatter of the notes. *)
Record DocDir : Type := {
  dir_name : string;
  docJson : option GranolaDocument;
  notes : string;
  transcript : string;
  hasTranscript : bool;
  folders : list string
}.

Record Options : Type := {
  model : string;
  skipExtraction : bool
}.

(** The two accumulators of a run, the counter, and the state of the
    outside world (the providers) that the calls go through. *)
Record Run (W : Type) : Type := {
  indexedDocs : list (IndexedDocument * Vector);
  allChunks : list ChunkRecord;
  processed : nat;
  world : W
}.

Definition start {W} (w : W) : Run W :=
  {| indexedDocs := []; allChunks := []; processed := 0; world := w |}.

(** A step of the run: it changes the accumulators and the world, and
    either completes with a value or throws. *)
Definition M (W A : Type) : Type := Run W -> result A * Run W.

Definition ret {W A} (a : A) : M W A := fun st => (Ok a, st).

Definition andThen {W A B} (c : M W A) (k : A -> M W B) : M W B :=
  fun st =>
    match c st with
    | (Ok a, st') => k a st'
    | (Throw e, st') => (Throw e, st')
    end.

Declare Scope run_scope.
Delimit Scope run_scope with run.
Notation "x <~ c ;; k" := (andThen c (fun x => k))
  (at level 61, c at next level, right associativity) : run_scope.
Notation "c ;;; k" := (andThen c (fun _ => k))
  (at level 61, right associativity) : run_scope.
Open Scope run_scope.

(** [for (const x of l) body(x)] *)
Fixpoint forEach {W A} (l : list A) (body : A -> M W unit) : M W unit :=
  match l with
  | [] => ret tt
  | a :: l' => body a ;;; forEach l' body
  end.

(** [for (let i = from; i < from + l.length; i++) body(i, l[i - from])] *)
Fixpoint forEachFrom {W A} (from : nat) (l : list A) (body : nat -> A -> M W unit)
  : M W unit :=
  match l with
  | [] => ret tt
  | a :: l' => body from a ;;; forEachFrom (S from) l' body
  end.

(** [indexedDocs.push(d)] *)
Definition pushDoc {W} (d : IndexedDocument * Vector) : M W unit :=
  fun st =>
    (Ok tt, {| indexedDocs := (indexedDocs st ++ [d])%list;
               allChunks := allChunks st;
               processed := processed st;
               world := world st |}).

(** [allChunks.push(c)] *)
Definition pushChunk {W} (c : ChunkRecord) : M W unit :=
  fun st =>
    (Ok tt, {| indexedDocs := indexedDocs st;
               allChunks := (allChunks st ++ [c])%list;
               processed := processed st;
               world := world st |}).

(** [processed++] *)
Definition countProcessed {W} : M W unit :=
  fun st =>
    (Ok tt, {| indexedDocs := indexedDocs st;
               allChunks := allChunks st;
               processed := S (processed st);
               world := world st |}).

(** An awaited call into a provider-backed function. *)
Definition call {W A} (f : W -> result A * W) : M W A :=
  fun st =>
    let (r, w') := f (world st) in
    (r, {| indexedDocs := indexedDocs st;
           allChunks := allChunks st;
           processed := processed st;
           world := w' |}).

(** Decimal digits of a loop index, as a template literal prints it. *)
Definition showNat (n : nat) : string :=
  DecimalString.NilZero.string_of_uint (Nat.to_uint n).

(** [x || d] for strings. *)
Definition orString (x d : string) : string :=
  if String.eqb x "" then d else x.

Definition nonEmpty (x : string) : bool := negb (String.eqb x "").

Definition speakerTag (s : Speaker) : string :=
  match s with
  | me => "ME"
  | participant => "PARTICIPANT"
  end.

(** The text embedded for a theme. *)
Definition themeText (t : Theme) : string :=
  let evidenceTexts :=
    map (fun e => "[" ++ speakerTag (ev_speaker e) ++ "] " ++ ev_text e)
        (th_evidence t) in
  Embedder.createSearchableText
    {| Embedder.c_type := theme;
       Embedder.c_text :=
         th_description t ++ ". Evidence: " ++ join " | " evidenceTexts;
       Embedder.c_theme_name := Some (th_name t);
       Embedder.c_context := None |}.

(** The text embedded for a key quote. *)
Definition quoteText (q : Quote) : string :=
  Embedder.createSearchableText
    {| Embedder.c_type := quote;
       Embedder.c_text := q_text q;
       Embedder.c_theme_name := None;
       Embedder.c_context := Some (q_context q) |}.

Definition summaryText (insights : ExtractedInsights) : string :=
  Embedder.createSearchableText
    {| Embedder.c_type := summary;
       Embedder.c_text := insights_summary insights;
       Embedder.c_theme_name := None;
       Embedder.c_context := None |}.

(** The chunk records that the loops push.  "Chunk for insights summary"
    ([index] only): *)
Definition summaryChunk (d : GranolaDocument) (insights : ExtractedInsights)
  (summaryVector : Vector) : ChunkRecord :=
  {| chunk_id := g_id d ++ "_summary";
     chunk_document_id := g_id d;
     chunk_content := insights_summary insights;
     chunk_type := summary;
     chunk_theme_name := None;
     chunk_timestamp := None;
     chunk_vector := summaryVector |}.

(** "Chunks for themes" (both commands): *)
Definition themeChunk (d : GranolaDocument) (t : Theme) (themeVector : Vector)
  : ChunkRecord :=
  {| chunk_id := g_id d ++ "_theme_" ++ th_name t;
     chunk_document_id := g_id d;
     chunk_content := th_description t;
     chunk_type := theme;
     chunk_theme_name := Some (th_name t);
     chunk_timestamp := None;
     chunk_vector := themeVector |}.

(** "Chunks for key quotes", as [index] builds them, with [theme_name]: *)
Definition indexQuoteChunk (d : GranolaDocument) (i : nat) (q : Quote)
  (quoteVector : Vector) : ChunkRecord :=
  {| chunk_id := g_id d ++ "_quote_" ++ showNat i;
     chunk_document_id := g_id d;
     chunk_content := q_text q;
     chunk_type := quote;
     chunk_theme_name := q_theme q;
     chunk_timestamp := q_timestamp q;
     chunk_vector := quoteVector |}.

(** and as [sync] builds them, without: *)
Definition syncQuoteChunk (d : GranolaDocument) (i : nat) (q : Quote)
  (quoteVector : Vector) : ChunkRecord :=
  {| chunk_id := g_id d ++ "_quote_" ++ showNat i;
     chunk_document_id := g_id d;
     chunk_content := q_text q;
     chunk_type := quote;
     chunk_theme_name := None;
     chunk_timestamp := q_timestamp q;
     chunk_vector := quoteVector |}.

(** The chunks built by [mk] from the elements of [l], counted from
    [from], and the vectors [vs]; a vector list shorter than [l] leaves the
    rest of [l] out. *)
Fixpoint built {A} (mk : nat -> A -> Vector -> ChunkRecord) (from : nat)
  (l : list A) (vs : list Vector) : list ChunkRecord :=
  match l, vs with
  | a :: l', v :: vs' => mk from a v :: built mk (S from) l' vs'
  | _, _ => []
  end.

(** The ids of the chunks of a document with the given insights, by kind
    and discriminator: the summary, one per theme (by theme name), one per
    key quote (by position). *)
Definition summaryChunkId (docId : string) : string := docId ++ "_summary".
Definition themeChunkId (docId themeName : string) : string :=
  docId ++ "_theme_" ++ themeName.
Definition quoteChunkId (docId : string) (i : nat) : string :=
  docId ++ "_quote_" ++ showNat i.

Definition themeChunkIds (docId : string) (insights : ExtractedInsights)
  : list string :=
  map (fun t => themeChunkId docId (th_name t)) (themes insights).

Definition quoteChunkIds (docId : string) (insights : ExtractedInsights)
  : list string :=
  map (quoteChunkId docId) (seq 0 (List.length (key_quotes insights))).

(** Every accumulated chunk refers to an accumulated document. *)
Definition chunksReferToDocs {W} (st : Run W) : Prop :=
  forall c, In c (allChunks st) ->
    In (chunk_document_id c) (map (fun d => doc_id (fst d)) (indexedDocs st)).

(** Every stored chunk row refers to a stored document row. *)
Definition rowsReferToRows (db : Database) : Prop :=
  exists docs rows,
    VectorStore.documents db = Some docs /\
    VectorStore.chunks db = Some rows /\
    forall c, In c rows ->
      In (VectorStore.crow_document_id c) (map VectorStore.row_id docs).

Section Commands.

Variable W : Type.

(** [extractInsights(transcript, notes, title, model)] and
    [generateEmbedding(text)], as the commands see them: calls that go
    through the outside world and resolve or reject. *)
Variable extractInsights :
  string -> string -> string -> string -> W -> result ExtractedInsights * W.
Variable generateEmbedding : string -> W -> result Vector * W.

(** "Extract insights": the default insight set, replaced by the
    extractor's unless extraction is skipped or there is no text. *)
Definition loadInsights (options : Options) (dir : DocDir) (title : string)
  : M W ExtractedInsights :=
  if negb (skipExtraction options) &&
     (nonEmpty (transcript dir) || nonEmpty (notes dir))
  then call (extractInsights (transcript dir) (notes dir) title (model options))
  else ret {| insights_summary :=
                orString (substring0 500 (notes dir)) "No summary available";
              themes := [];
              key_quotes := [] |}.

Definition makeIndexedDocument (dir : DocDir) (d : GranolaDocument)
  (insights : ExtractedInsights) : IndexedDocument :=
  {| doc_id := g_id d;
     doc_title := orString (g_title d) (dir_name dir);
     doc_folders := folders dir;
     doc_created_at := g_created_at d;
     doc_updated_at := Some (g_updated_at d);
     doc_granola_summary := notes dir;
     doc_themes := themes insights;
     doc_key_quotes := key_quotes insights;
     doc_insights_summary := insights_summary insights;
     doc_has_transcript := hasTranscript dir |}.

(** The body of the loop over the directories in the [index] command. *)
Definition indexDocument (options : Options) (dir : DocDir) : M W unit :=
  match docJson dir with
  | None => ret tt
  | Some d =>
      insights <~ loadInsights options dir (orString (g_title d) (dir_name dir)) ;;
      let indexedDoc := makeIndexedDocument dir d insights in
      summaryVector <~ call (generateEmbedding (summaryText insights)) ;;
      pushDoc (indexedDoc, summaryVector) ;;;
      pushChunk (summaryChunk d insights summaryVector) ;;;
      forEach (themes insights) (fun t =>
        themeVector <~ call (generateEmbedding (themeText t)) ;;
        pushChunk (themeChunk d t themeVector)) ;;;
      forEachFrom 0 (key_quotes insights) (fun i q =>
        quoteVector <~ call (generateEmbedding (quoteText q)) ;;
        pushChunk (indexQuoteChunk d i q quoteVector)) ;;;
      countProcessed
  end.

(** The body of the loop over the directories in the [sync] command. *)
Definition syncDocument (options : Options) (dir : DocDir) : M W unit :=
  match docJson dir with
  | None => ret tt
  | Some d =>
      insights <~ loadInsights options dir (orString (g_title d) (dir_name dir)) ;;
      let indexedDoc := makeIndexedDocument dir d insights in
      summaryVector <~ call (generateEmbedding (summaryText insights)) ;;
      pushDoc (indexedDoc, summaryVector) ;;;
      forEach (themes insights) (fun t =>
        themeVector <~ call (generateEmbedding (themeText t)) ;;
        pushChunk (themeChunk d t themeVector)) ;;;
      forEachFrom 0 (key_quotes insights) (fun i q =>
        quoteVector <~ call (generateEmbedding (quoteText q)) ;;
        pushChunk (syncQuoteChunk d i q quoteVector)) ;;;
      countProcessed
  end.

(** The loops of the two commands, from empty accumulators. *)
Definition indexLoop (options : Options) (dirs : list DocDir) (w : W)
  : result unit * Run W :=
  forEach dirs (indexDocument options) (start w).

Definition syncLoop (options : Options) (dirs : list DocDir) (w : W)
  : result unit * Run W :=
  forEach dirs (syncDocument options) (start w).

(** What a command leaves behind: the counts it reports (or the error
    that ended it), the database and the world.  [keyPresent] is
    [process.env.OPENAI_API_KEY] being set. *)
Record Outcome : Type := {
  reported : result (nat * nat);
  database : Database;
  after : W
}.

Definition missingKey : Error :=
  mkError "OPENAI_API_KEY environment variable is required".

(** The [index] command: the loop, then [initializeTables] and the two
    bulk writes. *)
Definition indexCommand (keyPresent : bool) (options : Options)
  (dirs : list DocDir) (db : Database) (w : W) : Outcome :=
  if negb keyPresent then {| reported := Throw missingKey; database := db; after := w |}
  else
    match indexLoop options dirs w with
    | (Throw e, st) => {| reported := Throw e; database := db; after := world st |}
    | (Ok _, st) =>
        let db1 := initializeTables db in
        let db2 := storeDocuments db1 (indexedDocs st) in
        let db3 := storeChunks db2 (allChunks st) in
        {| reported := Ok (List.length (indexedDocs st), List.length (allChunks st));
           database := db3;
           after := world st |}
    end.

(** The index phase of the [sync] command: [initializeTables], the loop,
    then the two bulk writes. *)
Definition syncCommand (keyPresent : bool) (options : Options)
  (dirs : list DocDir) (db : Database) (w : W) : Outcome :=
  if negb keyPresent then {| reported := Throw missingKey; database := db; after := w |}
  else
    let db1 := initializeTables db in
    match syncLoop options dirs w with
    | (Throw e, st) => {| reported := Throw e; database := db1; after := world st |}
    | (Ok _, st) =>
        let db2 := storeDocuments db1 (indexedDocs st) in
        let db3 := storeChunks db2 (allChunks st) in
        {| reported := Ok (List.length (indexedDocs st), List.length (allChunks st));
           database := db3;
           after := world st |}
    end.

End Commands.
End Orchestrator.

(* ================================================================== *)
(** * Concrete providers, model outputs and corpora                    *)
(* ================================================================== *)
Module Samples.

Import Types.

(** ** Insight extraction *)

(** A model output whose only theme is a known one, with a single
    evidence item of empty text. *)
Definition blankEvidenceOutput : json :=
  JObj [("insights_summary", JStr "Pricing came up.");
        ("themes",
         JArr [JObj [("name", JStr "pricing");
                     ("description", JStr "Cost concerns");
                     ("evidence",
                      JArr [JObj [("text", JStr "");
                                  ("speaker", JStr "participant")]])]]);
        ("key_quotes", JArr [])].

(** A model output with three key quotes: a valid one, one without text,
    and one with an unknown speaker and an unknown theme. *)
Definition quotesOutput : json :=
  JObj [("insights_summary", JStr "Two quotes.");
        ("themes", JArr []);
        ("key_quotes",
         JArr [JObj [("text", JStr "Too expensive for us");
                     ("speaker", JStr "me");
                     ("context", JStr "pricing discussion");
                     ("theme", JStr "pricing")];
               JObj [("speaker", JStr "participant");
                     ("theme", JStr "pricing")];
               JObj [("text", JStr "We use spreadsheets");
                     ("speaker", JStr "host");
                     ("theme", JStr "tooling")]])].

Definition parseTo (j : json) : string -> result json := fun _ => Ok j.
Definition noCoercion : json -> result bool := fun _ => Ok false.
Definition promptText : string -> string := fun themeList => themeList.

Definition completion (c : string) : InsightExtractor.ChatCompletion :=
  {| InsightExtractor.choices :=
       [{| InsightExtractor.message_of :=
             Some {| InsightExtractor.content := Some c |} |}] |}.

(** A provider that always answers, and one that always fails. *)
Definition replyWith (c : string)
  : nat -> InsightExtractor.ChatRequest -> result InsightExtractor.ChatCompletion :=
  fun _ _ => Ok (completion c).

Definition failWith (msg : string)
  : nat -> InsightExtractor.ChatRequest -> result InsightExtractor.ChatCompletion :=
  fun _ _ => Throw (mkError msg).

Definition withKey : InsightExtractor.Process :=
  {| InsightExtractor.OPENAI_API_KEY := Some "sk-test";
     InsightExtractor.openaiClient := false |}.

Definition withoutKey : InsightExtractor.Process :=
  {| InsightExtractor.OPENAI_API_KEY := None;
     InsightExtractor.openaiClient := false |}.

(** The first key quote of [quotesOutput] after repair. *)
Definition firstQuote : InsightExtractor.Quote :=
  {| InsightExtractor.q_text := JStr "Too expensive for us";
     InsightExtractor.q_speaker := me;
     InsightExtractor.q_timestamp := undefined;
     InsightExtractor.q_context := JStr "pricing discussion";
     InsightExtractor.q_theme := Some (JStr "pricing") |}.

Definition quotesResult : InsightExtractor.ExtractedInsights * InsightExtractor.Trace :=
  Eval vm_compute in
    match InsightExtractor.extractInsights (parseTo quotesOutput) noCoercion
            promptText (replyWith "{}") withKey "" "notes" "Sync" "gpt-4o-mini" with
    | Ok x => x
    | Throw _ => (InsightExtractor.degraded "", InsightExtractor.noTrace)
    end.

(** ** Embedding *)

Definition embedderWithKey : Embedder.Process :=
  {| Embedder.OPENAI_API_KEY := Some "sk-test"; Embedder.openaiClient := false |}.

(** The embedding of a text, for the sample providers: its length. *)
Definition lengthEmbedding (t : string) : Vector :=
  [inject_Z (Z.of_nat (String.length t))].


(** A provider that answers every batch with its items in reverse order. *)
Definition reversing (n : nat) (rq : Embedder.EmbeddingRequest)
  : result Embedder.EmbeddingResponse :=
  match Embedder.rq_input rq with
  | Embedder.One t =>
      Ok {| Embedder.data :=
              [{| Embedder.embedding := lengthEmbedding t; Embedder.index := 0%Z |}] |}
  | Embedder.Many b =>
      Ok {| Embedder.data := rev (Embedder.itemsFrom lengthEmbedding 0 b) |}
  end.

(** ** Vector store *)

Definition documentRow (id : string) (folders : list string) (v : Vector)
  : VectorStore.DocumentRow :=
  {| VectorStore.row_id := id;
     VectorStore.row_title := id;
     VectorStore.row_folders := folders;
     VectorStore.row_created_at := "2025-01-01T00:00:00Z";
     VectorStore.row_insights_summary := "";
     VectorStore.row_granola_summary := "";
     VectorStore.row_themes := [];
     VectorStore.row_key_quotes := [];
     VectorStore.row_has_transcript := false;
     VectorStore.row_vector := v |}.

(** Two documents, in the folders "A team" and "B team". *)
Definition teamsDb : VectorStore.Database :=
  {| VectorStore.documents :=
       Some [documentRow "doc-a" ["A team"] [0%Q];
             documentRow "doc-b" ["B team"] [1%Q]];
     VectorStore.chunks := Some [] |}.

(** Three documents: the nearest to the origin is in another folder, the
    two in "A team" are farther away. *)
Definition crowdedDb : VectorStore.Database :=
  {| VectorStore.documents :=
       Some [documentRow "near" ["Other"] [0%Q];
             documentRow "mid" ["A team"] [1%Q];
             documentRow "far" ["A team"] [2%Q]];
     VectorStore.chunks := Some [] |}.

(** The hit of "doc-b" for a query at the origin. *)
Definition hitB : VectorStore.Hit VectorStore.DocumentRow :=
  {| VectorStore.hit_row := documentRow "doc-b" ["B team"] [1%Q];
     VectorStore._distance := Some (VectorStore.l2 [1%Q] [0%Q]) |}.

(** ** Indexing *)

(** The end-to-end scenario of the specification: one document with
    notes and a transcript of the host only. *)
Definition pricingDir : Orchestrator.DocDir :=
  {| Orchestrator.dir_name := "pricing-call";
     Orchestrator.docJson :=
       Some {| Orchestrator.g_id := "doc-1";
               Orchestrator.g_title := "Pricing call";
               Orchestrator.g_created_at := "2025-01-01T00:00:00Z";
               Orchestrator.g_updated_at := "2025-01-02T00:00:00Z" |};
     Orchestrator.notes := "Discussed pricing concerns.";
     Orchestrator.transcript := "[ME] Let us talk about pricing.";
     Orchestrator.hasTranscript := true;
     Orchestrator.folders := ["A team"] |}.

Definition skipping : Orchestrator.Options :=
  {| Orchestrator.model := "gpt-4o-mini"; Orchestrator.skipExtraction := true |}.

Definition extracting : Orchestrator.Options :=
  {| Orchestrator.model := "gpt-4o-mini"; Orchestrator.skipExtraction := false |}.

(** An extractor that finds one theme and two quotes, and an embedder
    that answers with the length of the text; the world is the number of
    calls made. *)
Definition pricingInsights : ExtractedInsights :=
  {| insights_summary := "Pricing is a concern.";
     themes :=
       [{| th_name := "pricing";
           th_description := "Cost concerns";
           th_evidence :=
             [{| ev_text := "Too expensive"; ev_speaker := participant |}] |}];
     key_quotes :=
       [{| q_text := "Too expensive"; q_speaker := participant;
           q_timestamp := None; q_context := "pricing"; q_theme := Some "pricing" |};
        {| q_text := "We need a discount"; q_speaker := participant;
           q_timestamp := None; q_context := "pricing"; q_theme := None |}] |}.

Definition countingExtractor (transcript notes title model : string) (calls : nat)
  : result ExtractedInsights * nat :=
  (Ok pricingInsights, S calls).

Definition countingEmbedder (text : string) (calls : nat) : result Vector * nat :=
  (Ok (lengthEmbedding text), S calls).

Definition emptyDb : VectorStore.Database :=
  {| VectorStore.documents := None; VectorStore.chunks := None |}.

End Samples.

(* ================================================================== *)
(** * src/converter.ts: transcripts as text                            *)
(* ================================================================== *)
Module Converter.

Record TranscriptUtterance : Type := {
  source : string;
  text : string;
  start_timestamp : string;
  end_timestamp : string
}.

(** [transcriptToPlainText] *)
Definition transcriptToPlainText (utterances : list TranscriptUtterance) : string :=
  match utterances with
  | [] => ""
  | _ => join " " (map text utterances)
  end.

(** [utterance.source === "microphone" ? "[ME]" : "[PARTICIPANT]"] *)
Definition speakerLabel (u : TranscriptUtterance) : string :=
  if String.eqb (source u) "microphone" then "[ME]" else "[PARTICIPANT]".

(** The three variables of the loop of [transcriptWithSpeakers]. *)
Record Merge : Type := {
  lines : list string;
  currentSpeaker : option string;
  currentTexts : list string
}.

Definition noMerge : Merge :=
  {| lines := []; currentSpeaker := None; currentTexts := [] |}.

(** "Flush previous speaker's text":
    [if (currentSpeaker && currentTexts.length > 0) lines.push(...)] *)
Definition flush (m : Merge) : list string :=
  match currentSpeaker m with
  | Some speaker =>
      if negb (String.eqb speaker "") && (0 <? List.length (currentTexts m))%nat
      then (lines m ++ [(speaker ++ " " ++ join " " (currentTexts m))%string])%list
      else lines m
  | None => lines m
  end.

(** The body of the loop over the utterances. *)
Definition mergeStep (m : Merge) (u : TranscriptUtterance) : Merge :=
  let speaker := speakerLabel u in
  let same :=
    match currentSpeaker m with
    | Some current => String.eqb speaker current
    | None => false
    end in
  if same then
    {| lines := lines m;
       currentSpeaker := currentSpeaker m;
       currentTexts := (currentTexts m ++ [text u])%list |}
  else
    {| lines := flush m;
       currentSpeaker := Some speaker;
       currentTexts := [text u] |}.

(** The [lines] array at the end of [transcriptWithSpeakers]. *)
Definition speakerLines (utterances : list TranscriptUtterance) : list string :=
  flush (fold_left mergeStep utterances noMerge).

Definition blankLine : string :=
  String "010" (String "010" EmptyString).

(** [transcriptWithSpeakers] *)
Definition transcriptWithSpeakers (utterances : list TranscriptUtterance) : string :=
  match utterances with
  | [] => ""
  | _ => join blankLine (speakerLines utterances)
  end.

(** ** Runs of one speaker

    The maximal runs of consecutive utterances of one speaker, each with
    its label and its texts: what the merged lines are compared with. *)
Definition joinRun (label : string) (texts : list string)
  (runs : list (string * list string)) : list (string * list string) :=
  match runs with
  | (label', texts') :: rest =>
      if String.eqb label label' then (label, (texts ++ texts')%list) :: rest
      else (label, texts) :: runs
  | [] => [(label, texts)]
  end.

Fixpoint speakerRuns (utterances : list TranscriptUtterance)
  : list (string * list string) :=
  match utterances with
  | [] => []
  | u :: rest => joinRun (speakerLabel u) [text u] (speakerRuns rest)
  end.

(** The line of a run. *)
Definition runLine (run : string * list string) : string :=
  fst run ++ " " ++ join " " (snd run).

(** No two neighbours in the list carry the same label. *)
Fixpoint alternating (runs : list (string * list string)) : Prop :=
  match runs with
  | r1 :: ((r2 :: _) as rest) => fst r1 <> fst r2 /\ alternating rest
  | _ => True
  end.

End Converter.

(* ================================================================== *)
(** * src/index.ts and src/mcp/handlers/get-transcript.ts:
      directory names                                                  *)
(* ================================================================== *)
Module Filenames.

(** The character class of the first [replace]: the control characters
    (codes 0 to 31) and the nine characters less-than, greater-than,
    colon, double quote, slash, backslash, vertical bar, question mark
    and asterisk. *)
Definition forbidden (c : ascii) : bool :=
  let n := nat_of_ascii c in
  (n <=? 31)%nat ||
  existsb (Nat.eqb n) [60; 62; 58; 34; 47; 92; 124; 63; 42]%nat.

(** The class [\s], for code units below 256: tab, line feed, vertical
    tab, form feed, carriage return, space and no-break space. *)
Definition whitespace (c : ascii) : bool :=
  let n := nat_of_ascii c in
  existsb (Nat.eqb n) [9; 10; 11; 12; 13; 32; 160]%nat.

(** The first [replace]: the characters of the class are removed. *)
Fixpoint removeForbidden (s : string) : string :=
  match s with
  | EmptyString => EmptyString
  | String c s' =>
      if forbidden c then removeForbidden s' else String c (removeForbidden s')
  end.

(** The second [replace], of [\s+] by an underscore: every maximal run
    of whitespace becomes one underscore; [inRun] tells that the
    character before was whitespace. *)
Fixpoint replaceRuns (inRun : bool) (s : string) : string :=
  match s with
  | EmptyString => EmptyString
  | String c s' =>
      if whitespace c then
        if inRun then replaceRuns true s'
        else String "_" (replaceRuns true s')
      else String c (replaceRuns false s')
  end.

(** [sanitizeFilename], the same function in both files ([slice(0, 100)]
    in one, [substring(0, 100)] in the other). *)
Definition sanitizeFilename (name : string) : string :=
  substring0 100 (replaceRuns false (removeForbidden name)).

(** Every character satisfies [p]. *)
Fixpoint allChars (p : ascii -> bool) (s : string) : bool :=
  match s with
  | EmptyString => true
  | String c s' => p c && allChars p s'
  end.

(** A character that [sanitizeFilename] leaves alone. *)
Definition plain (c : ascii) : bool := negb (forbidden c) && negb (whitespace c).

(** The name of the directory that the export commands write a document
    to: [sanitizeFilename(doc.title || doc.id)]. *)
Definition exportDirName (d : Orchestrator.GranolaDocument) : string :=
  sanitizeFilename (Orchestrator.orString (Orchestrator.g_title d) (Orchestrator.g_id d)).

(** The directory that [handleGetTranscript] looks into for a document
    with the indexed title [title]: [sanitizeFilename(doc.title)]. *)
Definition transcriptDirName (title : string) : string := sanitizeFilename title.

End Filenames.

(* ================================================================== *)
(** * src/api.ts: paging through the documents                         *)
(* ================================================================== *)
Module Api.

(** What the server answers to a request. *)
Record Response (A : Type) : Type := {
  ok : bool;
  status : nat;
  body_text : string;
  body_json : A
}.

(** [apiRequest]: the parsed body, or an error that quotes the status and
    the body. *)
Definition apiRequest {A} (response : Response A) : result A :=
  if ok response then Ok (body_json response)
  else Throw (mkError ("API error " ++ Orchestrator.showNat (status response)
                       ++ ": " ++ body_text response)).

Definition PAGE : nat := 100.

Section Paging.

Variable Doc : Type.

(** The server's answer to [/v2/get-documents] with the given [limit] and
    [offset]. *)
Variable getDocuments : nat -> nat -> result (list Doc).

(** The loop [while (true)] of [getAllDocuments]; it has no bound of its
    own, [None] is running out of [fuel]. *)
Fixpoint pageLoop (fuel : nat) (offset : nat) (allDocs : list Doc)
  : option (result (list Doc)) :=
  match fuel with
  | O => None
  | S fuel' =>
      match getDocuments PAGE offset with
      | Throw e => Some (Throw e)
      | Ok docs =>
          let allDocs' := (allDocs ++ docs)%list in
          if (List.length docs <? PAGE)%nat then Some (Ok allDocs')
          else pageLoop fuel' (offset + PAGE) allDocs'
      end
  end.

(** [getAllDocuments(token)] *)
Definition getAllDocuments (fuel : nat) : option (result (list Doc)) :=
  pageLoop fuel 0 [].

End Paging.

Section Transcript.

Variable Utterance : Type.

(** [getDocumentTranscript]: the transcript, [null] when the request fails
    with a message that contains "404", the error otherwise. *)
Definition getDocumentTranscript (response : Response (list Utterance))
  : result (option (list Utterance)) :=
  match apiRequest response with
  | Ok transcript => Ok (Some transcript)
  | Throw error =>
      if includes (message error) "404" then Ok None else Throw error
  end.

End Transcript.

End Api.

(* ================================================================== *)
(** * src/indexing/vector-store.ts: listings and statistics            *)
(* ================================================================== *)
Module StoreQueries.

Import Types VectorStore.

(** A [Map] with string keys: its entries in insertion order. *)
Definition JsMap (V : Type) : Type := list (string * V).

(** [m.get(k)] *)
Fixpoint mapGet {V} (k : string) (m : JsMap V) : option V :=
  match m with
  | [] => None
  | (k', v) :: rest => if String.eqb k k' then Some v else mapGet k rest
  end.

(** [m.set(k, v)]: an existing key keeps its place, a new key goes last. *)
Fixpoint mapSet {V} (k : string) (v : V) (m : JsMap V) : JsMap V :=
  match m with
  | [] => [(k, v)]
  | (k', v') :: rest =>
      if String.eqb k k' then (k', v) :: rest else (k', v') :: mapSet k v rest
  end.

(** [xs.sort(cmp)] for a comparator with numeric result: the stable
    insertion sort ([x] goes after the elements that [cmp] does not place
    after it). *)
Fixpoint insertBy {A} (cmp : A -> A -> Z) (x : A) (l : list A) : list A :=
  match l with
  | [] => [x]
  | y :: l' =>
      if (cmp y x <=? 0)%Z then y :: insertBy cmp x l' else x :: y :: l'
  end.

Definition sortBy {A} (cmp : A -> A -> Z) (l : list A) : list A :=
  fold_left (fun sorted x => insertBy cmp x sorted) l [].

(** An element of the result of [getAllDocuments]. *)
Record DocumentSummary : Type := {
  sum_id : string;
  sum_title : string;
  sum_folders : list string;
  sum_created_at : string;
  sum_insights_summary : string;
  sum_has_transcript : bool
}.

Definition toSummary (row : DocumentRow) : DocumentSummary :=
  {| sum_id := row_id row;
     sum_title := row_title row;
     sum_folders := row_folders row;
     sum_created_at := row_created_at row;
     sum_insights_summary := row_insights_summary row;
     sum_has_transcript := row_has_transcript row |}.

(** The result of [getDocumentById]. *)
Record DocumentDetail : Type := {
  det_id : string;
  det_title : string;
  det_folders : list string;
  det_created_at : string;
  det_insights_summary : string;
  det_granola_summary : string;
  det_themes : list Theme;
  det_key_quotes : list Quote;
  det_has_transcript : bool
}.

Definition toDetail (row : DocumentRow) : DocumentDetail :=
  {| det_id := row_id row;
     det_title := row_title row;
     det_folders := row_folders row;
     det_created_at := row_created_at row;
     det_insights_summary := row_insights_summary row;
     det_granola_summary := row_granola_summary row;
     det_themes := row_themes row;
     det_key_quotes := row_key_quotes row;
     det_has_transcript := row_has_transcript row |}.

Record ThemeStats : Type := {
  document_count : nat;
  total_quotes : nat
}.

Definition noStats : ThemeStats := {| document_count := 0; total_quotes := 0 |}.

Record FolderCount : Type := {
  fc_name : string;
  fc_document_count : nat
}.

(** The body of the inner loop of [getThemeStats]. *)
Definition countTheme (stats : JsMap ThemeStats) (t : Theme) : JsMap ThemeStats :=
  let existing :=
    match mapGet (th_name t) stats with
    | Some e => e
    | None => noStats
    end in
  mapSet (th_name t)
    {| document_count := S (document_count existing);
       total_quotes := total_quotes existing + List.length (th_evidence t) |}
    stats.

(** [getThemeStats]; a table is scanned in the order of its rows. *)
Definition getThemeStats (db : Database) : JsMap ThemeStats :=
  match documents db with
  | None => []
  | Some table =>
      fold_left (fun stats row => fold_left countTheme (row_themes row) stats)
        table []
  end.

(** The body of the inner loop of [getAllFolders]:
    [folderCounts.set(folder, (folderCounts.get(folder) || 0) + 1)] *)
Definition countFolder (counts : JsMap nat) (folder : string) : JsMap nat :=
  mapSet folder
    (match mapGet folder counts with
     | Some n => n
     | None => 0%nat
     end + 1)%nat
    counts.

Definition folderCounts (db : Database) : JsMap nat :=
  match documents db with
  | None => []
  | Some table =>
      fold_left (fun counts row => fold_left countFolder (row_folders row) counts)
        table []
  end.

(** [(a, b) => b.document_count - a.document_count] *)
Definition byCountDescending (a b : FolderCount) : Z :=
  (Z.of_nat (fc_document_count b) - Z.of_nat (fc_document_count a))%Z.

(** [getAllFolders] *)
Definition getAllFolders (db : Database) : list FolderCount :=
  sortBy byCountDescending
    (map (fun entry => {| fc_name := fst entry; fc_document_count := snd entry |})
         (folderCounts db)).

Section Queries.

(** [new Date(s).getTime()]; [None] is the [NaN] of an invalid date. *)
Variable getTime : string -> option Z.

(** The filtered scan [table.query().where(predicate).toArray()] of the
    database library: the rows it returns, or an exception. *)
Variable sqlWhere : list DocumentRow -> string -> result (list DocumentRow).

(** [(a, b) => new Date(b.created_at).getTime() - new Date(a.created_at).getTime()];
    a [NaN] result counts as 0. *)
Definition newestFirst (a b : DocumentSummary) : Z :=
  match getTime (sum_created_at b), getTime (sum_created_at a) with
  | Some tb, Some ta => (tb - ta)%Z
  | _, _ => 0%Z
  end.

(** [getAllDocuments(dbPath, { folder })] *)
Definition getAllDocuments (db : Database) (folder : option string)
  : list DocumentSummary :=
  match documents db with
  | None => []
  | Some table =>
      sortBy newestFirst
        (map toSummary
           (filter (fun row => folderMatches folder (row_folders row)) table))
  end.

(** [getDocumentById(dbPath, documentId)] *)
Definition getDocumentById (db : Database) (documentId : string)
  : option DocumentDetail :=
  match documents db with
  | None => None
  | Some table =>
      match sqlWhere table ("id = '" ++ documentId ++ "'") with
      | Throw _ => None
      | Ok [] => None
      | Ok (row :: _) => Some (toDetail row)
      end
  end.

End Queries.

(** The time of a document summary, when its date is valid. *)
Definition timeOf (getTime : string -> option Z) (d : DocumentSummary) : Z :=
  match getTime (sum_created_at d) with
  | Some t => t
  | None => 0%Z
  end.

(** How many themes named [name] the rows hold, and how many evidence
    items these themes hold. *)
Definition named (name : string) (t : Theme) : bool := String.eqb name (th_name t).

Definition themeOccurrences (name : string) (table : list DocumentRow) : nat :=
  List.length (filter (named name) (flat_map row_themes table)).

Definition themeEvidence (name : string) (table : list DocumentRow) : nat :=
  list_sum (map (fun t => List.length (th_evidence t))
                (filter (named name) (flat_map row_themes table))).

(** How many times [folder] is listed in the rows. *)
Definition folderOccurrences (folder : string) (table : list DocumentRow) : nat :=
  List.length (filter (String.eqb folder) (flat_map row_folders table)).

(** The rows of the documents table; none when the table does not exist. *)
Definition rowsOf (db : Database) : list DocumentRow :=
  match documents db with
  | Some table => table
  | None => []
  end.

(** The order of a list by decreasing [key]. *)
Definition decreasing {A} (key : A -> Z) (a b : A) : Prop := (key b <= key a)%Z.

End StoreQueries.

(* ================================================================== *)
(** * src/mcp/handlers                                                 *)
(* ================================================================== *)
Module Handlers.

Import Types VectorStore StoreQueries.

(** [s.split('T')[0]]: the part of [s] before its first [T]. *)
Fixpoint datePart (s : string) : string :=
  match s with
  | EmptyString => EmptyString
  | String c s' => if Ascii.eqb c "T" then EmptyString else String c (datePart s')
  end.

(** ** list-documents.ts *)

Record ListedDocument : Type := {
  ld_id : string;
  ld_title : string;
  ld_folders : list string;
  ld_date : string;
  ld_summary : string;
  ld_has_transcript : bool
}.

Record DocumentListing : Type := {
  listed : list ListedDocument;
  total_count : nat
}.

Definition toListed (doc : DocumentSummary) : ListedDocument :=
  {| ld_id := sum_id doc;
     ld_title := sum_title doc;
     ld_folders := sum_folders doc;
     ld_date := datePart (sum_created_at doc);
     ld_summary := sum_insights_summary doc;
     ld_has_transcript := sum_has_transcript doc |}.

(** ** search-themes.ts *)

Record ThemeDocument : Type := {
  td_id : string;
  td_title : string;
  td_folders : list string;
  td_date : string;
  td_evidence : list ThemeEvidence;
  td_key_quotes : list Quote
}.

Record ThemeSearchResult : Type := {
  tsr_theme : string;
  tsr_documents : list ThemeDocument;
  tsr_total_evidence_count : nat
}.

(** [q.theme === theme] *)
Definition quoteHasTheme (theme : string) (q : Quote) : bool :=
  match q_theme q with
  | Some t => String.eqb t theme
  | None => false
  end.

(** ** get-themes.ts *)

Record ThemeInfo : Type := {
  ti_id : string;
  ti_name : string;
  ti_description : string;
  ti_document_count : nat;
  ti_total_quotes : nat
}.

(** [handleGetThemes] *)
Definition handleGetThemes (db : Database) : list ThemeInfo :=
  let stats := getThemeStats db in
  map (fun theme =>
         let themeStats :=
           match mapGet (Themes.id theme) stats with
           | Some s => s
           | None => noStats
           end in
         {| ti_id := Themes.id theme;
            ti_name := Themes.name theme;
            ti_description := Themes.prompt theme;
            ti_document_count := document_count themeStats;
            ti_total_quotes := total_quotes themeStats |})
      Themes.THEMES.

(** ** search.ts *)

(** [Math.round(x * 100) / 100], on exact rationals: [Math.round] is the
    floor of its argument plus one half. *)
Definition round2 (x : Q) : Q :=
  (inject_Z (Qfloor (x * 100 + (1 # 2))) / 100)%Q.

Record SearchResult : Type := {
  sr_id : string;
  sr_title : string;
  sr_folders : list string;
  sr_date : string;
  sr_relevance_score : Q;
  sr_summary : string;
  sr_matching_themes : list string;
  sr_key_quotes : list Quote;
  sr_full_transcript_available : bool;
  sr_total_quotes_available : nat
}.

Definition toSearchResult (doc : DocumentResult) : SearchResult :=
  {| sr_id := res_id doc;
     sr_title := res_title doc;
     sr_folders := res_folders doc;
     sr_date := datePart (res_created_at doc);
     sr_relevance_score := round2 (res_score doc);
     sr_summary := res_insights_summary doc;
     sr_matching_themes := map th_name (res_themes doc);
     sr_key_quotes := firstn 3 (res_key_quotes doc);
     sr_full_transcript_available := res_has_transcript doc;
     sr_total_quotes_available := List.length (res_key_quotes doc) |}.

(** The names every plain object inherits; [themesFound[name]] is truthy
    for them although nothing was stored. *)
Definition inheritedNames : list string :=
  ["constructor"; "__proto__"; "hasOwnProperty"; "isPrototypeOf";
   "propertyIsEnumerable"; "toLocaleString"; "toString"; "valueOf";
   "__defineGetter__"; "__defineSetter__"; "__lookupGetter__";
   "__lookupSetter__"].

(** The body of the inner loop that fills [themesFound] (the properties
    of the object, not in their enumeration order). *)
Definition noteTheme (themeStats : JsMap ThemeStats)
  (themesFound : JsMap ThemeStats) (t : Theme) : JsMap ThemeStats :=
  let present :=
    match mapGet (th_name t) themesFound with
    | Some _ => true
    | None => arrayIncludes inheritedNames (th_name t)
    end in
  if present then themesFound
  else
    mapSet (th_name t)
      (match mapGet (th_name t) themeStats with
       | Some s => s
       | None => noStats
       end)
      themesFound.

Record SearchResponse : Type := {
  rsp_query : string;
  rsp_results : list SearchResult;
  rsp_themes_found : JsMap ThemeStats
}.

Section WithStore.

Variable getTime : string -> option Z.
Variable sqlWhere : list DocumentRow -> string -> result (list DocumentRow).
Variable vectorSearch :
  forall A : Type, (A -> Vector) -> list A -> Vector -> nat -> result (list (Hit A)).
Variable create :
  nat -> Embedder.EmbeddingRequest -> result Embedder.EmbeddingResponse.

(** [handleListDocuments(dbPath, { folder, limit = 20 })] *)
Definition handleListDocuments (db : Database) (folder : option string)
  (limit : option nat) : DocumentListing :=
  let limit := match limit with Some n => n | None => 20%nat end in
  let allDocs := getAllDocuments getTime db folder in
  {| listed := map toListed (firstn limit allDocs);
     total_count := List.length allDocs |}.

(** [handleGetDocument]: the document, or the error object. *)
Definition handleGetDocument (db : Database) (document_id : string)
  : DocumentDetail + string :=
  match getDocumentById sqlWhere db document_id with
  | None => inr ("Document not found: " ++ document_id)
  | Some doc => inl doc
  end.

(** The loop [for (const doc of allDocs.slice(0, limit * 2))] of
    [handleSearchThemes], with its two accumulators. *)
Fixpoint themeLoop (db : Database) (theme : string) (limit : nat)
  (docs : list DocumentSummary) (matchingDocs : list ThemeDocument)
  (totalEvidence : nat) : list ThemeDocument * nat :=
  match docs with
  | [] => (matchingDocs, totalEvidence)
  | doc :: rest =>
      match getDocumentById sqlWhere db (sum_id doc) with
      | None => themeLoop db theme limit rest matchingDocs totalEvidence
      | Some fullDoc =>
          match find (fun t => String.eqb (th_name t) theme) (det_themes fullDoc) with
          | None => themeLoop db theme limit rest matchingDocs totalEvidence
          | Some themeData =>
              let themeQuotes := filter (quoteHasTheme theme) (det_key_quotes fullDoc) in
              let matchingDocs' :=
                (matchingDocs ++
                 [{| td_id := det_id fullDoc;
                     td_title := det_title fullDoc;
                     td_folders := det_folders fullDoc;
                     td_date := datePart (det_created_at fullDoc);
                     td_evidence := th_evidence themeData;
                     td_key_quotes := themeQuotes |}])%list in
              let totalEvidence' :=
                (totalEvidence + List.length (th_evidence themeData))%nat in
              if (limit <=? List.length matchingDocs')%nat
              then (matchingDocs', totalEvidence')
              else themeLoop db theme limit rest matchingDocs' totalEvidence'
          end
      end
  end.

(** [handleSearchThemes(dbPath, { theme, folder, limit = 10 })] *)
Definition handleSearchThemes (db : Database) (theme : string)
  (folder : option string) (limit : option nat) : ThemeSearchResult :=
  let limit := match limit with Some n => n | None => 10%nat end in
  match Themes.getThemeById theme with
  | None =>
      {| tsr_theme := theme; tsr_documents := []; tsr_total_evidence_count := 0 |}
  | Some _ =>
      let allDocs := getAllDocuments getTime db folder in
      let (matchingDocs, totalEvidence) :=
        themeLoop db theme limit (firstn (limit * 2) allDocs) [] 0 in
      {| tsr_theme := theme;
         tsr_documents := matchingDocs;
         tsr_total_evidence_count := totalEvidence |}
  end.

(** [handleSearch(dbPath, { query, folder, limit = 5 })]: an embedding
    that fails makes the handler throw. *)
Definition handleSearch (p : Embedder.Process) (db : Database) (query : string)
  (folder : option string) (limit : option nat) : result SearchResponse :=
  let limit := match limit with Some n => n | None => 5%nat end in
  match fst (Embedder.generateEmbedding create p query Embedder.DEFAULT_MODEL) with
  | Throw e => Throw e
  | Ok queryVector =>
      let results := searchDocuments vectorSearch db queryVector limit folder in
      let themeStats := getThemeStats db in
      Ok {| rsp_query := query;
            rsp_results := map toSearchResult results;
            rsp_themes_found :=
              fold_left
                (fun found doc => fold_left (noteTheme themeStats) (res_themes doc) found)
                results [] |}
  end.

End WithStore.

(** The entry [d] of the result of [handleSearchThemes] was made from one
    of the listed documents [docs]: from the details that [getDocumentById]
    returns for its id and from a theme called [theme] among them. *)
Definition themeMatch
  (sqlWhere : list DocumentRow -> string -> result (list DocumentRow))
  (db : Database) (theme : string) (docs : list DocumentSummary)
  (d : ThemeDocument) : Prop :=
  exists doc fullDoc themeData,
    In doc docs /\
    getDocumentById sqlWhere db (sum_id doc) = Some fullDoc /\
    In themeData (det_themes fullDoc) /\
    th_name themeData = theme /\
    td_id d = det_id fullDoc /\
    td_title d = det_title fullDoc /\
    td_folders d = det_folders fullDoc /\
    td_date d = datePart (det_created_at fullDoc) /\
    td_evidence d = th_evidence themeData /\
    td_key_quotes d = filter (quoteHasTheme theme) (det_key_quotes fullDoc).

(** The number of evidence items in the entries. *)
Definition evidenceCount (ds : list ThemeDocument) : nat :=
  list_sum (map (fun d => List.length (td_evidence d)) ds).

End Handlers.

(* ================================================================== *)
(** * src/indexing/insight-extractor.ts: extraction in batches         *)
(* ================================================================== *)
Module BatchExtractor.

Import InsightExtractor.
Import StoreQueries(JsMap, mapGet, mapSet).

Record BatchDocument : Type := {
  bd_id : string;
  bd_title : string;
  bd_transcript : string;
  bd_notes : string
}.

Section Batch.

Variable JSON_parse : string -> result json.
Variable coerceGt0 : json -> result bool.
Variable systemPromptText : string -> string.

(** The provider, as the extraction of the document at position [j] of
    [documents] sees it: the outcome of its [n]-th call. *)
Variable chat : nat -> nat -> ChatRequest -> result ChatCompletion.

(** The callback of [batch.map], for the document at position [j].  The
    optional progress callback, which is called in the order in which
    the extractions of a batch end, is not part of the result. *)
Definition extractOne (p : Process) (model : string) (j : nat)
  (doc : BatchDocument) : result (string * ExtractedInsights) :=
  x <- extractInsights JSON_parse coerceGt0 systemPromptText (chat j) p
         (bd_transcript doc) (bd_notes doc) (bd_title doc) model ;;
  Ok (bd_id doc, fst x).

(** [await Promise.all(batch.map(...))] for a batch that starts at
    position [j]: the results in the order of the batch, or the
    rejection.  An extraction rejects only when the client cannot be
    obtained, which is the same for all extractions of a call. *)
Fixpoint extractAll (p : Process) (model : string) (j : nat)
  (batch : list BatchDocument) : result (list (string * ExtractedInsights)) :=
  match batch with
  | [] => Ok []
  | doc :: rest =>
      r <- extractOne p model j doc ;;
      rs <- extractAll p model (S j) rest ;;
      Ok (r :: rs)
  end.

(** [for (const { id, insights } of batchResults) results.set(id, insights)] *)
Definition storeResults (results : JsMap ExtractedInsights)
  (batchResults : list (string * ExtractedInsights)) : JsMap ExtractedInsights :=
  fold_left (fun m r => mapSet (fst r) (snd r) m) batchResults results.

(** The loop [for (i = 0; i < documents.length; i += concurrency)]; it
    does not end when [concurrency] is [0]: [None] is running out of
    [fuel].  The delays slept are collected. *)
Fixpoint batchLoop (fuel : nat) (p : Process) (documents : list BatchDocument)
  (model : string) (concurrency : nat) (i : nat)
  (results : JsMap ExtractedInsights) (sleeps : list Z)
  : option (result (JsMap ExtractedInsights) * list Z) :=
  if (i <? List.length documents)%nat then
    match fuel with
    | O => None
    | S fuel' =>
        let batch := Embedder.slice i concurrency documents in
        match extractAll p model i batch with
        | Throw e => Some (Throw e, sleeps)
        | Ok batchResults =>
            let results' := storeResults results batchResults in
            let sleeps' :=
              if (i + concurrency <? List.length documents)%nat
              then (sleeps ++ [500%Z])%list else sleeps in
            batchLoop fuel' p documents model concurrency (i + concurrency)
              results' sleeps'
        end
    end
  else Some (Ok results, sleeps).

(** [extractInsightsBatch(documents, { model, concurrency })] *)
Definition extractInsightsBatch (p : Process) (documents : list BatchDocument)
  (model : option string) (concurrency : option nat)
  : option (result (JsMap ExtractedInsights) * list Z) :=
  let model := match model with Some m => m | None => "gpt-4o-mini" end in
  let concurrency := match concurrency with Some c => c | None => 3%nat end in
  batchLoop (List.length documents) p documents model concurrency 0 [] [].

(** What the extraction of the document at position [j] returns once the
    client is there. *)
Definition insightsOf (model : string) (j : nat) (doc : BatchDocument)
  : ExtractedInsights :=
  fst (attemptLoop JSON_parse coerceGt0 (chat j) maxRetries Themes.getThemeNames
         (buildRequest systemPromptText (bd_transcript doc) (bd_notes doc)
            (bd_title doc) model)
         (bd_notes doc) 1 noTrace).

(** The documents from position [j] on, each id with its insights. *)
Fixpoint entriesFrom (model : string) (j : nat) (docs : list BatchDocument)
  : list (string * ExtractedInsights) :=
  match docs with
  | [] => []
  | doc :: rest => (bd_id doc, insightsOf model j doc) :: entriesFrom model (S j) rest
  end.

End Batch.

(** The value of the last entry for [id], if there is one. *)
Fixpoint lastWith {V} (id : string) (entries : list (string * V)) : option V :=
  match entries with
  | [] => None
  | e :: rest =>
      match lastWith id rest with
      | Some v => Some v
      | None => if String.eqb id (fst e) then Some (snd e) else None
      end
  end.

End BatchExtractor.

(* ================================================================== *)
(** * src/index.ts: the notes file and its frontmatter                 *)
(* ================================================================== *)
Module NotesFile.

Import StoreQueries(JsMap, mapGet).

Definition newline : string := String "010" EmptyString.
Definition dquote : string := String (ascii_of_nat 34) EmptyString.
Definition backslash : string := String (ascii_of_nat 92) EmptyString.

(** [s.replace(/"/g, '\\"')]: a backslash before every quotation mark. *)
Fixpoint escapeQuotes (s : string) : string :=
  match s with
  | EmptyString => EmptyString
  | String c s' =>
      if Ascii.eqb c (ascii_of_nat 34)
      then backslash ++ dquote ++ escapeQuotes s'
      else String c (escapeQuotes s')
  end.

(** A folder of the API ([DocumentList]); the documents it holds are
    given by id, in one of two properties. *)
Record DocumentList : Type := {
  dl_id : string;
  dl_name : option string;
  dl_title : option string;
  dl_document_ids : option (list string);
  dl_documents : option (list string)
}.

(** [f.document_ids?.includes(doc.id) || f.documents?.some((d) => d.id === doc.id)] *)
Definition holds (docId : string) (f : DocumentList) : bool :=
  match dl_document_ids f with
  | Some ids => arrayIncludes ids docId
  | None => false
  end ||
  match dl_documents f with
  | Some ids => existsb (fun d => String.eqb d docId) ids
  | None => false
  end.

(** [x || d] for an optional string [x]. *)
Definition orDefault (x : option string) (d : string) : string :=
  match x with
  | Some v => if String.eqb v "" then d else v
  | None => d
  end.

(** [f.title || f.name || "Untitled"] *)
Definition folderName (f : DocumentList) : string :=
  orDefault (dl_title f) (orDefault (dl_name f) "Untitled").

(** [s.substring(n)]: [s] without its first [n] characters. *)
Fixpoint dropChars (n : nat) (s : string) : string :=
  match n, s with
  | O, _ => s
  | S _, EmptyString => EmptyString
  | S n', String _ s' => dropChars n' s'
  end.

(** What follows the first occurrence of [sub] in [s], if there is one. *)
Fixpoint afterFirst (sub s : string) : option string :=
  if startsWith s sub then Some (dropChars (String.length sub) s)
  else
    match s with
    | EmptyString => None
    | String _ s' => afterFirst sub s'
    end.

(** [s] without the line feeds at its start. *)
Fixpoint dropNewlines (s : string) : string :=
  match s with
  | String c s' => if Ascii.eqb c "010" then dropNewlines s' else s
  | EmptyString => EmptyString
  end.

(** "Remove frontmatter": [notesContent.replace(/^---[\s\S]*?---\n*/, "")].
    The pattern matches at the start of the text only: three hyphens, as
    few characters as possible up to the next three hyphens, and the
    line feeds that follow; without a match the text is unchanged. *)
Definition stripFrontmatter (notesContent : string) : string :=
  if startsWith notesContent "---" then
    match afterFirst "---" (dropChars 3 notesContent) with
    | Some rest => dropNewlines rest
    | None => notesContent
    end
  else notesContent.

(** "Load notes": the content of [notes.md] without its frontmatter, the
    empty string when the file does not exist. *)
Definition loadNotes (notesFile : option string) : string :=
  match notesFile with
  | Some notesContent => stripFrontmatter notesContent
  | None => ""
  end.

(** The line terminators, which [.] does not match, for code units below
    256: line feed and carriage return. *)
Definition lineTerminator (c : ascii) : bool :=
  Ascii.eqb c "010" || Ascii.eqb c "013".

(** [\s*]: the text after the whitespace at its start. *)
Fixpoint skipWhitespace (s : string) : string :=
  match s with
  | String c s' => if Filenames.whitespace c then skipWhitespace s' else s
  | EmptyString => EmptyString
  end.

(** [(.*?)\]]: the characters before the first closing bracket, if none
    of them is a line terminator. *)
Fixpoint upToBracket (s : string) : option string :=
  match s with
  | EmptyString => None
  | String c s' =>
      if Ascii.eqb c "]" then Some EmptyString
      else if lineTerminator c then None
      else option_map (String c) (upToBracket s')
  end.

(** The group that [/folders:\s*\[(.*?)\]/] captures when it matches
    at the start of [s]. *)
Definition foldersAt (s : string) : option string :=
  if startsWith s "folders:" then
    match skipWhitespace (dropChars 8 s) with
    | String c t => if Ascii.eqb c "[" then upToBracket t else None
    | EmptyString => None
    end
  else None.

(** [notesContent.match(/folders:\s*\[(.*?)\]/)]: the group of the
    leftmost match. *)
Fixpoint folderMatch (s : string) : option string :=
  match foldersAt s with
  | Some folderStr => Some folderStr
  | None =>
      match s with
      | EmptyString => None
      | String _ s' => folderMatch s'
      end
  end.

(** The global match of [folderStr] against the pattern of a quotation
    mark, one or more characters other than a quotation mark, and a
    quotation mark; each match without its quotation marks.  The text is
    read from left to right: [opened] holds the
    characters since the last quotation mark that may open a match; a
    quotation mark after at least one character closes the match, one
    right after the opening mark becomes the opening mark; what is open
    at the end of the text is no match. *)
Fixpoint scanQuoted (opened : option string) (s : string) : list string :=
  match s with
  | EmptyString => []
  | String c s' =>
      match opened with
      | None =>
          if Ascii.eqb c (ascii_of_nat 34) then scanQuoted (Some EmptyString) s'
          else scanQuoted None s'
      | Some run =>
          if Ascii.eqb c (ascii_of_nat 34) then
            if String.eqb run "" then scanQuoted (Some EmptyString) s'
            else run :: scanQuoted None s'
          else scanQuoted (Some (run ++ String c EmptyString)) s'
      end
  end.

(** "Extract folders from notes frontmatter" *)
Definition loadFolders (notesFile : option string) : list string :=
  match notesFile with
  | Some notesContent =>
      match folderMatch notesContent with
      | Some folderStr => scanQuoted None folderStr
      | None => []
      end
  | None => []
  end.

(** A character that a folder name can hold without changing how the
    folders line is read: no quotation mark, no closing bracket, no line
    terminator. *)
Definition folderChar (c : ascii) : bool :=
  negb (Ascii.eqb c (ascii_of_nat 34)) && negb (Ascii.eqb c "]")
  && negb (lineTerminator c).

Section Notes.

(** The notes of a document ([ProseMirrorDoc]) and their conversion to
    Markdown. *)
Variable Panel : Type.
Variable proseMirrorToMarkdown : option Panel -> string.

Record GranolaDocument : Type := {
  gd_id : string;
  gd_title : string;
  gd_created_at : string;
  gd_updated_at : string;
  gd_workspace_id : option string;
  gd_panel_content : option Panel
}.

(** The lines of the frontmatter between its two delimiters: the four
    lines that are always there, *)
Definition documentLines (doc : GranolaDocument) : list string :=
  ["granola_id: " ++ gd_id doc;
   "title: " ++ dquote
     ++ escapeQuotes (if String.eqb (gd_title doc) "" then "Untitled"
                      else gd_title doc)
     ++ dquote;
   "created_at: " ++ gd_created_at doc;
   "updated_at: " ++ gd_updated_at doc].

(** the lines of the workspace, *)
Definition workspaceLines (doc : GranolaDocument) (workspaceMap : JsMap string)
  : list string :=
  match gd_workspace_id doc with
  | Some workspace_id =>
      if String.eqb workspace_id "" then []
      else
        ("workspace_id: " ++ workspace_id) ::
        match mapGet workspace_id workspaceMap with
        | Some workspaceName =>
            if String.eqb workspaceName "" then []
            else ["workspace_name: " ++ dquote ++ workspaceName ++ dquote]
        | None => []
        end
  | None => []
  end.

(** and the line of the folders that contain the document. *)
Definition folderLines (doc : GranolaDocument) (folders : list DocumentList)
  : list string :=
  match filter (holds (gd_id doc)) folders with
  | [] => []
  | docFolders =>
      ["folders: ["
         ++ join ", " (map (fun n => dquote ++ n ++ dquote)
                           (map folderName docFolders))
         ++ "]"]
  end.

Definition headerLines (doc : GranolaDocument) (workspaceMap : JsMap string)
  (folders : list DocumentList) : list string :=
  (documentLines doc ++ workspaceLines doc workspaceMap
     ++ folderLines doc folders)%list.

(** [createNotesMarkdown(doc, workspaceMap, folders)] *)
Definition createNotesMarkdown (doc : GranolaDocument)
  (workspaceMap : JsMap string) (folders : list DocumentList) : string :=
  let closing := "---" ++ newline in
  let frontmatter :=
    (("---" :: headerLines doc workspaceMap folders) ++ [closing])%list in
  join newline frontmatter ++ newline
    ++ proseMirrorToMarkdown (gd_panel_content doc).

End Notes.

End NotesFile.

(* ================================================================== *)
(** * What a run shows: requests, documents, rows                      *)
(* ================================================================== *)
Module Observations.

Import Types.

(** The texts that an embedding request carries. *)
Definition inputTexts (rq : Embedder.EmbeddingRequest) : list string :=
  match Embedder.rq_input rq with
  | Embedder.One t => [t]
  | Embedder.Many b => b
  end.

(** The texts of all the requests of a log, in the order they were sent. *)
Definition textsSent (log : list Embedder.Event) : list string :=
  List.concat (map inputTexts (Embedder.sentRequests log)).

(** The directories that hold a [document.json], each with its document,
    in the order of the directories. *)
Definition documentsOf (dirs : list Orchestrator.DocDir)
  : list (Orchestrator.DocDir * Orchestrator.GranolaDocument) :=
  flat_map (fun dir =>
              match Orchestrator.docJson dir with
              | Some d => [(dir, d)]
              | None => []
              end) dirs.

(** The indexed document [x] was made from the directory and the document
    [p], with some insights. *)
Definition madeFrom (p : Orchestrator.DocDir * Orchestrator.GranolaDocument)
  (x : IndexedDocument * Vector) : Prop :=
  exists insights, fst x = Orchestrator.makeIndexedDocument (fst p) (snd p) insights.

(** The row [row] holds what the directory and the document [p] say. *)
Definition rowOf (p : Orchestrator.DocDir * Orchestrator.GranolaDocument)
  (row : VectorStore.DocumentRow) : Prop :=
  VectorStore.row_id row = Orchestrator.g_id (snd p) /\
  VectorStore.row_title row =
    Orchestrator.orString (Orchestrator.g_title (snd p))
      (Orchestrator.dir_name (fst p)) /\
  VectorStore.row_folders row = Orchestrator.folders (fst p) /\
  VectorStore.row_created_at row = Orchestrator.g_created_at (snd p) /\
  VectorStore.row_granola_summary row = Orchestrator.notes (fst p) /\
  VectorStore.row_has_transcript row = Orchestrator.hasTranscript (fst p).

(** No accumulated quote chunk carries a theme name. *)
Definition quotesUnthemed {W} (st : Orchestrator.Run W) : Prop :=
  forall c, In c (Orchestrator.allChunks st) ->
    chunk_type c = quote -> chunk_theme_name c = None.

(** The first element of an array, if there is one. *)
Definition first {A} (l : list A) : option A :=
  match l with
  | [] => None
  | x :: _ => Some x
  end.

End Observations.

(* ================================================================== *)
(** * A dated corpus, an API server and an export directory            *)
(* ================================================================== *)
Module Corpus.

Import Types VectorStore.

(** The time of the two dates of the corpus, in days; any other string is
    an invalid date. *)
Definition sampleTime (s : string) : option Z :=
  if String.eqb s "2025-01-01T00:00:00Z" then Some 20089%Z
  else if String.eqb s "2025-02-01T00:00:00Z" then Some 20120%Z
  else None.

Definition pricingTheme : Theme :=
  {| th_name := "pricing";
     th_description := "Cost concerns";
     th_evidence :=
       [{| ev_text := "Too expensive"; ev_speaker := participant |};
        {| ev_text := "We need a discount"; ev_speaker := participant |}] |}.

Definition workflowTheme : Theme :=
  {| th_name := "workflow";
     th_description := "Spreadsheets everywhere";
     th_evidence :=
       [{| ev_text := "We use spreadsheets"; ev_speaker := participant |}] |}.

Definition pricingQuote : Quote :=
  {| q_text := "Too expensive"; q_speaker := participant;
     q_timestamp := None; q_context := "pricing"; q_theme := Some "pricing" |}.

Definition looseQuote : Quote :=
  {| q_text := "Let us start"; q_speaker := me;
     q_timestamp := None; q_context := "opening"; q_theme := None |}.

Definition datedRow (id date : string) (folders : list string)
  (ths : list Theme) (qs : list Quote) : DocumentRow :=
  {| row_id := id;
     row_title := id;
     row_folders := folders;
     row_created_at := date;
     row_insights_summary := "";
     row_granola_summary := "";
     row_themes := ths;
     row_key_quotes := qs;
     row_has_transcript := true;
     row_vector := [0%Q] |}.

(** Three documents: the oldest first, two of them about pricing. *)
Definition themedDb : Database :=
  {| documents :=
       Some [datedRow "doc-1" "2025-01-01T00:00:00Z" ["A team"]
               [pricingTheme; workflowTheme] [pricingQuote; looseQuote];
             datedRow "doc-2" "2025-02-01T00:00:00Z" ["A team"; "Research"]
               [pricingTheme] [];
             datedRow "doc-3" "2025-02-01T00:00:00Z" ["Research"] [] [looseQuote]];
     chunks := Some [] |}.

(** A filtered scan for the predicates that [getDocumentById] builds: the
    rows whose id makes the text of the predicate. *)
Definition whereId (table : list DocumentRow) (predicate : string)
  : result (list DocumentRow) :=
  Ok (filter (fun row => String.eqb predicate ("id = '" ++ row_id row ++ "'")) table).

(** A server that holds the documents [all] and answers a request with
    the page it asks for. *)
Definition pagedServer {Doc} (all : list Doc) (limit offset : nat)
  : result (list Doc) :=
  Ok (firstn limit (skipn offset all)).

(** A server that answers every request with a full page. *)
Definition fullPages (limit offset : nat) : result (list nat) :=
  Ok (repeat offset Api.PAGE).

(** The hit of "doc-a" of [Samples.teamsDb] for a query at the origin. *)
Definition hitA : VectorStore.Hit VectorStore.DocumentRow :=
  {| VectorStore.hit_row := Samples.documentRow "doc-a" ["A team"] [0%Q];
     VectorStore._distance := Some (VectorStore.l2 [0%Q] [0%Q]) |}.

(** One folder name in two spellings: in capitals, starting with the
    capital E with acute accent (code unit 201), and in small letters,
    starting with the small one (code unit 233). *)
Definition capitalEcole : string := String (ascii_of_nat 201) "COLE".
Definition smallEcole : string := String (ascii_of_nat 233) "cole".

Definition accentedDb : VectorStore.Database :=
  {| VectorStore.documents :=
       Some [Samples.documentRow "doc-e" [capitalEcole] [0%Q];
             Samples.documentRow "doc-z" ["zoo"] [1%Q]];
     VectorStore.chunks := Some [] |}.

(** A text of 9000 characters. *)
Fixpoint repeatChar (c : ascii) (n : nat) : string :=
  match n with
  | O => EmptyString
  | S n' => String c (repeatChar c n')
  end.

Definition longText : string := repeatChar "a" (9 * 1000).

(** A failed request whose body mentions 404. *)
Definition gatewayError : Api.Response (list Converter.TranscriptUtterance) :=
  {| Api.ok := false;
     Api.status := 502;
     Api.body_text := "upstream answered 404";
     Api.body_json := [] |}.

(** A failed request that mentions 404 nowhere. *)
Definition serverError : Api.Response (list Converter.TranscriptUtterance) :=
  {| Api.ok := false;
     Api.status := 500;
     Api.body_text := "internal error";
     Api.body_json := [] |}.

(** An untitled document and the directory that the export writes for
    it. *)
Definition untitledDoc : Orchestrator.GranolaDocument :=
  {| Orchestrator.g_id := "doc 7";
     Orchestrator.g_title := "";
     Orchestrator.g_created_at := "2025-01-01T00:00:00Z";
     Orchestrator.g_updated_at := "2025-01-02T00:00:00Z" |}.

Definition untitledDir : Orchestrator.DocDir :=
  {| Orchestrator.dir_name := "doc_7";
     Orchestrator.docJson := Some untitledDoc;
     Orchestrator.notes := "";
     Orchestrator.transcript := "";
     Orchestrator.hasTranscript := false;
     Orchestrator.folders := [] |}.

(** An extractor that always fails. *)
Definition failingExtractor (transcript notes title model : string) (calls : nat)
  : result ExtractedInsights * nat :=
  (Throw (mkError "extraction is down"), S calls).

(** Three documents to extract from, two of them with the same id. *)
Definition toExtract : list BatchExtractor.BatchDocument :=
  [{| BatchExtractor.bd_id := "doc-1"; BatchExtractor.bd_title := "First";
      BatchExtractor.bd_transcript := ""; BatchExtractor.bd_notes := "one" |};
   {| BatchExtractor.bd_id := "doc-2"; BatchExtractor.bd_title := "Second";
      BatchExtractor.bd_transcript := ""; BatchExtractor.bd_notes := "two" |};
   {| BatchExtractor.bd_id := "doc-1"; BatchExtractor.bd_title := "First again";
      BatchExtractor.bd_transcript := ""; BatchExtractor.bd_notes := "three" |}].

(** A provider that is down for every document. *)
Definition downFor (j n : nat) (rq : InsightExtractor.ChatRequest)
  : result InsightExtractor.ChatCompletion :=
  Throw (mkError "service unavailable").

(** A document with notes in plain Markdown, in one folder, and a
    conversion that takes the notes as they are. *)
Definition plainNotes (content : option string) : string :=
  match content with
  | Some text => text
  | None => ""
  end.

Definition notedDoc : NotesFile.GranolaDocument string :=
  {| NotesFile.gd_id := "doc-1";
     NotesFile.gd_title := "Pricing call";
     NotesFile.gd_created_at := "2025-01-01T00:00:00Z";
     NotesFile.gd_updated_at := "2025-01-02T00:00:00Z";
     NotesFile.gd_workspace_id := Some "ws-1";
     NotesFile.gd_panel_content := Some "# Pricing" |}.

Definition dashedDoc : NotesFile.GranolaDocument string :=
  {| NotesFile.gd_id := "doc-2";
     NotesFile.gd_title := "Plan --- draft";
     NotesFile.gd_created_at := "2025-01-01T00:00:00Z";
     NotesFile.gd_updated_at := "2025-01-02T00:00:00Z";
     NotesFile.gd_workspace_id := None;
     NotesFile.gd_panel_content := Some "# Plan" |}.

Definition teamFolder : NotesFile.DocumentList :=
  {| NotesFile.dl_id := "list-1";
     NotesFile.dl_name := None;
     NotesFile.dl_title := Some "A team";
     NotesFile.dl_document_ids := Some ["doc-1"; "doc-2"];
     NotesFile.dl_documents := None |}.

Definition shadowDoc : NotesFile.GranolaDocument string :=
  {| NotesFile.gd_id := "doc-1";
     NotesFile.gd_title := "How folders: [x] are read";
     NotesFile.gd_created_at := "2025-01-01T00:00:00Z";
     NotesFile.gd_updated_at := "2025-01-02T00:00:00Z";
     NotesFile.gd_workspace_id := None;
     NotesFile.gd_panel_content := None |}.

Definition otherFolder : NotesFile.DocumentList :=
  {| NotesFile.dl_id := "list-2";
     NotesFile.dl_name := Some "";
     NotesFile.dl_title := None;
     NotesFile.dl_document_ids := None;
     NotesFile.dl_documents := Some ["doc-9"; "doc-1"] |}.

End Corpus.

(* ================================================================== *)
(** * Facts about the built-ins                                        *)
(* ================================================================== *)
Module JSFacts.

Lemma bind_Ok {A B} (c : result A) (k : A -> result B) (b : B) :
  bind c k = Ok b -> exists a, c = Ok a /\ k a = Ok b.
Proof.
  destruct c as [a|e]; simpl; intros H.
  - exists a; split; [reflexivity | exact H].
  - discriminate H.
Qed.

(** Inverts one [x <- c ;; k] in a hypothesis [... = Ok _]. *)
Ltac inv_bind H :=
  let a := fresh "v" in
  let Ha := fresh "Hv" in
  apply bind_Ok in H; destruct H as [a [Ha H]].

Lemma mapM_In {A B} (f : A -> result B) (l : list A) (bs : list B) :
  mapM f l = Ok bs ->
  forall b, In b bs -> exists a, In a l /\ f a = Ok b.
Proof.
  revert bs; induction l as [|a l IH]; simpl; intros bs H b Hb.
  - injection H as <-. destruct Hb.
  - inv_bind H. inv_bind H. injection H as <-.
    destruct Hb as [<-|Hb].
    + exists a; split; [left; reflexivity | assumption].
    + destruct (IH _ Hv0 b Hb) as [a' [Ha' Hf]].
      exists a'; split; [right; assumption | assumption].
Qed.

Lemma mapM_length {A B} (f : A -> result B) (l : list A) (bs : list B) :
  mapM f l = Ok bs -> List.length bs = List.length l.
Proof.
  revert bs; induction l as [|a l IH]; simpl; intros bs H.
  - injection H as <-. reflexivity.
  - inv_bind H. inv_bind H. injection H as <-. simpl. f_equal. now apply IH.
Qed.

Lemma filterM_In {A} (f : A -> result bool) (l ks : list A) :
  filterM f l = Ok ks ->
  forall k, In k ks -> In k l /\ f k = Ok true.
Proof.
  revert ks; induction l as [|a l IH]; simpl; intros ks H k Hk.
  - injection H as <-. destruct Hk.
  - inv_bind H. inv_bind H. injection H as <-.
    destruct v.
    + destruct Hk as [<-|Hk].
      * split; [left; reflexivity | assumption].
      * destruct (IH _ Hv0 k Hk); split; [right|]; assumption.
    + destruct (IH _ Hv0 k Hk); split; [right|]; assumption.
Qed.

(** An element that the predicate rejects is not in the result. *)
Lemma filterM_drops {A} (f : A -> result bool) (l ks : list A) (a : A) :
  filterM f l = Ok ks -> f a = Ok false -> ~ In a ks.
Proof.
  intros H Hf Hin. destruct (filterM_In f l H a Hin) as [_ Ht].
  rewrite Hf in Ht. discriminate.
Qed.

Lemma startsWith_spec (s p : string) :
  startsWith s p = true <-> exists post, s = p ++ post.
Proof.
  revert s; induction p as [|c p IH]; intros s; simpl.
  - split; [intros _; exists s; reflexivity | intros _; destruct s; reflexivity].
  - destruct s as [|d s].
    + split; [discriminate | intros [post H]; discriminate].
    + simpl. rewrite andb_true_iff, IH. split.
      * intros [Hc [post ->]]. apply Ascii.eqb_eq in Hc. subst d.
        exists post; reflexivity.
      * intros [post H]. injection H as -> ->. split.
        -- apply Ascii.eqb_refl.
        -- exists post; reflexivity.
Qed.

(** [includes] is the substring relation. *)
Lemma includes_spec (s sub : string) :
  includes s sub = true <-> exists pre post, s = pre ++ sub ++ post.
Proof.
  induction s as [|c s IH].
  - cbn [includes]. rewrite orb_false_r, startsWith_spec. split.
    + intros [post H]. exists "", post. exact H.
    + intros [pre [post H]]. destruct pre; simpl in H.
      * exists post; exact H.
      * discriminate.
  - cbn [includes]. rewrite orb_true_iff, startsWith_spec, IH. split.
    + intros [[post H] | [pre [post H]]].
      * exists "", post. exact H.
      * exists (String c pre), post. simpl. now rewrite H.
    + intros [pre [post H]]. destruct pre as [|d pre]; simpl in H.
      * left. exists post. exact H.
      * right. injection H as _ H. exists pre, post. exact H.
Qed.

Lemma substring0_length (n : nat) (s : string) :
  String.length (substring0 n s) = Nat.min n (String.length s).
Proof.
  revert s; induction n as [|n IH]; intros [|c s]; simpl; auto.
Qed.

Lemma substring0_prefix (n : nat) (s : string) :
  exists rest, s = substring0 n s ++ rest.
Proof.
  revert s; induction n as [|n IH]; intros s.
  - exists s. destruct s; reflexivity.
  - destruct s as [|c s].
    + exists "". reflexivity.
    + destruct (IH s) as [rest H]. exists rest. simpl. now rewrite <- H.
Qed.

Lemma substring0_idempotent (n : nat) (s : string) :
  substring0 n (substring0 n s) = substring0 n s.
Proof.
  revert s; induction n as [|n IH]; intros [|c s]; simpl; auto.
  now rewrite IH.
Qed.

Lemma substring0_short (n : nat) (s : string) :
  (String.length s <= n)%nat -> substring0 n s = s.
Proof.
  revert s; induction n as [|n IH]; intros [|c s]; simpl; intros H; auto.
  - lia.
  - f_equal. apply IH. lia.
Qed.

Lemma arrayIncludes_In (names : list string) (x : string) :
  arrayIncludes names x = true <-> In x names.
Proof.
  unfold arrayIncludes. rewrite existsb_exists. split.
  - intros [y [Hy He]]. apply String.eqb_eq in He. now subst.
  - intros H. exists x; split; [assumption | apply String.eqb_refl].
Qed.

Lemma includesValue_known (names : list string) (v : value) :
  includesValue names v = true <-> exists s, v = Some (JStr s) /\ In s names.
Proof.
  unfold includesValue. split.
  - destruct v as [[| | |s| |]|]; try discriminate.
    intros H. exists s; split; [reflexivity | now apply arrayIncludes_In].
  - intros [s [-> H]]. now apply arrayIncludes_In.
Qed.

End JSFacts.

(* ================================================================== *)
(** * The insight extractor: validation and repair                     *)
(* ================================================================== *)
Module ExtractorFacts.

Import Types(Speaker, me, participant).
Import InsightExtractor JSFacts.

Lemma get_name_of_object (t : json) (v : json) :
  get (Some t) "name" = Ok (Some v) ->
  exists fields, t = JObj fields /\ lookup "name" fields = Some v.
Proof.
  destruct t as [| | |s|items|fields]; simpl; try discriminate.
  intros H. injection H as H. exists fields. split; [reflexivity | assumption].
Qed.

Lemma validateSpeaker_me (s : value) :
  validateSpeaker s = me <-> s = Some (JStr "me").
Proof.
  unfold validateSpeaker. split.
  - destruct s as [[| | |x| |]|]; try discriminate.
    destruct (String.eqb x "me") eqn:E; [|discriminate].
    apply String.eqb_eq in E. now subst.
  - intros ->. reflexivity.
Qed.

Lemma validateSpeaker_default (s : value) :
  s <> Some (JStr "me") -> validateSpeaker s = participant.
Proof.
  intros H. destruct (validateSpeaker s) eqn:E; [|reflexivity].
  apply validateSpeaker_me in E. contradiction.
Qed.

Lemma orElse_falsy (v : value) (d : json) :
  truthy v = false -> orElse v d = d.
Proof. unfold orElse. destruct v; intros H; [rewrite H|]; reflexivity. Qed.

Lemma orElse_truthy (v : value) (d x : json) :
  v = Some x -> truthy v = true -> orElse v d = x.
Proof. intros -> H. unfold orElse. now rewrite H. Qed.

(** [x || d] is an array of elements only if [x] is that array. *)
Lemma orElse_array (v : value) (items : list json) (a : json) :
  orElse v (JArr []) = JArr items -> In a items -> v = Some (JArr items).
Proof.
  unfold orElse. destruct v as [x|].
  - destruct (truthy (Some x)).
    + now intros ->.
    + intros H; injection H as <-. intros [].
  - intros H; injection H as <-. intros [].
Qed.

Section Facts.

Variable JSON_parse : string -> result json.
Variable coerceGt0 : json -> result bool.
Variable systemPromptText : string -> string.
Variable chat : nat -> ChatRequest -> result ChatCompletion.

(** The text of a string has positive length iff it is not empty. *)
Lemma lengthGt0_string (s : string) :
  lengthGt0 coerceGt0 (JStr s) = Ok true <-> s <> "".
Proof.
  unfold lengthGt0. simpl. destruct s as [|c s]; simpl.
  - split; [discriminate | intros H; now elim H].
  - split; [discriminate | reflexivity].
Qed.

Lemma lengthGt0_empty : lengthGt0 coerceGt0 (JStr "") = Ok false.
Proof. reflexivity. Qed.

(** An accepted theme is an object whose [name] is a known id. *)
Lemma themeAccepted_known (names : list string) (t : json) :
  themeAccepted coerceGt0 names t = Ok true ->
  exists fields s,
    t = JObj fields /\ lookup "name" fields = Some (JStr s) /\ In s names.
Proof.
  unfold themeAccepted. intros H. inv_bind H.
  destruct (truthy v) eqn:Ht; simpl in H; [|discriminate].
  destruct (includesValue names v) eqn:Hi; simpl in H; [|discriminate].
  apply includesValue_known in Hi. destruct Hi as [s [-> Hs]].
  destruct (get_name_of_object _ Hv) as [fields [-> Hl]].
  exists fields, s. auto.
Qed.

(** A theme whose [name] is missing or not a known id is not accepted. *)
Lemma themeAccepted_unknown (names : list string) (t : json) (nm : value) :
  get (Some t) "name" = Ok nm ->
  (forall s, nm = Some (JStr s) -> ~ In s names) ->
  themeAccepted coerceGt0 names t = Ok false.
Proof.
  intros Hget Hunknown. unfold themeAccepted. rewrite Hget. simpl.
  destruct (truthy nm); simpl; [|reflexivity].
  destruct (includesValue names nm) eqn:Hi; simpl; [|reflexivity].
  apply includesValue_known in Hi. destruct Hi as [s [-> Hs]].
  elim (Hunknown s eq_refl Hs).
Qed.

Lemma repairTheme_spec (t : json) (th : Theme) :
  repairTheme coerceGt0 t = Ok th ->
  th_spread th = t /\
  forall e, In e (th_evidence th) -> lengthGt0 coerceGt0 (ev_text e) = Ok true.
Proof.
  unfold repairTheme. intros H. inv_bind H. inv_bind H. inv_bind H.
  injection H as <-. simpl. split; [reflexivity|].
  intros e He. now destruct (filterM_In _ _ Hv1 e He).
Qed.

(** Every theme of a repaired output carries a known id as its name, and
    every evidence element kept has a text of positive length (its speaker
    is one of the two by its type). *)
Lemma repaired_themes_valid (names : list string) (parsed : json)
  (r : ExtractedInsights) :
  repair coerceGt0 names parsed = Ok r ->
  forall th, In th (themes r) ->
    (exists s, th_name th = Some (JStr s) /\ In s names) /\
    (forall e, In e (th_evidence th) ->
       lengthGt0 coerceGt0 (ev_text e) = Ok true /\
       (ev_speaker e = me \/ ev_speaker e = participant)).
Proof.
  unfold repair. intros H th Hth.
  inv_bind H. inv_bind H. inv_bind H. inv_bind H. inv_bind H. inv_bind H.
  inv_bind H. injection H as <-. simpl in Hth.
  destruct (mapM_In _ _ Hv2 th Hth) as [t [Ht Hrep]].
  apply repairTheme_spec in Hrep. destruct Hrep as [Hspread Hev].
  assert (Hacc : themeAccepted coerceGt0 names t = Ok true).
  { unfold callFilter in Hv1.
    destruct (orElse v0 (JArr [])) as [| | |s|items|fields]; try discriminate.
    now destruct (filterM_In _ _ Hv1 t Ht). }
  apply themeAccepted_known in Hacc. destruct Hacc as [fields [s [-> [Hl Hs]]]].
  split.
  - exists s. unfold th_name. rewrite Hspread. auto.
  - intros e He. split; [now apply Hev|].
    destruct (ev_speaker e); [left | right]; reflexivity.
Qed.

(** What [normalizeQuote] makes of the properties of a raw quote. *)
Lemma normalizeQuote_spec (names : list string) (raw : json) (q : Quote) :
  normalizeQuote names raw = Ok q ->
  exists txt spk ts ctx th,
    get (Some raw) "text" = Ok txt /\
    get (Some raw) "speaker" = Ok spk /\
    get (Some raw) "timestamp" = Ok ts /\
    get (Some raw) "context" = Ok ctx /\
    get (Some raw) "theme" = Ok th /\
    q_text q = orElse txt (JStr "") /\
    q_speaker q = validateSpeaker spk /\
    q_timestamp q = orUndefined ts /\
    q_context q = orElse ctx (JStr "Context not provided") /\
    q_theme q = (if truthy th && includesValue names th then th else undefined).
Proof.
  unfold normalizeQuote. intros H.
  inv_bind H. inv_bind H. inv_bind H. inv_bind H. inv_bind H.
  injection H as <-. simpl. exists v, v0, v1, v2, v3. repeat split; assumption.
Qed.

(** The theme reference of a quote is kept when it names a known id... *)
Lemma theme_reference_kept (names : list string) (th : value) (s : string) :
  th = Some (JStr s) -> In s names -> s <> "" ->
  (if truthy th && includesValue names th then th else undefined) = Some (JStr s).
Proof.
  intros -> Hs Hne.
  assert (Hi : includesValue names (Some (JStr s)) = true)
    by (apply includesValue_known; eauto).
  assert (Ht : truthy (Some (JStr s)) = true).
  { simpl. destruct (String.eqb s "") eqn:E; [|reflexivity].
    apply String.eqb_eq in E. contradiction. }
  now rewrite Ht, Hi.
Qed.

(** ... and cleared otherwise. *)
Lemma theme_reference_cleared (names : list string) (th : value) :
  (forall s, th = Some (JStr s) -> ~ In s names) ->
  (if truthy th && includesValue names th then th else undefined) = undefined.
Proof.
  intros H. destruct (includesValue names th) eqn:Hi.
  - apply includesValue_known in Hi. destruct Hi as [s [-> Hs]].
    elim (H s eq_refl Hs).
  - now rewrite andb_false_r.
Qed.

(** A kept theme reference is always a known id. *)
Lemma theme_reference_known (names : list string) (th : value) (v : json) :
  (if truthy th && includesValue names th then th else undefined) = Some v ->
  exists s, v = JStr s /\ In s names /\ th = Some (JStr s).
Proof.
  destruct (truthy th && includesValue names th) eqn:E; [|discriminate].
  apply andb_true_iff in E. destruct E as [_ Hi].
  apply includesValue_known in Hi. destruct Hi as [s [-> Hs]].
  intros H; injection H as <-. eauto.
Qed.

Lemma registry_ids_nonempty (s : string) :
  In s Themes.getThemeNames -> s <> "".
Proof.
  unfold Themes.getThemeNames. simpl.
  intros H; repeat (destruct H as [<-|H]; [discriminate|]). destruct H.
Qed.

(** What a repaired output says about each key quote it keeps: the quote
    comes from an element [raw] of the model's [key_quotes] array, its
    text has positive length (so it is not the empty string), and its
    other fields are those of [normalizeQuote]. *)
Lemma repaired_quotes_valid (names : list string) (parsed : json)
  (r : ExtractedInsights) :
  repair coerceGt0 names parsed = Ok r ->
  forall q, In q (key_quotes r) ->
    lengthGt0 coerceGt0 (q_text q) = Ok true /\
    exists items raw,
      get (Some parsed) "key_quotes" = Ok (Some (JArr items)) /\
      In raw items /\
      normalizeQuote names raw = Ok q.
Proof.
  unfold repair. intros H q Hq.
  inv_bind H. inv_bind H. inv_bind H. inv_bind H. inv_bind H. inv_bind H.
  inv_bind H. injection H as <-. simpl in Hq.
  destruct (filterM_In _ _ Hv5 q Hq) as [Hin Hlen].
  split; [assumption|].
  unfold callMap in Hv4.
  destruct (orElse v3 (JArr [])) as [| | |s|items|fields] eqn:Ho; try discriminate.
  destruct (mapM_In _ _ Hv4 q Hin) as [raw [Hraw Hnorm]].
  exists items, raw. split; [|split; assumption].
  rewrite Hv3. f_equal. now apply orElse_array with (a := raw).
Qed.

(** A raw quote whose text is absent or empty is normalized to the empty
    text, which the final filter rejects. *)
Lemma blank_quote_rejected (names : list string) (raw : json) (q : Quote)
  (txt : value) :
  normalizeQuote names raw = Ok q ->
  get (Some raw) "text" = Ok txt ->
  txt = undefined \/ txt = Some (JStr "") ->
  lengthGt0 coerceGt0 (q_text q) = Ok false.
Proof.
  intros Hn Hg Hblank. apply normalizeQuote_spec in Hn.
  destruct Hn as (txt' & spk & ts & ctx & th & Ht & _ & _ & _ & _ & Hq & _).
  rewrite Hg in Ht. injection Ht as <-. rewrite Hq.
  destruct Hblank as [-> | ->]; reflexivity.
Qed.

(** ** The retry loop *)


(** A successful attempt is a reply with content that parses and whose
    repair completes. *)
Lemma attemptBody_Ok (names : list string) (rq : ChatRequest) (n : nat)
  (r : ExtractedInsights) :
  attemptBody JSON_parse coerceGt0 chat names rq n = Ok r ->
  exists response c parsed,
    chat n rq = Ok response /\ firstContent response = Some c /\
    JSON_parse c = Ok parsed /\ repair coerceGt0 names parsed = Ok r.
Proof.
  unfold attemptBody. intros H. inv_bind H.
  destruct (firstContent v) as [c|] eqn:Hc; [|discriminate].
  destruct (String.eqb c ""); [discriminate|].
  inv_bind H. exists v, c, v0. auto.
Qed.

(** The loop ends with the result of a successful attempt or with the
    degraded result. *)
Lemma attemptLoop_cases (fuel : nat) (names : list string) (rq : ChatRequest)
  (notes : string) (attempt : nat) (tr : Trace) :
  fst (attemptLoop JSON_parse coerceGt0 chat fuel names rq notes attempt tr) = degraded notes \/
  exists n, attemptBody JSON_parse coerceGt0 chat names rq n = Ok (fst (attemptLoop JSON_parse coerceGt0 chat fuel names rq notes attempt tr)).
Proof.
  revert attempt tr; induction fuel as [|fuel IH]; intros attempt tr; simpl.
  - left; reflexivity.
  - destruct (attempt <=? maxRetries)%nat; [|left; reflexivity].
    destruct (attemptBody JSON_parse coerceGt0 chat names rq attempt) as [r|e] eqn:Hb.
    + right. exists attempt. exact Hb.
    + destruct (isRetryable e && (attempt <? maxRetries)%nat).
      * apply IH.
      * left; reflexivity.
Qed.

(** The loop is left with the degraded result at the first attempt that
    fails without a retry being due, all attempts before it having failed
    with a retryable error. *)
Lemma attemptLoop_degrades (names : list string) (rq : ChatRequest)
  (notes : string) (k : nat) :
  (1 <= k <= maxRetries)%nat ->
  (forall j, (1 <= j < k)%nat ->
     exists e, attemptBody JSON_parse coerceGt0 chat names rq j = Throw e /\ isRetryable e = true) ->
  (exists e, attemptBody JSON_parse coerceGt0 chat names rq k = Throw e /\
     (isRetryable e = false \/ k = maxRetries)) ->
  forall fuel attempt tr,
    (attempt <= k)%nat -> (1 <= attempt)%nat -> (k - attempt < fuel)%nat ->
    fst (attemptLoop JSON_parse coerceGt0 chat fuel names rq notes attempt tr) = degraded notes.
Proof.
  intros Hk Hbefore [e [Hfail Hstop]].
  induction fuel as [|fuel IH]; intros attempt tr Hle H1 Hfuel; [lia|].
  simpl. destruct (Nat.leb_spec attempt maxRetries) as [_|Hgt]; [|reflexivity].
  destruct (Nat.eq_dec attempt k) as [->|Hne].
  - rewrite Hfail. destruct Hstop as [-> | ->].
    + reflexivity.
    + rewrite Nat.ltb_irrefl, andb_false_r. reflexivity.
  - destruct (Hbefore attempt) as [e' [He' Hr]]; [lia|].
    rewrite He', Hr. simpl.
    destruct (Nat.ltb_spec attempt maxRetries) as [_|Hge]; [|lia].
    apply IH; lia.
Qed.

Lemma extractInsights_Ok (p : Process) (transcript notes title model : string)
  (x : ExtractedInsights * Trace) :
  extractInsights JSON_parse coerceGt0 systemPromptText chat
    p transcript notes title model = Ok x ->
  attemptLoop JSON_parse coerceGt0 chat maxRetries Themes.getThemeNames
    (buildRequest systemPromptText transcript notes title model) notes 1 noTrace = x.
Proof.
  unfold extractInsights.
  destruct (getOpenAI p) as [p'|e]; cbn [bind]; intros H; [|discriminate].
  congruence.
Qed.

(** The degraded result, as the specification words it: the summary is
    the first 200 characters of the notes, or the fixed marker when the
    notes are empty; no themes and no key quotes. *)
Lemma degraded_spec (notes : string) :
  insights_summary (degraded notes) =
    (if String.eqb notes "" then JStr "Extraction failed"
     else JStr (substring0 200 notes)) /\
  themes (degraded notes) = [] /\
  key_quotes (degraded notes) = [].
Proof.
  unfold degraded; simpl. repeat split.
  destruct notes as [|c notes]; reflexivity.
Qed.

(** C8.  Every key quote in the result of [extractInsights] comes from an
    element of the model's [key_quotes] array whose text it keeps, and that
    text has positive length (in particular it is not the empty string, so
    elements with absent or empty text are dropped); its speaker is the
    host only when the model said so and the participant otherwise (absent
    or invalid values included); its theme reference is the model's when
    that names a registry id and is cleared otherwise. *)
Theorem key_quotes_validated (p : Process)
  (transcript notes title model : string)
  (r : ExtractedInsights) (tr : Trace) :
  extractInsights JSON_parse coerceGt0 systemPromptText chat
    p transcript notes title model = Ok (r, tr) ->
  forall q, In q (key_quotes r) ->
    (lengthGt0 coerceGt0 (q_text q) = Ok true /\ q_text q <> JStr "") /\
    exists parsed items raw spk th,
      (exists n rq response c,
         chat n rq = Ok response /\ firstContent response = Some c /\
         JSON_parse c = Ok parsed) /\
      get (Some parsed) "key_quotes" = Ok (Some (JArr items)) /\
      In raw items /\
      get (Some raw) "text" = Ok (Some (q_text q)) /\
      get (Some raw) "speaker" = Ok spk /\
      get (Some raw) "theme" = Ok th /\
      (spk = Some (JStr "me") -> q_speaker q = me) /\
      (spk <> Some (JStr "me") -> q_speaker q = participant) /\
      (forall s, th = Some (JStr s) -> In s Themes.getThemeNames ->
         q_theme q = Some (JStr s)) /\
      ((forall s, th = Some (JStr s) -> ~ In s Themes.getThemeNames) ->
         q_theme q = undefined).
Proof.
  intros H q Hq. apply extractInsights_Ok in H.
  assert (Hcases := attemptLoop_cases maxRetries Themes.getThemeNames
                      (buildRequest systemPromptText transcript notes title model)
                      notes 1 noTrace).
  rewrite H in Hcases. cbn [fst] in Hcases.
  destruct Hcases as [Hdeg | [n Hbody]].
  { rewrite Hdeg in Hq. destruct Hq. }
  apply attemptBody_Ok in Hbody.
  destruct Hbody as (response & c & parsed & Hchat & Hc & Hparse & Hrep).
  destruct (repaired_quotes_valid _ _ Hrep q Hq) as [Hlen (items & raw & Hk & Hraw & Hn)].
  assert (Hne : q_text q <> JStr "").
  { intros E. rewrite E, lengthGt0_empty in Hlen. discriminate. }
  split; [split; assumption|].
  apply normalizeQuote_spec in Hn.
  destruct Hn as (txt & spk & ts & ctx & th & Ht & Hs & _ & _ & Hth & Hqt & Hqs & _ & _ & Hqth).
  exists parsed, items, raw, spk, th.
  split; [exists n, (buildRequest systemPromptText transcript notes title model),
            response, c; auto|].
  split; [assumption|]. split; [assumption|].
  split.
  { rewrite Ht. do 2 f_equal. rewrite Hqt in Hne |- *.
    unfold orElse in *. destruct txt as [x|]; [|now elim Hne].
    destruct (truthy (Some x)); [reflexivity | now elim Hne]. }
  split; [assumption|]. split; [assumption|].
  split; [intros ->; rewrite Hqs; reflexivity|].
  split; [intros Hs'; rewrite Hqs; now apply validateSpeaker_default|].
  split.
  - intros s -> Hin. rewrite Hqth.
    apply theme_reference_kept; auto using registry_ids_nonempty.
  - intros Hunknown. rewrite Hqth. now apply theme_reference_cleared.
Qed.

(** C4, as the code has it.  Once the client can be obtained (the API key
    is set, or the client was built before), [extractInsights] returns and
    does not throw; and when an attempt fails with a non-transient error,
    or the last attempt fails, all earlier attempts having failed
    transiently, what it returns is the degraded result: the summary is
    the first 200 characters of the notes (the fixed marker when the notes
    are empty), with no themes and no key quotes. *)
Theorem extractInsights_degrades (p : Process)
  (transcript notes title model : string) :
  (exists p', getOpenAI p = Ok p') ->
  exists r tr,
    extractInsights JSON_parse coerceGt0 systemPromptText chat
      p transcript notes title model = Ok (r, tr) /\
    forall k, (1 <= k <= maxRetries)%nat ->
      (forall j, (1 <= j < k)%nat ->
         exists e,
           attemptBody JSON_parse coerceGt0 chat Themes.getThemeNames
             (buildRequest systemPromptText transcript notes title model) j = Throw e /\
           isRetryable e = true) ->
      (exists e,
         attemptBody JSON_parse coerceGt0 chat Themes.getThemeNames
           (buildRequest systemPromptText transcript notes title model) k = Throw e /\
         (isRetryable e = false \/ k = maxRetries)) ->
      insights_summary r =
        (if String.eqb notes "" then JStr "Extraction failed"
         else JStr (substring0 200 notes)) /\
      themes r = [] /\
      key_quotes r = [].
Proof.
  intros [p' Hp]. unfold extractInsights. rewrite Hp. cbn [bind].
  eexists _, _. split.
  - rewrite <- surjective_pairing. reflexivity.
  - intros k Hk Hbefore Hfail.
    rewrite attemptLoop_degrades with (k := k);
      [apply degraded_spec | assumption | assumption | assumption
      | lia | lia | unfold maxRetries in *; lia].
Qed.

End Facts.

(** C8 at a model output with three key quotes, for its first quote. *)
Lemma key_quotes_validated_witness :
  InsightExtractor.extractInsights (Samples.parseTo Samples.quotesOutput)
    Samples.noCoercion Samples.promptText (Samples.replyWith "{}")
    Samples.withKey "" "notes" "Sync" "gpt-4o-mini" = Ok Samples.quotesResult /\
  In Samples.firstQuote (key_quotes (fst Samples.quotesResult)) /\
  lengthGt0 Samples.noCoercion (q_text Samples.firstQuote) = Ok true.
Proof.
  split; [reflexivity|]. split; [left; reflexivity|].
  refine (proj1 (proj1 (@key_quotes_validated
    (Samples.parseTo Samples.quotesOutput) Samples.noCoercion
    Samples.promptText (Samples.replyWith "{}")
    Samples.withKey "" "notes" "Sync" "gpt-4o-mini"
    (fst Samples.quotesResult) (snd Samples.quotesResult)
    eq_refl Samples.firstQuote _))).
  left; reflexivity.
Defined.

(** C4 as stated fails: without an API key (and no client built before)
    the call throws the configuration error to its caller. *)
Lemma extractInsights_throws_without_key :
  InsightExtractor.extractInsights (Samples.parseTo Samples.quotesOutput)
    Samples.noCoercion Samples.promptText (Samples.replyWith "{}")
    Samples.withoutKey "" "notes" "Sync" "gpt-4o-mini"
  = Throw (mkError "OPENAI_API_KEY environment variable is required").
Proof. reflexivity. Qed.

(** The amended C4 at a provider that fails with a connection error at
    every attempt: the third attempt exhausts the retries. *)
Lemma extractInsights_degrades_witness :
  (exists p', getOpenAI Samples.withKey = Ok p') /\
  exists r tr,
    InsightExtractor.extractInsights (Samples.parseTo Samples.quotesOutput)
      Samples.noCoercion Samples.promptText (Samples.failWith "Connection error.")
      Samples.withKey "" "notes" "Sync" "gpt-4o-mini" = Ok (r, tr) /\
    insights_summary r = JStr "notes" /\ themes r = [] /\ key_quotes r = [].
Proof.
  assert (Hp : exists p', getOpenAI Samples.withKey = Ok p')
    by (eexists; reflexivity).
  split; [exact Hp|].
  destruct (@extractInsights_degrades
              (Samples.parseTo Samples.quotesOutput) Samples.noCoercion
              Samples.promptText (Samples.failWith "Connection error.")
              Samples.withKey "" "notes" "Sync" "gpt-4o-mini" Hp)
    as (r & tr & Hrun & Hdeg).
  exists r, tr. split; [exact Hrun|].
  apply (Hdeg 3%nat).
  - unfold maxRetries; lia.
  - intros j Hj. eexists; split; reflexivity.
  - eexists; split; [reflexivity | right; reflexivity].
Defined.

(** C1 at a model output whose only theme is a known one with a single
    evidence item of empty text: the theme passes the check on the raw
    evidence list, the item is then filtered out, and the theme is
    returned with no evidence at all. *)
Theorem blank_evidence_theme_retained :
  exists r tr th,
    InsightExtractor.extractInsights (Samples.parseTo Samples.blankEvidenceOutput)
      Samples.noCoercion Samples.promptText (Samples.replyWith "{}")
      Samples.withKey "" "notes" "Sync" "gpt-4o-mini" = Ok (r, tr) /\
    themes r = [th] /\
    th_name th = Some (JStr "pricing") /\
    th_evidence th = [].
Proof. eexists _, _, _. repeat split. Qed.

End ExtractorFacts.

(* ================================================================== *)
(** * The embedding generator                                          *)
(* ================================================================== *)
Module EmbedderFacts.

Import Types(Vector).
Import Embedder JSFacts.

(** ** Sorting a response by index *)

Lemma insertByIndex_perm (x : EmbeddingItem) (l : list EmbeddingItem) :
  Permutation (insertByIndex x l) (x :: l).
Proof.
  induction l as [|y l IH]; simpl.
  - apply Permutation_refl.
  - destruct (index y - index x <=? 0)%Z.
    + rewrite IH. apply perm_swap.
    + apply Permutation_refl.
Qed.

Lemma insertByIndex_sorted (x : EmbeddingItem) (l : list EmbeddingItem) :
  StronglySorted indexLe l -> StronglySorted indexLe (insertByIndex x l).
Proof.
  induction 1 as [|y l Hs IH Hy]; simpl.
  - constructor; constructor.
  - destruct (Z.leb_spec (index y - index x) 0) as [Hle|Hgt].
    + constructor; [exact IH|].
      apply (Permutation_Forall (Permutation_sym (insertByIndex_perm x l))).
      constructor; [unfold indexLe; lia | exact Hy].
    + constructor; [constructor; assumption|].
      constructor; [unfold indexLe; lia|].
      eapply Forall_impl; [|exact Hy].
      unfold indexLe; intros z Hz; lia.
Qed.

Lemma insertion_fold (l acc : list EmbeddingItem) :
  StronglySorted indexLe acc ->
  StronglySorted indexLe (fold_left (fun sorted x => insertByIndex x sorted) l acc) /\
  Permutation (fold_left (fun sorted x => insertByIndex x sorted) l acc) (acc ++ l).
Proof.
  revert acc; induction l as [|x l IH]; intros acc Hacc; simpl.
  - split; [assumption | now rewrite app_nil_r].
  - destruct (IH (insertByIndex x acc) (insertByIndex_sorted x Hacc)) as [Hs Hp].
    split; [assumption|].
    rewrite Hp, insertByIndex_perm. apply Permutation_middle.
Qed.

(** [sortByIndex] sorts: its result is ordered by index and has the
    elements of its argument. *)
Lemma sortByIndex_sorts (l : list EmbeddingItem) :
  StronglySorted indexLe (sortByIndex l) /\ Permutation (sortByIndex l) l.
Proof.
  unfold sortByIndex. apply (insertion_fold l (acc := [])). constructor.
Qed.

(** A list ordered by index that is a permutation of a list strictly
    ordered by index is that list. *)
Lemma sorted_permutation_unique (l1 l2 : list EmbeddingItem) :
  StronglySorted indexLe l1 -> StronglySorted indexLt l2 ->
  Permutation l1 l2 -> l1 = l2.
Proof.
  revert l2; induction l1 as [|a l1 IH]; intros l2 H1 H2 Hp.
  - apply Permutation_nil in Hp. now subst.
  - destruct l2 as [|b l2].
    + apply Permutation_sym, Permutation_nil in Hp. discriminate.
    + inversion H1 as [|? ? Hs1 Ha]; subst.
      inversion H2 as [|? ? Hs2 Hb]; subst.
      assert (Hab : a = b).
      { assert (Hina : In a (b :: l2))
          by (apply (Permutation_in _ Hp); left; reflexivity).
        assert (Hinb : In b (a :: l1))
          by (apply (Permutation_in _ (Permutation_sym Hp)); left; reflexivity).
        destruct Hina as [->|Hina]; [reflexivity|].
        destruct Hinb as [->|Hinb]; [reflexivity|].
        rewrite Forall_forall in Ha, Hb.
        specialize (Ha _ Hinb). specialize (Hb _ Hina).
        unfold indexLe, indexLt in *. lia. }
      subst b. f_equal. apply IH; try assumption.
      now apply Permutation_cons_inv with (a := a).
Qed.

Lemma itemsFrom_lower (emb : string -> Vector) (i : Z) (batch : list string) :
  Forall (fun x => (i <= index x)%Z) (itemsFrom emb i batch).
Proof.
  revert i; induction batch as [|t batch IH]; intros i; simpl; constructor.
  - simpl; lia.
  - eapply Forall_impl; [|apply IH]. simpl; intros; lia.
Qed.

Lemma itemsFrom_sorted (emb : string -> Vector) (i : Z) (batch : list string) :
  StronglySorted indexLt (itemsFrom emb i batch).
Proof.
  revert i; induction batch as [|t batch IH]; intros i; simpl; constructor.
  - apply IH.
  - eapply Forall_impl; [|apply itemsFrom_lower].
    unfold indexLt; simpl; intros; lia.
Qed.

Lemma itemsFrom_embeddings (emb : string -> Vector) (i : Z) (batch : list string) :
  map embedding (itemsFrom emb i batch) = map emb batch.
Proof.
  revert i; induction batch as [|t batch IH]; intros i; simpl; [reflexivity|].
  now rewrite IH.
Qed.

(** Whatever order the provider returns the items of a batch in, sorting
    by index restores the order of the inputs. *)
Lemma sortByIndex_restores (emb : string -> Vector) (batch : list string)
  (returned : list EmbeddingItem) :
  Permutation returned (itemsFrom emb 0 batch) ->
  sortByIndex returned = itemsFrom emb 0 batch.
Proof.
  intros Hp. destruct (sortByIndex_sorts returned) as [Hs Hperm].
  apply sorted_permutation_unique; [assumption | apply itemsFrom_sorted|].
  now rewrite Hperm.
Qed.

Lemma sentRequests_app (l1 l2 : list Event) :
  sentRequests (l1 ++ l2) = (sentRequests l1 ++ sentRequests l2)%list.
Proof.
  induction l1 as [|[rq|ms|c t] l1 IH]; simpl; [reflexivity| |assumption|assumption].
  now rewrite IH.
Qed.


Section Generator.

Variable create : nat -> EmbeddingRequest -> result EmbeddingResponse.

(** ** [generateEmbedding] *)

(** Every request of the loop is the request it was started with, and
    there are no more of them than attempts left. *)
Lemma attemptLoop_requests (fuel : nat) (rq : EmbeddingRequest) (attempt : nat)
  (lastError : option Error) (log : list Event) :
  exists sentNow,
    sentRequests (snd (attemptLoop create fuel rq attempt lastError log)) =
      (sentRequests log ++ sentNow)%list /\
    (forall r, In r sentNow -> r = rq) /\
    (List.length sentNow <= S maxRetries - attempt)%nat.
Proof.
  revert attempt lastError log; induction fuel as [|fuel IH];
    intros attempt lastError log; cbn -[Nat.sub backoff].
  - exists []. rewrite app_nil_r. repeat split; [intros r []|cbn -[Nat.sub backoff]; lia].
  - destruct (Nat.leb_spec attempt maxRetries) as [Hle|Hgt].
    2:{ exists []. cbn -[Nat.sub backoff]. rewrite app_nil_r.
        repeat split; [intros r []|lia]. }
    destruct (attemptBody create rq attempt) as [v|e].
    + exists [rq]. cbn -[Nat.sub backoff]. rewrite sentRequests_app.
      repeat split; [intros r [<-|[]]; reflexivity|].
      cbn -[Nat.sub backoff]. unfold maxRetries in *; lia.
    + match goal with
      | |- context [if ?c then _ else _] => destruct c eqn:Hretry
      end.
      * destruct (IH (S attempt) (Some e)
                    (log ++ [Sent rq; Slept (backoff attempt)])%list)
          as (sentNow & Hs & Hall & Hlen).
        exists (rq :: sentNow). rewrite Hs, sentRequests_app.
        cbn -[Nat.sub backoff]. rewrite <- app_assoc. repeat split.
        -- intros r [<-|Hr]; [reflexivity | now apply Hall].
        -- unfold maxRetries in *. lia.
      * exists [rq]. cbn -[Nat.sub backoff]. rewrite sentRequests_app.
        repeat split; [intros r [<-|[]]; reflexivity|].
        cbn -[Nat.sub backoff]. unfold maxRetries in *; lia.
Qed.


(** An attempt that is made sends its request before anything else. *)
Lemma attemptLoop_first_request (fuel : nat) (rq : EmbeddingRequest)
  (attempt : nat) (lastError : option Error) (log : list Event) :
  (attempt <= maxRetries)%nat ->
  exists rest,
    sentRequests (snd (attemptLoop create (S fuel) rq attempt lastError log)) =
      (sentRequests log ++ rq :: rest)%list.
Proof.
  intros Hle. cbn -[Nat.sub backoff].
  destruct (Nat.leb_spec attempt maxRetries) as [_|Hgt]; [|lia].
  destruct (attemptBody create rq attempt) as [v|e].
  - exists []. cbn -[Nat.sub backoff]. now rewrite sentRequests_app.
  - match goal with
    | |- context [if ?c then _ else _] => destruct c
    end.
    + destruct (attemptLoop_requests fuel rq (S attempt) (Some e)
                  (log ++ [Sent rq; Slept (backoff attempt)])%list)
        as (sentNow & Hs & _ & _).
      exists sentNow. rewrite Hs, sentRequests_app.
      cbn -[Nat.sub backoff]. now rewrite <- app_assoc.
    + exists []. cbn -[Nat.sub backoff]. now rewrite sentRequests_app.
Qed.

(** C9.  [generateEmbedding] submits the first 8000 characters of its
    text and nothing else: with the client available it sends a request,
    the first request it sends carries that prefix, and so does every
    request it sends (the prefix has length [min 8000 |text|], and the
    request the given model), so a text and its prefix of 8000
    characters give the same requests and the same outcome; a long text
    is cut, not refused.  Without the client nothing is submitted. *)
Theorem generateEmbedding_truncates (p : Process) (text model : string) :
  Z.of_nat MAX_CHARS = 8000%Z /\
  (forall rq,
     In rq (sentRequests (snd (generateEmbedding create p text model))) ->
     rq = {| rq_model := model; rq_input := One (substring0 MAX_CHARS text) |}) /\
  String.length (substring0 MAX_CHARS text) = Nat.min MAX_CHARS (String.length text) /\
  (exists rest, text = substring0 MAX_CHARS text ++ rest) /\
  generateEmbedding create p text model =
    generateEmbedding create p (substring0 MAX_CHARS text) model /\
  ((exists p', getOpenAI p = Ok p') ->
   exists rest,
     sentRequests (snd (generateEmbedding create p text model)) =
       {| rq_model := model; rq_input := One (substring0 MAX_CHARS text) |} :: rest) /\
  (forall e, getOpenAI p = Throw e ->
     generateEmbedding create p text model = (Throw e, [])).
Proof.
  split; [reflexivity|]. split; [|split; [|split; [|split; [|split]]]].
  6:{ intros e He. unfold generateEmbedding. now rewrite He. }
  5:{ intros [p' Hp]. unfold generateEmbedding. rewrite Hp.
      destruct (@attemptLoop_first_request 2%nat
                  {| rq_model := model; rq_input := One (substring0 MAX_CHARS text) |}
                  1%nat None []) as [rest Hrest]; [unfold maxRetries; lia|].
      exists rest. exact Hrest. }
  - intros rq Hin. unfold generateEmbedding in Hin.
    destruct (getOpenAI p); [|destruct Hin].
    destruct (attemptLoop_requests maxRetries
                {| rq_model := model; rq_input := One (substring0 MAX_CHARS text) |}
                1 None []) as (sentNow & Hs & Hall & _).
    rewrite Hs in Hin. simpl in Hin. now apply Hall.
  - apply substring0_length.
  - apply substring0_prefix.
  - unfold generateEmbedding. now rewrite substring0_idempotent.
Qed.


(** ** [generateEmbeddings] *)

Lemma slice_then_rest {A} (i n : nat) (l : list A) :
  skipn i l = (slice i n l ++ skipn (i + n) l)%list.
Proof.
  unfold slice. rewrite (Nat.add_comm i n), <- skipn_skipn.
  symmetry. apply firstn_skipn.
Qed.

(** With a positive batch size and a provider that answers every batch
    with its items in some order, the loop started at [i] ends and appends
    the embeddings of the (truncated) texts from [i] on, in their order. *)
Lemma batchLoop_order (emb : string -> Vector) (texts : list string)
  (model : string) (batchSize : nat) :
  (0 < batchSize)%nat ->
  (forall n batch,
     exists response,
       create n {| rq_model := model; rq_input := Many batch |} = Ok response /\
       Permutation (data response) (itemsFrom emb 0 batch)) ->
  forall fuel i callNo results log,
    (List.length texts - i <= fuel)%nat ->
    exists log',
      batchLoop create fuel texts model batchSize i callNo results log =
        Some (Ok (results ++
                  map (fun t => emb (substring0 MAX_CHARS t)) (skipn i texts))%list,
              log').
Proof.
  intros Hpos Hprovider.
  assert (Hdone : forall fuel i callNo results log,
            (List.length texts <= i)%nat ->
            batchLoop create fuel texts model batchSize i callNo results log =
              Some (Ok (results ++
                        map (fun t => emb (substring0 MAX_CHARS t))
                            (skipn i texts))%list, log)).
  { intros fuel i callNo results log Hi.
    rewrite skipn_all2 by assumption. cbn [map]. rewrite app_nil_r.
    destruct fuel; cbn [batchLoop];
      (destruct (Nat.ltb_spec i (List.length texts)); [lia | reflexivity]). }
  induction fuel as [|fuel IH]; intros i callNo results log Hfuel.
  - exists log. apply Hdone. lia.
  - destruct (Nat.le_gt_cases (List.length texts) i) as [Hi|Hi].
    + exists log. now apply Hdone.
    + cbn [batchLoop].
      destruct (Nat.ltb_spec i (List.length texts)) as [_|]; [|lia].
      destruct (Hprovider callNo (map (substring0 MAX_CHARS) (slice i batchSize texts)))
        as (response & Hcreate & Hperm).
      rewrite Hcreate. cbv zeta.
      rewrite (sortByIndex_restores _ _ Hperm), itemsFrom_embeddings, map_map.
      match goal with
      | |- context [batchLoop create fuel texts model batchSize _ _ _ ?l] =>
          destruct (IH (i + batchSize)%nat (S callNo)
                      (results ++ map (fun t => emb (substring0 MAX_CHARS t))
                                      (slice i batchSize texts))%list l)
            as [log' Hrec]; [lia|]
      end.
      exists log'. rewrite Hrec. do 3 f_equal.
      rewrite <- app_assoc, <- map_app. do 2 f_equal.
      symmetry. apply slice_then_rest.
Qed.

(** C6.  With the client available, a positive batch size, and a
    provider that answers every batch with its items (each carrying the
    position of its input) in whatever order, [generateEmbeddings] returns
    the vectors in the order of the input texts: the i-th vector is the
    embedding of the i-th text (cut to 8000 characters). *)
Theorem generateEmbeddings_keeps_order (emb : string -> Vector) (p : Process)
  (texts : list string) (model : string) (batchSize : nat) :
  (exists p', getOpenAI p = Ok p') ->
  (0 < batchSize)%nat ->
  (forall n batch,
     exists response,
       create n {| rq_model := model; rq_input := Many batch |} = Ok response /\
       Permutation (data response) (itemsFrom emb 0 batch)) ->
  exists vectors log,
    generateEmbeddings create p texts model batchSize = Some (Ok vectors, log) /\
    vectors = map (fun t => emb (substring0 MAX_CHARS t)) texts /\
    forall i t, nth_error texts i = Some t ->
      nth_error vectors i = Some (emb (substring0 MAX_CHARS t)).
Proof.
  intros [p' Hp] Hpos Hprovider. unfold generateEmbeddings. rewrite Hp.
  destruct (@batchLoop_order emb texts model batchSize Hpos Hprovider
              (List.length texts) 0%nat 1%nat [] []) as [log Hrun]; [lia|].
  exists (map (fun t => emb (substring0 MAX_CHARS t)) texts), log.
  split; [exact Hrun|]. split; [reflexivity|].
  intros i t Ht.
  exact (map_nth_error (fun t => emb (substring0 MAX_CHARS t)) i texts Ht).
Qed.

End Generator.

(** C5 at a provider that fails with a connection error twice and then
    answers. *)
(** C9 at a text of 9000 characters, with the client available: a request
    is sent, and the first one carries the first 8000 characters. *)
Lemma generateEmbedding_truncates_witness :
  (exists p', getOpenAI Samples.embedderWithKey = Ok p') /\
  exists rest,
    sentRequests
      (snd (generateEmbedding Samples.reversing Samples.embedderWithKey
              Corpus.longText "text-embedding-3-small")) =
      {| rq_model := "text-embedding-3-small";
         rq_input := One (substring0 MAX_CHARS Corpus.longText) |} :: rest.
Proof.
  assert (Hp : exists p', getOpenAI Samples.embedderWithKey = Ok p')
    by (eexists; reflexivity).
  split; [exact Hp|].
  exact (proj1 (proj2 (proj2 (proj2 (proj2 (proj2
           (@generateEmbedding_truncates Samples.reversing Samples.embedderWithKey
              Corpus.longText "text-embedding-3-small")))))) Hp).
Defined.


(** C6 at a provider that reverses every batch, for three texts in
    batches of two. *)
Lemma generateEmbeddings_keeps_order_witness :
  (exists p', getOpenAI Samples.embedderWithKey = Ok p') /\
  (0 < 2)%nat /\
  exists vectors log,
    generateEmbeddings Samples.reversing Samples.embedderWithKey
      ["a"; "bb"; "ccc"] DEFAULT_MODEL 2 = Some (Ok vectors, log) /\
    vectors = map (fun t => Samples.lengthEmbedding (substring0 MAX_CHARS t))
                  ["a"; "bb"; "ccc"].
Proof.
  assert (Hp : exists p', getOpenAI Samples.embedderWithKey = Ok p')
    by (eexists; reflexivity).
  assert (Hpos : (0 < 2)%nat) by lia.
  split; [exact Hp|]. split; [exact Hpos|].
  destruct (@generateEmbeddings_keeps_order Samples.reversing
              Samples.lengthEmbedding Samples.embedderWithKey
              ["a"; "bb"; "ccc"] DEFAULT_MODEL 2 Hp Hpos)
    as (vectors & log & Hrun & Hv & _).
  - intros n batch. eexists. split; [reflexivity|].
    simpl. apply Permutation_sym, Permutation_rev.
  - exists vectors, log. split; assumption.
Defined.

End EmbedderFacts.

(* ================================================================== *)
(** * The vector store: scores and the folder filter                   *)
(* ================================================================== *)
Module VectorStoreFacts.

Import Types VectorStore JSFacts.

(** ** The similarity score *)

Lemma similarity_at_zero (d : Q) :
  (d == 0)%Q -> (similarity (Some d) == 1)%Q.
Proof.
  intros Hd. unfold similarity. rewrite Hd. reflexivity.
Qed.

Lemma similarity_bounds (d : Q) :
  (0 <= d)%Q -> (0 < similarity (Some d))%Q /\ (similarity (Some d) <= 1)%Q.
Proof.
  intros Hd. unfold similarity.
  assert (Hpos : (0 < 1 + d)%Q) by lra.
  split.
  - apply Qlt_shift_div_l; [assumption | lra].
  - apply Qle_shift_div_r; [assumption | lra].
Qed.

(** The score strictly decreases with the distance. *)
Lemma similarity_decreasing (d1 d2 : Q) :
  (0 <= d1)%Q -> (d1 < d2)%Q ->
  (similarity (Some d2) < similarity (Some d1))%Q.
Proof.
  intros H1 H12. unfold similarity, Qdiv. rewrite !Qmult_1_l.
  apply -> Qinv_lt_contravar; lra.
Qed.

Lemma In_firstn {A} (n : nat) (l : list A) (x : A) :
  In x (firstn n l) -> In x l.
Proof.
  revert l; induction n as [|n IH]; intros [|a l]; simpl; try tauto.
  intros [->|H]; [left; reflexivity | right; now apply IH].
Qed.

Lemma filter_length_le {A} (f : A -> bool) (l : list A) :
  (List.length (filter f l) <= List.length l)%nat.
Proof.
  induction l as [|a l IH]; simpl; [lia|].
  destruct (f a); simpl; lia.
Qed.

(** The folder predicate, for a filter that is present and not empty:
    some folder name contains the filter, both in lower case. *)
Lemma folderMatches_spec (fl : string) (folders : list string) :
  fl <> "" ->
  (folderMatches (Some fl) folders = true <->
   exists f pre post,
     In f folders /\ toLowerCase f = pre ++ toLowerCase fl ++ post).
Proof.
  intros Hne. unfold folderMatches.
  destruct (String.eqb fl "") eqn:E.
  { apply String.eqb_eq in E. contradiction. }
  rewrite existsb_exists. split.
  - intros [f [Hf Hinc]]. apply includes_spec in Hinc.
    destruct Hinc as [pre [post H]]. exists f, pre, post. auto.
  - intros (f & pre & post & Hf & H). exists f. split; [assumption|].
    apply includes_spec. eauto.
Qed.

Lemma square_nonneg (a : Q) : (0 <= a * a)%Q.
Proof. destruct a as [n d]. unfold Qle, Qmult. simpl. nia. Qed.

Lemma l2_nonneg (a b : Vector) : (0 <= l2 a b)%Q.
Proof.
  revert b; induction a as [|x a IH]; intros [|y b]; simpl; try lra.
  specialize (IH b). pose proof (square_nonneg (x - y)). lra.
Qed.

(** [l2Search] returns at most [limit] rows, each with its distance. *)
Lemma l2Search_limit (A : Type) (vec : A -> Vector) (table : list A)
  (q : Vector) (limit : nat) (hits : list (Hit A)) :
  l2Search vec table q limit = Ok hits -> (List.length hits <= limit)%nat.
Proof.
  unfold l2Search. intros H; injection H as <-.
  rewrite length_map. apply firstn_le_length.
Qed.

Lemma l2Search_distances (A : Type) (vec : A -> Vector) (table : list A)
  (q : Vector) (limit : nat) (hits : list (Hit A)) (h : Hit A) :
  l2Search vec table q limit = Ok hits -> In h hits ->
  exists d, _distance h = Some d /\ (0 <= d)%Q.
Proof.
  unfold l2Search. intros H; injection H as <-. rewrite in_map_iff.
  intros [r [<- _]]. simpl. eexists; split; [reflexivity | apply l2_nonneg].
Qed.

Section Search.

Variable vectorSearch :
  forall A : Type, (A -> Vector) -> list A -> Vector -> nat -> result (list (Hit A)).

(** Every document returned is a retrieved row that passes the filter. *)
Lemma searchDocuments_In (db : Database) (q : Vector) (limit : nat)
  (folder : option string) (r : DocumentResult) :
  In r (searchDocuments vectorSearch db q limit folder) ->
  exists table hits h,
    documents db = Some table /\
    vectorSearch row_vector table q limit = Ok hits /\
    In h hits /\
    folderMatches folder (row_folders (hit_row h)) = true /\
    r = toDocumentResult h.
Proof.
  unfold searchDocuments.
  destruct (documents db) as [table|] eqn:Ht; [|intros []].
  destruct (vectorSearch row_vector table q limit) as [hits|e] eqn:Hs; [|intros []].
  rewrite in_map_iff. intros [h [<- Hh]]. apply filter_In in Hh.
  destruct Hh as [Hin Hm]. exists table, hits, h. repeat split; auto.
Qed.

Lemma searchChunks_In (db : Database) (q : Vector) (limit : nat)
  (type : option ChunkType) (themeName : option string) (r : ChunkResult) :
  In r (searchChunks vectorSearch db q limit type themeName) ->
  exists table hits h,
    chunks db = Some table /\
    vectorSearch crow_vector table q (limit * 2) = Ok hits /\
    In h hits /\
    r = toChunkResult h.
Proof.
  unfold searchChunks.
  destruct (chunks db) as [table|] eqn:Ht; [|intros []].
  destruct (vectorSearch crow_vector table q (limit * 2)) as [hits|e] eqn:Hs;
    [|intros []].
  rewrite in_map_iff. intros [h [<- Hh]]. apply In_firstn, filter_In in Hh.
  destruct Hh as [Hin _]. exists table, hits, h. repeat split; auto.
Qed.

(** C3.  When the search gives every row it retrieves a distance [d >= 0]
    (numbers being exact rationals), every row returned by
    [searchDocuments] and by [searchChunks] has the score [1 / (1 + d)] of
    the distance of the retrieved row it comes from, and that score lies
    in (0, 1]; a distance of 0 scores 1; and of two distances [d1 < d2]
    the closer one scores higher (strictly, hence also higher or equal). *)
Theorem scores_from_distances (db : Database) (q : Vector) (limit : nat)
  (folder : option string) (type : option ChunkType) (themeName : option string) :
  (forall table n hits h,
     vectorSearch row_vector table q n = Ok hits -> In h hits ->
     exists d, _distance h = Some d /\ (0 <= d)%Q) ->
  (forall table n hits h,
     vectorSearch crow_vector table q n = Ok hits -> In h hits ->
     exists d, _distance h = Some d /\ (0 <= d)%Q) ->
  (forall r, In r (searchDocuments vectorSearch db q limit folder) ->
     exists table hits h d,
       documents db = Some table /\
       vectorSearch row_vector table q limit = Ok hits /\
       In h hits /\ res_id r = row_id (hit_row h) /\
       _distance h = Some d /\
       res_score r = (1 / (1 + d))%Q /\
       (0 < res_score r)%Q /\ (res_score r <= 1)%Q) /\
  (forall r, In r (searchChunks vectorSearch db q limit type themeName) ->
     exists table hits h d,
       chunks db = Some table /\
       vectorSearch crow_vector table q (limit * 2) = Ok hits /\
       In h hits /\ cres_id r = crow_id (hit_row h) /\
       _distance h = Some d /\
       cres_score r = (1 / (1 + d))%Q /\
       (0 < cres_score r)%Q /\ (cres_score r <= 1)%Q) /\
  similarity (Some 0%Q) = 1%Q /\
  (forall d, (d == 0)%Q -> (similarity (Some d) == 1)%Q) /\
  (forall d1 d2, (0 <= d1)%Q -> (d1 < d2)%Q ->
     (similarity (Some d2) < similarity (Some d1))%Q /\
     (similarity (Some d2) <= similarity (Some d1))%Q).
Proof.
  intros Hdocs Hchunks. repeat split.
  - intros r Hr. apply searchDocuments_In in Hr.
    destruct Hr as (table & hits & h & Ht & Hs & Hin & _ & ->).
    destruct (Hdocs _ _ _ _ Hs Hin) as [d [Hd Hpos]].
    exists table, hits, h, d. simpl. rewrite Hd.
    destruct (similarity_bounds Hpos). repeat split; assumption.
  - intros r Hr. apply searchChunks_In in Hr.
    destruct Hr as (table & hits & h & Ht & Hs & Hin & ->).
    destruct (Hchunks _ _ _ _ Hs Hin) as [d [Hd Hpos]].
    exists table, hits, h, d. simpl. rewrite Hd.
    destruct (similarity_bounds Hpos). repeat split; assumption.
  - apply similarity_at_zero.
  - now apply similarity_decreasing.
  - apply Qlt_le_weak. now apply similarity_decreasing.
Qed.

(** Filtering by folder happens on the rows retrieved: with a search that
    returns at most [limit] rows, and a filter that is present and not
    empty, at most [limit] documents are returned, each of them is one of
    the retrieved rows, and each has a folder name that contains the
    filter, both in lower case. *)
Lemma folder_filter_sound (db : Database) (q : Vector) (limit : nat)
  (fl : string) :
  (forall table n hits,
     vectorSearch row_vector table q n = Ok hits -> (List.length hits <= n)%nat) ->
  fl <> "" ->
  (List.length (searchDocuments vectorSearch db q limit (Some fl)) <= limit)%nat /\
  forall r, In r (searchDocuments vectorSearch db q limit (Some fl)) ->
    (exists table hits h,
       documents db = Some table /\
       vectorSearch row_vector table q limit = Ok hits /\
       In h hits /\ r = toDocumentResult h) /\
    exists f pre post,
      In f (res_folders r) /\ toLowerCase f = pre ++ toLowerCase fl ++ post.
Proof.
  intros Hlimit Hne. split.
  - unfold searchDocuments.
    destruct (documents db) as [table|]; [|simpl; lia].
    destruct (vectorSearch row_vector table q limit) as [hits|e] eqn:Hs;
      [|simpl; lia].
    rewrite length_map. specialize (Hlimit _ _ _ Hs).
    pose proof (filter_length_le
                  (fun h => folderMatches (Some fl) (row_folders (hit_row h))) hits).
    lia.
  - intros r Hr. apply searchDocuments_In in Hr.
    destruct Hr as (table & hits & h & Ht & Hs & Hin & Hm & ->). split.
    + exists table, hits, h. repeat split; assumption.
    + simpl. now apply folderMatches_spec.
Qed.

(** Every retrieved row with a folder name that contains the filter, both
    in lower case, is returned. *)
Lemma folder_filter_complete (db : Database) (q : Vector) (limit : nat)
  (fl : string) (table : list DocumentRow) (hits : list (Hit DocumentRow))
  (h : Hit DocumentRow) :
  fl <> "" ->
  documents db = Some table ->
  vectorSearch row_vector table q limit = Ok hits ->
  In h hits ->
  (exists f pre post,
     In f (row_folders (hit_row h)) /\
     toLowerCase f = pre ++ toLowerCase fl ++ post) ->
  In (toDocumentResult h) (searchDocuments vectorSearch db q limit (Some fl)).
Proof.
  intros Hne Ht Hs Hin Hm. unfold searchDocuments. rewrite Ht, Hs.
  apply in_map, filter_In. split; [exact Hin|]. now apply folderMatches_spec.
Qed.

(** Two filters that differ in case only select the same documents. *)
Lemma folder_filter_ignores_case (db : Database) (q : Vector) (limit : nat)
  (fl fl' : string) :
  fl <> "" -> fl' <> "" -> toLowerCase fl = toLowerCase fl' ->
  searchDocuments vectorSearch db q limit (Some fl) =
    searchDocuments vectorSearch db q limit (Some fl').
Proof.
  intros Hne Hne' Hsame. unfold searchDocuments, folderMatches.
  apply String.eqb_neq in Hne, Hne'. rewrite Hne, Hne', Hsame. reflexivity.
Qed.

End Search.

(** The example of the specification: of two documents in the folders
    "A team" and "B team", a search filtered by "a team" returns the first
    only. *)
Example folder_filter_example :
  map res_id (searchDocuments l2Search Samples.teamsDb [0%Q] 10 (Some "a team"))
  = ["doc-a"].
Proof. reflexivity. Qed.

(** Filtering after retrieval can return fewer than [limit] documents
    although [limit] documents of the table match: here the pool of 2
    holds one document of another folder, and a matching document stays
    outside it. *)
Lemma folder_filter_under_returns :
  exists db q limit fl table row,
    fl <> "" /\
    documents db = Some table /\
    (List.length (searchDocuments l2Search db q limit (Some fl)) < limit)%nat /\
    (limit <= List.length
                (filter (fun r => folderMatches (Some fl) (row_folders r)) table))%nat /\
    In row table /\
    folderMatches (Some fl) (row_folders row) = true /\
    ~ In (row_id row)
         (map res_id (searchDocuments l2Search db q limit (Some fl))).
Proof.
  exists Samples.crowdedDb, [0%Q], 2%nat, "a team",
    [Samples.documentRow "near" ["Other"] [0%Q];
     Samples.documentRow "mid" ["A team"] [1%Q];
     Samples.documentRow "far" ["A team"] [2%Q]],
    (Samples.documentRow "far" ["A team"] [2%Q]).
  split; [discriminate|]. split; [reflexivity|].
  split; [vm_compute; lia|]. split; [vm_compute; lia|].
  split; [right; right; left; reflexivity|]. split; [reflexivity|].
  vm_compute. intros [H|[]]. discriminate H.
Qed.

(** C7.  With a folder filter (present and not empty), [searchDocuments]
    filters the rows that the search retrieved: for every search that
    returns at most [limit] rows, at most [limit] documents are returned,
    each is one of the retrieved rows, and each has some folder name that
    contains the filter case-insensitively; fewer than [limit] can be
    returned while matching documents remain outside the pool; every
    retrieved row with a folder name that contains the filter, both in
    lower case, is returned; two filters that differ in case only return
    the same documents; so the filter "a team" returns the document of
    the folder "A team" and not the one of "B team", and a filter with a
    small accented letter finds the folder written in capitals. *)
Theorem folder_filter_after_retrieval :
  (forall (vectorSearch :
             forall A : Type,
               (A -> Vector) -> list A -> Vector -> nat -> result (list (Hit A)))
          (db : Database) (q : Vector) (limit : nat) (fl : string),
     (forall table n hits,
        vectorSearch DocumentRow row_vector table q n = Ok hits ->
        (List.length hits <= n)%nat) ->
     fl <> "" ->
     (List.length (searchDocuments vectorSearch db q limit (Some fl)) <= limit)%nat /\
     forall r, In r (searchDocuments vectorSearch db q limit (Some fl)) ->
       (exists table hits h,
          documents db = Some table /\
          vectorSearch DocumentRow row_vector table q limit = Ok hits /\
          In h hits /\ r = toDocumentResult h) /\
       exists f pre post,
         In f (res_folders r) /\ toLowerCase f = pre ++ toLowerCase fl ++ post) /\
  (exists db q limit fl table row,
     fl <> "" /\
     documents db = Some table /\
     (List.length (searchDocuments l2Search db q limit (Some fl)) < limit)%nat /\
     (limit <= List.length
                 (filter (fun r => folderMatches (Some fl) (row_folders r)) table))%nat /\
     In row table /\
     folderMatches (Some fl) (row_folders row) = true /\
     ~ In (row_id row)
          (map res_id (searchDocuments l2Search db q limit (Some fl)))) /\
  (forall (vectorSearch :
             forall A : Type,
               (A -> Vector) -> list A -> Vector -> nat -> result (list (Hit A)))
          (db : Database) (q : Vector) (limit : nat) (fl : string)
          (table : list DocumentRow) (hits : list (Hit DocumentRow))
          (h : Hit DocumentRow),
     fl <> "" ->
     documents db = Some table ->
     vectorSearch DocumentRow row_vector table q limit = Ok hits ->
     In h hits ->
     (exists f pre post,
        In f (row_folders (hit_row h)) /\
        toLowerCase f = pre ++ toLowerCase fl ++ post) ->
     In (toDocumentResult h) (searchDocuments vectorSearch db q limit (Some fl))) /\
  (forall (vectorSearch :
             forall A : Type,
               (A -> Vector) -> list A -> Vector -> nat -> result (list (Hit A)))
          (db : Database) (q : Vector) (limit : nat) (fl fl' : string),
     fl <> "" -> fl' <> "" -> toLowerCase fl = toLowerCase fl' ->
     searchDocuments vectorSearch db q limit (Some fl) =
       searchDocuments vectorSearch db q limit (Some fl')) /\
  map res_id (searchDocuments l2Search Samples.teamsDb [0%Q] 10 (Some "a team"))
    = ["doc-a"] /\
  map res_id
    (searchDocuments l2Search Corpus.accentedDb [0%Q] 10 (Some Corpus.smallEcole))
    = ["doc-e"].
Proof.
  split; [|split; [|split; [|split; [|split]]]].
  - intros vectorSearch db q limit fl Hlimit Hne.
    now apply folder_filter_sound.
  - exact folder_filter_under_returns.
  - intros vectorSearch db q limit fl table hits h.
    apply folder_filter_complete.
  - intros vectorSearch db q limit fl fl'.
    apply folder_filter_ignores_case.
  - reflexivity.
  - reflexivity.
Qed.

(** C7 at the two-team database, searched with [l2Search]: at most two
    documents, and the document of the folder "A team" among them. *)
Lemma folder_filter_after_retrieval_witness :
  (forall table n hits,
     l2Search row_vector table [0%Q] n = Ok hits -> (List.length hits <= n)%nat) /\
  "a team" <> "" /\
  (List.length (searchDocuments l2Search Samples.teamsDb [0%Q] 2 (Some "a team"))
     <= 2)%nat /\
  In (toDocumentResult Corpus.hitA)
     (searchDocuments l2Search Samples.teamsDb [0%Q] 2 (Some "a team")).
Proof.
  assert (Hlimit : forall table n hits,
            l2Search row_vector table [0%Q] n = Ok hits ->
            (List.length hits <= n)%nat)
    by (intros table n hits; apply l2Search_limit).
  assert (Hne : "a team" <> "") by discriminate.
  split; [exact Hlimit|]. split; [exact Hne|]. split.
  - exact (proj1 (proj1 folder_filter_after_retrieval l2Search Samples.teamsDb
                    [0%Q] 2%nat "a team" Hlimit Hne)).
  - refine (proj1 (proj2 (proj2 folder_filter_after_retrieval))
              l2Search Samples.teamsDb [0%Q] 2%nat "a team"
              [Samples.documentRow "doc-a" ["A team"] [0%Q];
               Samples.documentRow "doc-b" ["B team"] [1%Q]]
              [Corpus.hitA; Samples.hitB] Corpus.hitA
              Hne eq_refl eq_refl _ _).
    + left. reflexivity.
    + exists "A team", "", "". split; [left; reflexivity | reflexivity].
Defined.

(** C3 at the two-team database: the document at squared distance 1 from
    the query scores 1/2. *)
Lemma scores_from_distances_witness :
  (forall table n hits h,
     l2Search row_vector table [0%Q] n = Ok hits -> In h hits ->
     exists d, _distance h = Some d /\ (0 <= d)%Q) /\
  (forall table n hits h,
     l2Search crow_vector table [0%Q] n = Ok hits -> In h hits ->
     exists d, _distance h = Some d /\ (0 <= d)%Q) /\
  In (toDocumentResult Samples.hitB)
     (searchDocuments l2Search Samples.teamsDb [0%Q] 2 None) /\
  (0 < res_score (toDocumentResult Samples.hitB))%Q /\
  (res_score (toDocumentResult Samples.hitB) <= 1)%Q.
Proof.
  assert (Hd : forall table n hits h,
            l2Search row_vector table [0%Q] n = Ok hits -> In h hits ->
            exists d, _distance h = Some d /\ (0 <= d)%Q)
    by (intros table n hits h; apply l2Search_distances).
  assert (Hc : forall table n hits h,
            l2Search crow_vector table [0%Q] n = Ok hits -> In h hits ->
            exists d, _distance h = Some d /\ (0 <= d)%Q)
    by (intros table n hits h; apply l2Search_distances).
  assert (Hin : In (toDocumentResult Samples.hitB)
                   (searchDocuments l2Search Samples.teamsDb [0%Q] 2 None))
    by (right; left; reflexivity).
  split; [exact Hd|]. split; [exact Hc|]. split; [exact Hin|].
  destruct (proj1 (@scores_from_distances l2Search Samples.teamsDb [0%Q] 2%nat
                     None None None Hd Hc) _ Hin)
    as (table & hits & h & d & _ & _ & _ & _ & _ & _ & Hpos & Hle).
  split; assumption.
Defined.

End VectorStoreFacts.


(* ================================================================== *)
(** * The indexing commands: chunks and documents                      *)
(* ================================================================== *)
Module OrchestratorFacts.

Import Types Orchestrator.

(** What a step leaves of the accumulators: documents and chunks are only
    appended. *)
Lemma andThen_cases {W A B} (c : M W A) (k : A -> M W B) (st st' : Run W)
  (r : result B) :
  andThen c k st = (r, st') ->
  (exists a st1, c st = (Ok a, st1) /\ k a st1 = (r, st')) \/
  (exists e, c st = (Throw e, st') /\ r = Throw e).
Proof.
  unfold andThen. destruct (c st) as [[a|e] st1]; intros H.
  - left. exists a, st1. auto.
  - right. injection H as <- <-. exists e. auto.
Qed.

Lemma call_accumulators {W A} (f : W -> result A * W) (st st' : Run W)
  (r : result A) :
  call f st = (r, st') ->
  indexedDocs st' = indexedDocs st /\ allChunks st' = allChunks st /\
  processed st' = processed st.
Proof.
  unfold call. destruct (f (world st)) as [r' w']. intros H.
  injection H as <- <-. auto.
Qed.

Lemma built_length {A} (mk : nat -> A -> Vector -> ChunkRecord) (from : nat) (l : list A) (vs : list Vector) :
  (List.length vs <= List.length l)%nat ->
  List.length (built mk from l vs) = List.length vs.
Proof.
  revert from vs; induction l as [|a l IH]; intros from [|v vs]; simpl;
    intros H; try lia.
  f_equal. apply IH. lia.
Qed.

Lemma built_In {A} (mk : nat -> A -> Vector -> ChunkRecord) (from : nat) (l : list A) (vs : list Vector) (c : ChunkRecord) :
  In c (built mk from l vs) -> exists i a v, In a l /\ c = mk i a v.
Proof.
  revert from vs; induction l as [|a l IH]; intros from [|v vs]; simpl;
    try tauto.
  intros [<-|H].
  - exists from, a, v. auto.
  - destruct (IH _ _ H) as (i & a' & v' & Ha & Hc).
    exists i, a', v'. auto.
Qed.

Lemma built_map {A B} (mk : nat -> A -> Vector -> ChunkRecord)
  (g : ChunkRecord -> B) (h : nat -> A -> B) (from : nat) (l : list A) (vs : list Vector) :
  (forall i a v, g (mk i a v) = h i a) ->
  List.length vs = List.length l ->
  map g (built mk from l vs) = map (fun p => h (fst p) (snd p))
                                (combine (seq from (List.length l)) l).
Proof.
  intros Hg. revert from vs; induction l as [|a l IH]; intros from [|v vs];
    simpl; intros Hlen; try discriminate; [reflexivity|].
  rewrite Hg. f_equal. apply IH. lia.
Qed.

Section Emit.

Variable W : Type.
Variable A : Type.

(** The callee of the embedding call and the chunk built from its vector,
    for the element [a] at position [i]. *)
Variable embed : nat -> A -> W -> result Vector * W.
Variable mk : nat -> A -> Vector -> ChunkRecord.

(** A loop whose body embeds and pushes one chunk per element appends the
    chunks built from a prefix of the list, the whole list if it
    completes, and leaves the documents alone. *)
Lemma forEachFrom_emits (l : list A) (from : nat) (st st' : Run W)
  (r : result unit) :
  forEachFrom from l
    (fun i a => andThen (call (embed i a)) (fun v => pushChunk (mk i a v))) st
    = (r, st') ->
  indexedDocs st' = indexedDocs st /\
  processed st' = processed st /\
  exists vs,
    (List.length vs <= List.length l)%nat /\
    allChunks st' = (allChunks st ++ built mk from l vs)%list /\
    (r = Ok tt -> List.length vs = List.length l).
Proof.
  revert from st; induction l as [|a l IH]; intros from st; simpl.
  - unfold ret. intros H; injection H as <- <-.
    repeat split. exists []. simpl. rewrite app_nil_r. auto.
  - intros H. apply andThen_cases in H.
    destruct H as [(u & st1 & Hbody & Hrest) | (e & Hbody & ->)].
    + apply andThen_cases in Hbody.
      destruct Hbody as [(v & st0 & Hcall & Hpush) | (e & Hcall & Habs)];
        [|discriminate].
      apply call_accumulators in Hcall. destruct Hcall as (Hd0 & Hc0 & Hp0).
      unfold pushChunk in Hpush. injection Hpush as _ <-.
      apply IH in Hrest. simpl in Hrest.
      destruct Hrest as (Hd & Hp & vs & Hlen & Hc & Hok).
      split; [congruence|]. split; [congruence|].
      exists (v :: vs). simpl. split; [lia|]. split.
      * rewrite Hc, Hc0, <- app_assoc. reflexivity.
      * intros Hr. f_equal. now apply Hok.
    + apply andThen_cases in Hbody.
      destruct Hbody as [(v & st0 & Hcall & Hpush) | (e' & Hcall & _)].
      * unfold pushChunk in Hpush. discriminate.
      * apply call_accumulators in Hcall. destruct Hcall as (Hd0 & Hc0 & Hp0).
        split; [assumption|]. split; [assumption|].
        exists []. simpl. rewrite app_nil_r.
        split; [lia|]. split; [assumption | discriminate].
Qed.

End Emit.

Lemma forEach_from {W A} (l : list A) (body : A -> M W unit) (from : nat)
  (st : Run W) :
  forEach l body st = forEachFrom from l (fun _ => body) st.
Proof.
  revert from st; induction l as [|a l IH]; intros from st; simpl;
    [reflexivity|].
  unfold andThen. destruct (body a st) as [[u|e] st1]; [apply IH | reflexivity].
Qed.

Lemma built_length_le {A} (mk : nat -> A -> Vector -> ChunkRecord) (from : nat)
  (l : list A) (vs : list Vector) :
  (List.length (built mk from l vs) <= List.length l)%nat.
Proof.
  revert from vs; induction l as [|a l IH]; intros from [|v vs]; simpl; try lia.
  specialize (IH (S from) vs). lia.
Qed.

(** Splits a hypothesis about [c ;; k] into the run of [c] and the rest. *)
Ltac step H a st Hc :=
  apply andThen_cases in H;
  destruct H as [(a & st & Hc & H) | (?e & Hc & ->)].

Section Commands.

Variable W : Type.
Variable extractInsights :
  string -> string -> string -> string -> W -> result ExtractedInsights * W.
Variable generateEmbedding : string -> W -> result Vector * W.

Lemma loadInsights_accumulators (options : Options) (dir : DocDir)
  (title : string) (st st' : Run W) (r : result ExtractedInsights) :
  loadInsights extractInsights options dir title st = (r, st') ->
  indexedDocs st' = indexedDocs st /\ allChunks st' = allChunks st.
Proof.
  unfold loadInsights.
  destruct (negb (skipExtraction options) &&
            (nonEmpty (transcript dir) || nonEmpty (notes dir))).
  - intros H. apply call_accumulators in H. tauto.
  - unfold ret. intros H; injection H as _ <-. auto.
Qed.

(** With extraction skipped the insight set is the default one: the first
    500 characters of the notes, no themes, no key quotes. *)
Lemma loadInsights_skipped (options : Options) (dir : DocDir) (title : string)
  (st : Run W) :
  skipExtraction options = true ->
  loadInsights extractInsights options dir title st =
    (Ok {| insights_summary :=
             orString (substring0 500 (notes dir)) "No summary available";
           themes := [];
           key_quotes := [] |}, st).
Proof. unfold loadInsights. intros ->. reflexivity. Qed.

(** The run of the [index] loop body on a directory with a document:
    either it stops before the document is pushed and leaves the
    accumulators as they were, or it pushes the document, the summary
    chunk, and then theme chunks and quote chunks for the themes and
    quotes it got to (all of them if it completes). *)
Lemma indexDocument_run (options : Options) (dir : DocDir) (d : GranolaDocument)
  (st st' : Run W) (r : result unit) :
  docJson dir = Some d ->
  indexDocument extractInsights generateEmbedding options dir st = (r, st') ->
  (r <> Ok tt /\ indexedDocs st' = indexedDocs st /\ allChunks st' = allChunks st) \/
  exists insights st0 v vsT vsQ,
    loadInsights extractInsights options dir (orString (g_title d) (dir_name dir)) st
      = (Ok insights, st0) /\
    indexedDocs st' =
      (indexedDocs st ++ [(makeIndexedDocument dir d insights, v)])%list /\
    allChunks st' =
      (allChunks st ++
       summaryChunk d insights v ::
       built (fun _ => themeChunk d) 0 (themes insights) vsT ++
       built (indexQuoteChunk d) 0 (key_quotes insights) vsQ)%list /\
    (r = Ok tt ->
     List.length vsT = List.length (themes insights) /\
     List.length vsQ = List.length (key_quotes insights)).
Proof.
  intros Hd H. unfold indexDocument in H. rewrite Hd in H.
  step H insights st0 Hload.
  2:{ left. apply loadInsights_accumulators in Hload.
      split; [discriminate | exact Hload]. }
  pose proof (loadInsights_accumulators _ _ _ _ Hload) as [Hd0 Hc0].
  step H v st1 Hsum.
  2:{ left. apply call_accumulators in Hsum.
      split; [discriminate|]. split; [now rewrite (proj1 Hsum)|].
      now rewrite (proj1 (proj2 Hsum)). }
  apply call_accumulators in Hsum. destruct Hsum as (Hd1 & Hc1 & _).
  right. exists insights, st0, v.
  step H u2 st2 Hpd; [|discriminate Hpd].
  unfold pushDoc in Hpd. injection Hpd as _ <-.
  step H u3 st3 Hpc; [|discriminate Hpc].
  unfold pushChunk in Hpc. injection Hpc as _ <-.
  step H u4 st4 Hthemes; rewrite forEach_from with (from := 0%nat) in Hthemes.
  - apply forEachFrom_emits
      with (embed := fun _ t => generateEmbedding (themeText t))
           (mk := fun _ => themeChunk d) in Hthemes.
    destruct Hthemes as (Hd4 & _ & vsT & HlenT & Hc4 & HokT). simpl in Hd4, Hc4.
    step H u5 st5 Hquotes.
    + apply forEachFrom_emits
        with (embed := fun _ q => generateEmbedding (quoteText q))
             (mk := indexQuoteChunk d) in Hquotes.
      destruct Hquotes as (Hd5 & _ & vsQ & HlenQ & Hc5 & HokQ).
      unfold countProcessed in H. injection H as <- <-. simpl.
      exists vsT, vsQ. split; [assumption|].
      split; [rewrite Hd5, Hd4, Hd1, Hd0; reflexivity|].
      split; [|intros _; destruct u4, u5; split; [apply HokT | apply HokQ];
                 reflexivity].
      rewrite Hc5, Hc4, Hc1, Hc0, <- !app_assoc. reflexivity.
    + apply forEachFrom_emits
        with (embed := fun _ q => generateEmbedding (quoteText q))
             (mk := indexQuoteChunk d) in Hquotes.
      destruct Hquotes as (Hd5 & _ & vsQ & HlenQ & Hc5 & HokQ).
      exists vsT, vsQ. split; [assumption|].
      split; [rewrite Hd5, Hd4, Hd1, Hd0; reflexivity|].
      split; [|discriminate].
      rewrite Hc5, Hc4, Hc1, Hc0, <- !app_assoc. reflexivity.
  - apply forEachFrom_emits
      with (embed := fun _ t => generateEmbedding (themeText t))
           (mk := fun _ => themeChunk d) in Hthemes.
    destruct Hthemes as (Hd4 & _ & vsT & HlenT & Hc4 & HokT). simpl in Hd4, Hc4.
    exists vsT, []. split; [assumption|].
    split; [rewrite Hd4, Hd1, Hd0; reflexivity|].
    split; [|discriminate].
    rewrite Hc4, Hc1, Hc0, <- !app_assoc. simpl.
    destruct (key_quotes insights); simpl; now rewrite app_nil_r.
Qed.

(** The run of the [sync] loop body: as for [index], without a summary
    chunk. *)
Lemma syncDocument_run (options : Options) (dir : DocDir) (d : GranolaDocument)
  (st st' : Run W) (r : result unit) :
  docJson dir = Some d ->
  syncDocument extractInsights generateEmbedding options dir st = (r, st') ->
  (r <> Ok tt /\ indexedDocs st' = indexedDocs st /\ allChunks st' = allChunks st) \/
  exists insights st0 v vsT vsQ,
    loadInsights extractInsights options dir (orString (g_title d) (dir_name dir)) st
      = (Ok insights, st0) /\
    indexedDocs st' =
      (indexedDocs st ++ [(makeIndexedDocument dir d insights, v)])%list /\
    allChunks st' =
      (allChunks st ++
       built (fun _ => themeChunk d) 0 (themes insights) vsT ++
       built (syncQuoteChunk d) 0 (key_quotes insights) vsQ)%list /\
    (r = Ok tt ->
     List.length vsT = List.length (themes insights) /\
     List.length vsQ = List.length (key_quotes insights)).
Proof.
  intros Hd H. unfold syncDocument in H. rewrite Hd in H.
  step H insights st0 Hload.
  2:{ left. apply loadInsights_accumulators in Hload.
      split; [discriminate | exact Hload]. }
  pose proof (loadInsights_accumulators _ _ _ _ Hload) as [Hd0 Hc0].
  step H v st1 Hsum.
  2:{ left. apply call_accumulators in Hsum.
      split; [discriminate|]. split; [now rewrite (proj1 Hsum)|].
      now rewrite (proj1 (proj2 Hsum)). }
  apply call_accumulators in Hsum. destruct Hsum as (Hd1 & Hc1 & _).
  right. exists insights, st0, v.
  step H u2 st2 Hpd; [|discriminate Hpd].
  unfold pushDoc in Hpd. injection Hpd as _ <-.
  step H u4 st4 Hthemes; rewrite forEach_from with (from := 0%nat) in Hthemes.
  - apply forEachFrom_emits
      with (embed := fun _ t => generateEmbedding (themeText t))
           (mk := fun _ => themeChunk d) in Hthemes.
    destruct Hthemes as (Hd4 & _ & vsT & HlenT & Hc4 & HokT). simpl in Hd4, Hc4.
    step H u5 st5 Hquotes.
    + apply forEachFrom_emits
        with (embed := fun _ q => generateEmbedding (quoteText q))
             (mk := syncQuoteChunk d) in Hquotes.
      destruct Hquotes as (Hd5 & _ & vsQ & HlenQ & Hc5 & HokQ).
      unfold countProcessed in H. injection H as <- <-. simpl.
      exists vsT, vsQ. split; [assumption|].
      split; [rewrite Hd5, Hd4, Hd1, Hd0; reflexivity|].
      split; [|intros _; destruct u4, u5; split; [apply HokT | apply HokQ];
                 reflexivity].
      rewrite Hc5, Hc4, Hc1, Hc0, <- ?app_assoc. reflexivity.
    + apply forEachFrom_emits
        with (embed := fun _ q => generateEmbedding (quoteText q))
             (mk := syncQuoteChunk d) in Hquotes.
      destruct Hquotes as (Hd5 & _ & vsQ & HlenQ & Hc5 & HokQ).
      exists vsT, vsQ. split; [assumption|].
      split; [rewrite Hd5, Hd4, Hd1, Hd0; reflexivity|].
      split; [|discriminate].
      rewrite Hc5, Hc4, Hc1, Hc0, <- ?app_assoc. reflexivity.
  - apply forEachFrom_emits
      with (embed := fun _ t => generateEmbedding (themeText t))
           (mk := fun _ => themeChunk d) in Hthemes.
    destruct Hthemes as (Hd4 & _ & vsT & HlenT & Hc4 & HokT). simpl in Hd4, Hc4.
    exists vsT, []. split; [assumption|].
    split; [rewrite Hd4, Hd1, Hd0; reflexivity|].
    split; [|discriminate].
    rewrite Hc4, Hc1, Hc0, <- ?app_assoc.
    destruct (key_quotes insights); simpl; now rewrite app_nil_r.
Qed.

(** ** Chunks refer to documents of the same run *)

Lemma forEach_preserves {A} (body : A -> M W unit) (P : Run W -> Prop) :
  (forall a st r st', P st -> body a st = (r, st') -> P st') ->
  forall l st r st', P st -> forEach l body st = (r, st') -> P st'.
Proof.
  intros Hbody. induction l as [|a l IH]; intros st r st' HP H; simpl in H.
  - unfold ret in H. injection H as _ <-. assumption.
  - apply andThen_cases in H.
    destruct H as [(u & st1 & Hc & H) | (e & Hc & _)].
    + eapply IH; [|exact H]. eapply Hbody; eassumption.
    + eapply Hbody; eassumption.
Qed.

Lemma built_document_id {A} (mk : nat -> A -> Vector -> ChunkRecord)
  (docId : string) (from : nat) (l : list A) (vs : list Vector) (c : ChunkRecord) :
  (forall i a v, chunk_document_id (mk i a v) = docId) ->
  In c (built mk from l vs) -> chunk_document_id c = docId.
Proof.
  intros Hmk Hc. apply built_In in Hc. destruct Hc as (i & a & v & _ & ->).
  apply Hmk.
Qed.

(** Appending a document and chunks that carry its id keeps every chunk
    referring to a document. *)
Lemma refer_after_document (st st' : Run W) (doc : IndexedDocument * Vector)
  (new : list ChunkRecord) :
  chunksReferToDocs st ->
  indexedDocs st' = (indexedDocs st ++ [doc])%list ->
  allChunks st' = (allChunks st ++ new)%list ->
  (forall c, In c new -> chunk_document_id c = doc_id (fst doc)) ->
  chunksReferToDocs st'.
Proof.
  intros Hinv Hd Hc Hnew c Hin. rewrite Hd, map_app, in_app_iff.
  rewrite Hc, in_app_iff in Hin. destruct Hin as [Hin|Hin].
  - left. now apply Hinv.
  - right. left. symmetry. now apply Hnew.
Qed.

Lemma indexDocument_refers (options : Options) (dir : DocDir)
  (st st' : Run W) (r : result unit) :
  chunksReferToDocs st ->
  indexDocument extractInsights generateEmbedding options dir st = (r, st') ->
  chunksReferToDocs st'.
Proof.
  intros Hinv H. destruct (docJson dir) as [d|] eqn:Hd.
  - destruct (indexDocument_run _ _ _ Hd H)
      as [(_ & Hdocs & Hchunks) | (insights & st0 & v & vsT & vsQ & _ & Hdocs & Hchunks & _)].
    + intros c Hc. rewrite Hdocs. rewrite Hchunks in Hc. now apply Hinv.
    + eapply refer_after_document; [exact Hinv | exact Hdocs | exact Hchunks|].
      simpl. intros c [<-|Hc]; [reflexivity|].
      apply in_app_iff in Hc.
      destruct Hc as [Hc|Hc];
        (eapply built_document_id; [|exact Hc]; reflexivity).
  - unfold indexDocument in H. rewrite Hd in H. unfold ret in H.
    injection H as _ <-. assumption.
Qed.

Lemma syncDocument_refers (options : Options) (dir : DocDir)
  (st st' : Run W) (r : result unit) :
  chunksReferToDocs st ->
  syncDocument extractInsights generateEmbedding options dir st = (r, st') ->
  chunksReferToDocs st'.
Proof.
  intros Hinv H. destruct (docJson dir) as [d|] eqn:Hd.
  - destruct (syncDocument_run _ _ _ Hd H)
      as [(_ & Hdocs & Hchunks) | (insights & st0 & v & vsT & vsQ & _ & Hdocs & Hchunks & _)].
    + intros c Hc. rewrite Hdocs. rewrite Hchunks in Hc. now apply Hinv.
    + eapply refer_after_document; [exact Hinv | exact Hdocs | exact Hchunks|].
      simpl. intros c Hc. apply in_app_iff in Hc.
      destruct Hc as [Hc|Hc];
        (eapply built_document_id; [|exact Hc]; reflexivity).
  - unfold syncDocument in H. rewrite Hd in H. unfold ret in H.
    injection H as _ <-. assumption.
Qed.

(** What the two bulk writes leave in the database. *)
Lemma stored_rows_refer (db : VectorStore.Database) (st : Run W) :
  chunksReferToDocs st ->
  rowsReferToRows
    (VectorStore.storeChunks
       (VectorStore.storeDocuments (VectorStore.initializeTables db) (indexedDocs st))
       (allChunks st)).
Proof.
  intros Hinv. unfold rowsReferToRows. simpl.
  eexists _, _. split; [reflexivity|]. split; [reflexivity|].
  intros c Hc. apply in_map_iff in Hc. destruct Hc as [c0 [<- Hc0]]. simpl.
  rewrite map_map. simpl. now apply Hinv.
Qed.

(** C10.  In every run of the [index] and of the [sync] loop, however it
    ends, every accumulated chunk has the id of an accumulated document as
    its [document_id]; so when a command completes, every chunk row it
    stored refers to a document row it stored, and when it does not, it
    stored nothing (the database is as it was, or, for [sync], with its
    tables dropped). *)
Theorem chunks_refer_to_documents (options : Options) (dirs : list DocDir)
  (w : W) (keyPresent : bool) (db : VectorStore.Database) :
  chunksReferToDocs
    (snd (indexLoop extractInsights generateEmbedding options dirs w)) /\
  chunksReferToDocs
    (snd (syncLoop extractInsights generateEmbedding options dirs w)) /\
  match reported (indexCommand extractInsights generateEmbedding
                    keyPresent options dirs db w) with
  | Ok _ =>
      rowsReferToRows
        (database (indexCommand extractInsights generateEmbedding
                     keyPresent options dirs db w))
  | Throw _ =>
      database (indexCommand extractInsights generateEmbedding
                  keyPresent options dirs db w) = db
  end /\
  match reported (syncCommand extractInsights generateEmbedding
                    keyPresent options dirs db w) with
  | Ok _ =>
      rowsReferToRows
        (database (syncCommand extractInsights generateEmbedding
                     keyPresent options dirs db w))
  | Throw _ =>
      database (syncCommand extractInsights generateEmbedding
                  keyPresent options dirs db w) = db \/
      database (syncCommand extractInsights generateEmbedding
                  keyPresent options dirs db w) = VectorStore.initializeTables db
  end.
Proof.
  assert (Hstart : chunksReferToDocs (start w)) by (intros c []).
  assert (Hi : chunksReferToDocs
                 (snd (indexLoop extractInsights generateEmbedding options dirs w))).
  { unfold indexLoop.
    destruct (forEach dirs (indexDocument extractInsights generateEmbedding options)
                (start w)) as [r st] eqn:Hrun.
    simpl. eapply forEach_preserves; [|exact Hstart | exact Hrun].
    intros a st0 r0 st1. apply indexDocument_refers. }
  assert (Hs : chunksReferToDocs
                 (snd (syncLoop extractInsights generateEmbedding options dirs w))).
  { unfold syncLoop.
    destruct (forEach dirs (syncDocument extractInsights generateEmbedding options)
                (start w)) as [r st] eqn:Hrun.
    simpl. eapply forEach_preserves; [|exact Hstart | exact Hrun].
    intros a st0 r0 st1. apply syncDocument_refers. }
  split; [exact Hi|]. split; [exact Hs|]. split.
  - unfold indexCommand. destruct keyPresent; simpl; [|reflexivity].
    destruct (indexLoop extractInsights generateEmbedding options dirs w)
      as [[u|e] st]; simpl in *; [now apply stored_rows_refer | reflexivity].
  - unfold syncCommand. destruct keyPresent; simpl; [|left; reflexivity].
    destruct (syncLoop extractInsights generateEmbedding options dirs w)
      as [[u|e] st]; simpl in *; [now apply stored_rows_refer | right; reflexivity].
Qed.

(** ** The chunks of one document *)

Lemma map_combine_snd {A B} (f : A -> B) (from : nat) (l : list A) :
  map (fun p => f (snd p)) (combine (seq from (List.length l)) l) = map f l.
Proof.
  revert from; induction l as [|a l IH]; intros from; simpl; [reflexivity|].
  now rewrite IH.
Qed.

Lemma map_combine_fst {A B} (f : nat -> B) (from : nat) (l : list A) :
  map (fun p => f (fst p)) (combine (seq from (List.length l)) l) =
  map f (seq from (List.length l)).
Proof.
  revert from; induction l as [|a l IH]; intros from; simpl; [reflexivity|].
  now rewrite IH.
Qed.

(** A completed run of the [index] loop body on a directory with a
    document emits exactly the summary chunk, then one chunk per theme,
    then one chunk per key quote of the insights it loaded; their ids are
    the document id with the kind and the theme name or the position of
    the quote; all refer to the document. *)
Lemma indexDocument_emits (options : Options) (dir : DocDir) (d : GranolaDocument)
  (st st' : Run W) :
  docJson dir = Some d ->
  indexDocument extractInsights generateEmbedding options dir st = (Ok tt, st') ->
  exists insights st0 new,
    loadInsights extractInsights options dir (orString (g_title d) (dir_name dir)) st
      = (Ok insights, st0) /\
    allChunks st' = (allChunks st ++ new)%list /\
    List.length new =
      (1 + List.length (themes insights) + List.length (key_quotes insights))%nat /\
    map chunk_id new =
      (summaryChunkId (g_id d) ::
       themeChunkIds (g_id d) insights ++ quoteChunkIds (g_id d) insights)%list /\
    map chunk_type new =
      (summary ::
       map (fun _ => theme) (themes insights) ++
       map (fun _ => quote) (key_quotes insights))%list /\
    forall c, In c new -> chunk_document_id c = g_id d.
Proof.
  intros Hd H.
  destruct (indexDocument_run _ _ _ Hd H)
    as [(Habs & _) | (insights & st0 & v & vsT & vsQ & Hload & _ & Hchunks & Hok)];
    [now elim Habs|].
  destruct (Hok eq_refl) as [HlT HlQ].
  exists insights, st0. eexists. split; [exact Hload|]. split; [exact Hchunks|].
  split; [|split; [|split]].
  - simpl. rewrite length_app, !built_length by lia. lia.
  - simpl. rewrite map_app. f_equal. f_equal.
    + rewrite built_map with (h := fun _ t => themeChunkId (g_id d) (th_name t))
        by (reflexivity || assumption).
      apply (map_combine_snd (fun t => themeChunkId (g_id d) (th_name t))).
    + rewrite built_map with (h := fun i _ => quoteChunkId (g_id d) i)
        by (reflexivity || assumption).
      unfold quoteChunkIds.
      apply (map_combine_fst (quoteChunkId (g_id d)) 0 (key_quotes insights)).
  - simpl. rewrite map_app. f_equal. f_equal.
    + rewrite built_map with (h := fun _ (_ : Theme) => theme)
        by (reflexivity || assumption).
      apply (map_combine_snd (fun _ => theme)).
    + rewrite built_map with (h := fun _ (_ : Quote) => quote)
        by (reflexivity || assumption).
      apply (map_combine_snd (fun _ => quote)).
  - simpl. intros c [<-|Hc]; [reflexivity|].
    apply in_app_iff in Hc.
    destruct Hc as [Hc|Hc];
      (eapply built_document_id; [|exact Hc]; reflexivity).
Qed.

(** A completed run of the [sync] loop body emits one chunk per theme and
    one chunk per key quote, and no summary chunk. *)
Lemma syncDocument_emits (options : Options) (dir : DocDir) (d : GranolaDocument)
  (st st' : Run W) :
  docJson dir = Some d ->
  syncDocument extractInsights generateEmbedding options dir st = (Ok tt, st') ->
  exists insights st0 new,
    loadInsights extractInsights options dir (orString (g_title d) (dir_name dir)) st
      = (Ok insights, st0) /\
    allChunks st' = (allChunks st ++ new)%list /\
    List.length new =
      (List.length (themes insights) + List.length (key_quotes insights))%nat /\
    map chunk_type new =
      (map (fun _ => theme) (themes insights) ++
       map (fun _ => quote) (key_quotes insights))%list /\
    forall c, In c new -> chunk_type c <> summary.
Proof.
  intros Hd H.
  destruct (syncDocument_run _ _ _ Hd H)
    as [(Habs & _) | (insights & st0 & v & vsT & vsQ & Hload & _ & Hchunks & Hok)];
    [now elim Habs|].
  destruct (Hok eq_refl) as [HlT HlQ].
  exists insights, st0. eexists. split; [exact Hload|]. split; [exact Hchunks|].
  split; [|split].
  - rewrite length_app, !built_length by lia. lia.
  - rewrite map_app. f_equal.
    + rewrite built_map with (h := fun _ (_ : Theme) => theme)
        by (reflexivity || assumption).
      apply (map_combine_snd (fun _ => theme)).
    + rewrite built_map with (h := fun _ (_ : Quote) => quote)
        by (reflexivity || assumption).
      apply (map_combine_snd (fun _ => quote)).
  - intros c Hc. apply in_app_iff in Hc.
    destruct Hc as [Hc|Hc]; apply built_In in Hc;
      destruct Hc as (i & a & v' & _ & ->); discriminate.
Qed.

End Commands.

(** The end-to-end scenario of the specification with the [index]
    command: one document, extraction skipped, gives one document row and
    one chunk row, the summary chunk, whose content is the first 500
    characters of the notes. *)
Example index_skip_extraction :
  let out := indexCommand Samples.countingExtractor Samples.countingEmbedder
               true Samples.skipping [Samples.pricingDir] Samples.emptyDb 0%nat in
  reported out = Ok (1, 1)%nat /\
  option_map (map VectorStore.row_insights_summary)
    (VectorStore.documents (database out)) = Some ["Discussed pricing concerns."] /\
  option_map (map (fun c => (VectorStore.crow_id c, VectorStore.crow_type c)))
    (VectorStore.chunks (database out)) = Some [("doc-1_summary", summary)].
Proof. repeat split. Qed.

(** C2 at the same scenario with the [sync] command: the loop accumulates
    the document and no chunk at all, so no chunk row is stored for it;
    and with extraction it accumulates the theme chunk and the quote
    chunks only.  The summary chunk is missing in both. *)
Theorem sync_skip_extraction_stores_no_chunk :
  let skipped :=
    snd (syncLoop Samples.countingExtractor Samples.countingEmbedder
           Samples.skipping [Samples.pricingDir] 0%nat) in
  let extracted :=
    snd (syncLoop Samples.countingExtractor Samples.countingEmbedder
           Samples.extracting [Samples.pricingDir] 0%nat) in
  let out := syncCommand Samples.countingExtractor Samples.countingEmbedder
               true Samples.skipping [Samples.pricingDir] Samples.emptyDb 0%nat in
  map (fun d => doc_id (fst d)) (indexedDocs skipped) = ["doc-1"] /\
  allChunks skipped = [] /\
  map chunk_id (allChunks extracted) =
    ["doc-1_theme_pricing"; "doc-1_quote_0"; "doc-1_quote_1"] /\
  option_map (map VectorStore.row_id)
    (VectorStore.documents (database out)) = Some ["doc-1"] /\
  forall rows, VectorStore.chunks (database out) = Some rows -> rows = [].
Proof.
  repeat split. simpl. intros rows H. injection H as <-. reflexivity.
Qed.

(** With extraction, [sync] stores the theme and quote chunks of the
    document, again without the summary chunk that [index] stores. *)
Example sync_and_index_chunk_ids :
  option_map (map VectorStore.crow_id)
    (VectorStore.chunks
       (database (syncCommand Samples.countingExtractor Samples.countingEmbedder
                    true Samples.extracting [Samples.pricingDir]
                    Samples.emptyDb 0%nat)))
  = Some ["doc-1_theme_pricing"; "doc-1_quote_0"; "doc-1_quote_1"] /\
  option_map (map VectorStore.crow_id)
    (VectorStore.chunks
       (database (indexCommand Samples.countingExtractor Samples.countingEmbedder
                    true Samples.extracting [Samples.pricingDir]
                    Samples.emptyDb 0%nat)))
  = Some ["doc-1_summary"; "doc-1_theme_pricing"; "doc-1_quote_0"; "doc-1_quote_1"].
Proof. split; reflexivity. Qed.

End OrchestratorFacts.

(* ================================================================== *)
(** * Transcripts as text                                              *)
(* ================================================================== *)
Module ConverterFacts.

Import Converter.

Lemma speakerLabel_cases (u : TranscriptUtterance) :
  speakerLabel u = "[ME]" \/ speakerLabel u = "[PARTICIPANT]".
Proof.
  unfold speakerLabel. destruct (String.eqb (source u) "microphone"); auto.
Qed.

Lemma speakerLabel_nonempty (u : TranscriptUtterance) :
  String.eqb (speakerLabel u) "" = false.
Proof. destruct (speakerLabel_cases u) as [-> | ->]; reflexivity. Qed.

Lemma joinRun_head (label : string) (texts : list string)
  (runs : list (string * list string)) :
  exists texts' rest, joinRun label texts runs = (label, texts') :: rest.
Proof.
  unfold joinRun. destruct runs as [|[label' texts'] rest]; [eauto|].
  destruct (String.eqb label label'); eauto.
Qed.

Lemma joinRun_split (label : string) (ts1 ts2 : list string)
  (runs : list (string * list string)) :
  joinRun label (ts1 ++ ts2)%list runs = joinRun label ts1 (joinRun label ts2 runs).
Proof.
  unfold joinRun. destruct runs as [|[label' texts'] rest].
  - now rewrite String.eqb_refl.
  - destruct (String.eqb label label') eqn:E.
    + now rewrite String.eqb_refl, app_assoc.
    + now rewrite String.eqb_refl.
Qed.

Lemma joinRun_other (label label' : string) (ts ts' : list string)
  (rest : list (string * list string)) :
  String.eqb label label' = false ->
  joinRun label ts ((label', ts') :: rest) = (label, ts) :: (label', ts') :: rest.
Proof. intros E. unfold joinRun. now rewrite E. Qed.

(** The loop, started in the middle of a run, ends with the lines it had
    and the lines of the runs of what it reads. *)
Lemma merge_loop (us : list TranscriptUtterance) (m : Merge)
  (speaker : string) (texts : list string) :
  currentSpeaker m = Some speaker -> currentTexts m = texts ->
  String.eqb speaker "" = false -> texts <> [] ->
  flush (fold_left mergeStep us m) =
    (lines m ++ map runLine (joinRun speaker texts (speakerRuns us)))%list.
Proof.
  revert m speaker texts; induction us as [|u us IH];
    intros m speaker texts Hs Ht Hne Htexts.
  - simpl. unfold flush. rewrite Hs, Ht, Hne. simpl.
    destruct texts; [now elim Htexts | reflexivity].
  - cbn [fold_left speakerRuns].
    destruct (String.eqb (speakerLabel u) speaker) eqn:E.
    + apply String.eqb_eq in E.
      rewrite (IH _ speaker (texts ++ [text u])%list).
      * unfold mergeStep. rewrite Hs, E, String.eqb_refl. simpl.
        now rewrite <- E, <- joinRun_split.
      * unfold mergeStep. now rewrite Hs, E, String.eqb_refl.
      * unfold mergeStep. rewrite Hs, E, String.eqb_refl. simpl. now rewrite Ht.
      * assumption.
      * destruct texts; discriminate.
    + rewrite (IH _ (speakerLabel u) [text u]).
      * unfold mergeStep. rewrite Hs, E. cbn [lines].
        unfold flush. rewrite Hs, Ht, Hne. simpl.
        destruct texts as [|t texts]; [now elim Htexts|]. cbn [List.length Nat.ltb Nat.leb].
        destruct (joinRun_head (speakerLabel u) [text u] (speakerRuns us))
          as (ts' & rest & Hj).
        rewrite Hj, joinRun_other.
        -- simpl. rewrite <- app_assoc. reflexivity.
        -- rewrite String.eqb_sym. exact E.
      * unfold mergeStep. now rewrite Hs, E.
      * unfold mergeStep. now rewrite Hs, E.
      * apply speakerLabel_nonempty.
      * discriminate.
Qed.

(** The merged lines are the lines of the speaker runs. *)
Lemma speakerLines_runs (us : list TranscriptUtterance) :
  speakerLines us = map runLine (speakerRuns us).
Proof.
  unfold speakerLines. destruct us as [|u us]; [reflexivity|].
  cbn [fold_left speakerRuns].
  rewrite (@merge_loop us (mergeStep noMerge u) (speakerLabel u) [text u]);
    try reflexivity.
  - apply speakerLabel_nonempty.
  - discriminate.
Qed.

Lemma joinRun_texts (label : string) (ts : list string)
  (runs : list (string * list string)) :
  List.concat (map snd (joinRun label ts runs)) = (ts ++ List.concat (map snd runs))%list.
Proof.
  unfold joinRun. destruct runs as [|[label' ts'] rest]; simpl.
  - reflexivity.
  - destruct (String.eqb label label'); simpl; [now rewrite app_assoc | reflexivity].
Qed.

Lemma speakerRuns_texts (us : list TranscriptUtterance) :
  List.concat (map snd (speakerRuns us)) = map text us.
Proof.
  induction us as [|u us IH]; simpl; [reflexivity|].
  now rewrite joinRun_texts, IH.
Qed.

Lemma joinRun_alternating (label : string) (ts : list string)
  (runs : list (string * list string)) :
  alternating runs -> alternating (joinRun label ts runs).
Proof.
  unfold joinRun. destruct runs as [|[label' ts'] rest]; [simpl; auto|].
  destruct (String.eqb label label') eqn:E.
  - apply String.eqb_eq in E. subst label'.
    destruct rest as [|r rest]; simpl; auto.
  - intros H. simpl. split; [|exact H].
    intros Heq. simpl in Heq. subst. rewrite String.eqb_refl in E. discriminate.
Qed.

Lemma speakerRuns_alternating (us : list TranscriptUtterance) :
  alternating (speakerRuns us).
Proof.
  induction us as [|u us IH]; simpl; [exact I|]. now apply joinRun_alternating.
Qed.

Lemma speakerRuns_wellformed (us : list TranscriptUtterance) :
  Forall (fun run => (fst run = "[ME]" \/ fst run = "[PARTICIPANT]") /\ snd run <> [])
         (speakerRuns us).
Proof.
  induction us as [|u us IH]; simpl; [constructor|].
  unfold joinRun. destruct (speakerRuns us) as [|[label' ts'] rest].
  - constructor; [|constructor]. simpl. split; [apply speakerLabel_cases | discriminate].
  - destruct (String.eqb (speakerLabel u) label').
    + inversion IH; subst. constructor; [|assumption].
      simpl. split; [apply speakerLabel_cases | discriminate].
    + constructor; [|assumption].
      simpl. split; [apply speakerLabel_cases | discriminate].
Qed.

(** [transcriptWithSpeakers] writes one line per maximal run of
    consecutive utterances of one speaker, separated by blank lines: each
    line carries the label of its run and the texts of the run joined by
    spaces; neighbouring lines carry different labels; no text is lost or
    reordered, so the texts of the lines, in order, are those of
    [transcriptToPlainText]. *)
Theorem transcript_lines_are_speaker_runs (us : list TranscriptUtterance) :
  transcriptWithSpeakers us = join blankLine (map runLine (speakerRuns us)) /\
  alternating (speakerRuns us) /\
  Forall (fun run => (fst run = "[ME]" \/ fst run = "[PARTICIPANT]") /\ snd run <> [])
         (speakerRuns us) /\
  List.concat (map snd (speakerRuns us)) = map text us /\
  join " " (List.concat (map snd (speakerRuns us))) = transcriptToPlainText us.
Proof.
  split; [|split; [|split; [|split]]].
  - unfold transcriptWithSpeakers. destruct us as [|u us]; [reflexivity|].
    now rewrite speakerLines_runs.
  - apply speakerRuns_alternating.
  - apply speakerRuns_wellformed.
  - apply speakerRuns_texts.
  - rewrite speakerRuns_texts. unfold transcriptToPlainText.
    destruct us; reflexivity.
Qed.

End ConverterFacts.

(* ================================================================== *)
(** * Directory names                                                  *)
(* ================================================================== *)
Module FilenameFacts.

Import Filenames JSFacts.

Lemma removeForbidden_clean (s : string) :
  allChars (fun c => negb (forbidden c)) (removeForbidden s) = true.
Proof.
  induction s as [|c s IH]; simpl; [reflexivity|].
  destruct (forbidden c) eqn:E; simpl; [assumption|]. now rewrite E.
Qed.

Lemma replaceRuns_plain (inRun : bool) (s : string) :
  allChars (fun c => negb (forbidden c)) s = true ->
  allChars plain (replaceRuns inRun s) = true.
Proof.
  revert inRun; induction s as [|c s IH]; intros inRun; simpl; [reflexivity|].
  intros H. apply andb_true_iff in H. destruct H as [Hc Hs].
  destruct (whitespace c) eqn:Ew.
  - destruct inRun; simpl; auto.
  - simpl. unfold plain at 1. rewrite Hc, Ew. simpl. auto.
Qed.

Lemma substring0_allChars (p : ascii -> bool) (n : nat) (s : string) :
  allChars p s = true -> allChars p (substring0 n s) = true.
Proof.
  revert s; induction n as [|n IH]; intros [|c s]; simpl; auto.
  intros H. apply andb_true_iff in H. destruct H as [Hc Hs].
  rewrite Hc. simpl. auto.
Qed.

Lemma plain_fixed (s : string) :
  allChars plain s = true ->
  removeForbidden s = s /\ forall inRun, replaceRuns inRun s = s.
Proof.
  induction s as [|c s IH]; simpl; [auto|].
  intros H. apply andb_true_iff in H. destruct H as [Hc Hs].
  unfold plain in Hc. apply andb_true_iff in Hc. destruct Hc as [Hf Hw].
  apply negb_true_iff in Hf, Hw. destruct (IH Hs) as [Hr Hp].
  rewrite Hf, Hw. split; [now rewrite Hr | intros inRun; now rewrite Hp].
Qed.

Lemma sanitize_plain (name : string) :
  allChars plain (sanitizeFilename name) = true.
Proof.
  unfold sanitizeFilename. apply substring0_allChars, replaceRuns_plain,
    removeForbidden_clean.
Qed.

Lemma sanitize_length (name : string) :
  (String.length (sanitizeFilename name) <= 100)%nat.
Proof.
  unfold sanitizeFilename. rewrite substring0_length. apply Nat.le_min_l.
Qed.

Lemma sanitize_idempotent (name : string) :
  sanitizeFilename (sanitizeFilename name) = sanitizeFilename name.
Proof.
  destruct (plain_fixed _ (sanitize_plain name)) as [Hr Hp].
  unfold sanitizeFilename at 1. rewrite Hr, Hp.
  apply substring0_short, sanitize_length.
Qed.



(** For a directory written by the export (its name is the sanitized
    title, or the sanitized id of an untitled document), the directory
    that [handleGetTranscript] derives from the indexed title is that
    directory, also for an untitled document, whose indexed title is the
    directory name itself. *)
Theorem transcript_directory_found (dir : Orchestrator.DocDir)
  (d : Orchestrator.GranolaDocument) (insights : Types.ExtractedInsights) :
  Orchestrator.dir_name dir = exportDirName d ->
  transcriptDirName
    (Types.doc_title (Orchestrator.makeIndexedDocument dir d insights))
  = Orchestrator.dir_name dir.
Proof.
  intros Hdir. unfold transcriptDirName. simpl. rewrite Hdir.
  unfold exportDirName, Orchestrator.orString.
  destruct (String.eqb (Orchestrator.g_title d) "") eqn:E.
  - apply sanitize_idempotent.
  - reflexivity.
Qed.

(** At the directory of an untitled document, whose name is the sanitized
    id. *)
Lemma transcript_directory_found_witness :
  Orchestrator.dir_name Corpus.untitledDir = exportDirName Corpus.untitledDoc /\
  transcriptDirName
    (Types.doc_title
       (Orchestrator.makeIndexedDocument Corpus.untitledDir Corpus.untitledDoc
          Samples.pricingInsights))
  = "doc_7".
Proof.
  split; [reflexivity|].
  apply (@transcript_directory_found Corpus.untitledDir Corpus.untitledDoc
           Samples.pricingInsights).
  reflexivity.
Defined.

End FilenameFacts.

(* ================================================================== *)
(** * Paging through the documents of the API                          *)
(* ================================================================== *)
Module ApiFacts.

Import Api JSFacts.

Lemma firstn_more {A} (a b : nat) (l : list A) :
  firstn (a + b) l = (firstn a l ++ firstn b (skipn a l))%list.
Proof.
  revert l; induction a as [|a IH]; intros l; simpl; [reflexivity|].
  destruct l as [|x l]; simpl.
  - now rewrite firstn_nil.
  - now rewrite IH.
Qed.

Section Paging.

Variable Doc : Type.
Variable getDocuments : nat -> nat -> result (list Doc).

(** Against a server that holds the documents [all] and answers each
    request with the page it asks for, the loop started at [offset] with
    the documents before [offset] ends with all documents. *)
Lemma pageLoop_collects (all : list Doc) :
  (forall limit offset,
     getDocuments limit offset = Ok (firstn limit (skipn offset all))) ->
  forall fuel offset,
    (offset <= List.length all < offset + fuel * PAGE)%nat ->
    pageLoop getDocuments fuel offset (firstn offset all) = Some (Ok all).
Proof.
  intros Hserver. induction fuel as [|fuel IH]; intros offset Hfuel; [lia|].
  cbn [pageLoop]. rewrite Hserver.
  destruct (Nat.ltb_spec (List.length (firstn PAGE (skipn offset all))) PAGE)
    as [Hshort|Hfull].
  - do 2 f_equal. rewrite (firstn_all2 (n := PAGE) (skipn offset all)).
    + apply firstn_skipn.
    + rewrite length_firstn in Hshort. lia.
  - rewrite <- firstn_more. apply IH.
    rewrite length_firstn, length_skipn in Hfull. unfold PAGE in *. lia.
Qed.

End Paging.

(** Against a server that holds the documents [all] and answers each
    request with the page it asks for, [getAllDocuments] returns all of
    them, in the order of the server, once the loop is given more rounds
    than there are full pages. *)
Theorem getAllDocuments_collects_pages (Doc : Type)
  (getDocuments : nat -> nat -> result (list Doc)) (all : list Doc) (fuel : nat) :
  (forall limit offset,
     getDocuments limit offset = Ok (firstn limit (skipn offset all))) ->
  (List.length all < fuel * PAGE)%nat ->
  getAllDocuments getDocuments fuel = Some (Ok all).
Proof.
  intros Hserver Hfuel. unfold getAllDocuments.
  apply (@pageLoop_collects Doc getDocuments all Hserver fuel 0%nat). lia.
Qed.

Lemma getAllDocuments_collects_pages_witness :
  getAllDocuments (Corpus.pagedServer (seq 0 250)) 3 = Some (Ok (seq 0 250)).
Proof.
  apply (@getAllDocuments_collects_pages nat (Corpus.pagedServer (seq 0 250))
           (seq 0 250) 3%nat).
  - intros limit offset. reflexivity.
  - rewrite length_seq. unfold PAGE. lia.
Defined.

Lemma pageLoop_full_pages (Doc : Type)
  (getDocuments : nat -> nat -> result (list Doc)) :
  (forall offset, exists docs,
     getDocuments PAGE offset = Ok docs /\ (PAGE <= List.length docs)%nat) ->
  forall fuel offset allDocs, pageLoop getDocuments fuel offset allDocs = None.
Proof.
  intros Hfull. induction fuel as [|fuel IH]; intros offset allDocs;
    [reflexivity|].
  cbn [pageLoop]. destruct (Hfull offset) as [docs [-> Hlen]].
  destruct (Nat.ltb_spec (List.length docs) PAGE) as [Hshort|_]; [lia|].
  apply IH.
Qed.

(** The loop of [getAllDocuments] ends only at a page of fewer than 100
    documents (or at an error): against a server that answers every
    request with 100 documents or more, it does not return, however many
    rounds it is given. *)
Theorem getAllDocuments_needs_short_page (Doc : Type)
  (getDocuments : nat -> nat -> result (list Doc)) :
  (forall offset, exists docs,
     getDocuments PAGE offset = Ok docs /\ (PAGE <= List.length docs)%nat) ->
  forall fuel, getAllDocuments getDocuments fuel = None.
Proof.
  intros Hfull fuel. unfold getAllDocuments. now apply pageLoop_full_pages.
Qed.

Lemma getAllDocuments_needs_short_page_witness :
  getAllDocuments Corpus.fullPages 1000 = None.
Proof.
  apply (@getAllDocuments_needs_short_page nat Corpus.fullPages).
  intros offset. exists (repeat offset PAGE). split; [reflexivity|].
  rewrite repeat_length. lia.
Defined.

Lemma append_assoc (a b c : string) : (a ++ b) ++ c = a ++ (b ++ c).
Proof. induction a as [|x a IH]; simpl; [reflexivity | now rewrite IH]. Qed.

Lemma includes_append_right (pre s sub : string) :
  includes s sub = true -> includes (pre ++ s) sub = true.
Proof.
  rewrite !includes_spec. intros [a [b ->]].
  exists (pre ++ a), b. now rewrite append_assoc.
Qed.

Lemma includes_append_left (s post sub : string) :
  includes s sub = true -> includes (s ++ post) sub = true.
Proof.
  rewrite !includes_spec. intros [a [b ->]].
  exists a, (b ++ post). now rewrite !append_assoc.
Qed.

(** A code unit that does not occur in a pattern cuts every string in two
    for that pattern: the pattern starts the string exactly when it starts
    the part before the cut, and occurs in the string exactly when it
    occurs before the cut or after it. *)
Lemma startsWith_cut (c : ascii) (a t p : string) :
  ~ In c (list_ascii_of_string p) ->
  startsWith (a ++ String c t) p = startsWith a p.
Proof.
  revert p. induction a as [|x a IH]; intros [|d p] Hc; try reflexivity.
  - cbn. destruct (Ascii.eqb_spec d c) as [->|_]; [|reflexivity].
    exfalso. apply Hc. left. reflexivity.
  - cbn. rewrite IH; [reflexivity|].
    intros Hin. apply Hc. right. exact Hin.
Qed.

Lemma includes_cut (c : ascii) (a t p : string) :
  ~ In c (list_ascii_of_string p) ->
  includes (a ++ String c t) p = includes a p || includes t p.
Proof.
  intros Hc. induction a as [|x a IH].
  - change ("" ++ String c t) with (String c t).
    change (includes (String c t) p)
      with (startsWith (String c t) p || includes t p).
    change (String c t) with ("" ++ String c t).
    rewrite (@startsWith_cut c "" t p Hc).
    cbn [includes]. now rewrite orb_false_r.
  - change (String x a ++ String c t) with (String x (a ++ String c t)).
    change (includes (String x (a ++ String c t)) p)
      with (startsWith (String x (a ++ String c t)) p
            || includes (a ++ String c t) p).
    change (String x (a ++ String c t)) with (String x a ++ String c t).
    rewrite (@startsWith_cut c (String x a) t p Hc), IH.
    change (includes (String x a) p)
      with (startsWith (String x a) p || includes a p).
    now rewrite !orb_assoc.
Qed.

(** The text 404 occurs in the message of [apiRequest] exactly when it
    occurs in the digits of the status or in the body. *)
Lemma message_includes_404 (st body : string) :
  includes ("API error " ++ st ++ ": " ++ body) "404" =
    includes st "404" || includes body "404".
Proof.
  change ("API error " ++ st ++ ": " ++ body)
    with ("API error" ++ String " " (st ++ String ":" ("" ++ String " " body))).
  rewrite (@includes_cut " " "API error" _ "404");
    [|intros [H|[H|[H|[]]]]; discriminate].
  rewrite (@includes_cut ":" st _ "404");
    [|intros [H|[H|[H|[]]]]; discriminate].
  rewrite (@includes_cut " " "" body "404");
    [|intros [H|[H|[H|[]]]]; discriminate].
  reflexivity.
Qed.

(** Of the statuses of three digits at most, only 404 prints with the
    text 404 in it. *)
Lemma showNat_includes_404 (n : nat) :
  (n < 1000)%nat -> n <> 404%nat ->
  includes (Orchestrator.showNat n) "404" = false.
Proof.
  intros Hlt Hne.
  assert (Hall : forallb
                   (fun k => (k =? 404)%nat
                             || negb (includes (Orchestrator.showNat k) "404"))
                   (seq 0 1000) = true) by (vm_compute; reflexivity).
  rewrite forallb_forall in Hall.
  specialize (Hall n). rewrite in_seq in Hall.
  specialize (Hall (conj (Nat.le_0_l n) Hlt)).
  apply orb_true_iff in Hall. destruct Hall as [Heq|Hno].
  - apply Nat.eqb_eq in Heq. contradiction.
  - now apply negb_true_iff in Hno.
Qed.

(** [getDocumentTranscript] turns every failed request whose status is
    404, or whose body contains the text 404, into [null].  What a failed
    request gives is decided by the digits of its status and by its body:
    [null] when the text 404 occurs in either, the error of [apiRequest]
    otherwise; so a failed request with a status below 1000 other than
    404 and a body without the text 404 throws that error. *)
Theorem getDocumentTranscript_not_found (Utterance : Type)
  (response : Response (list Utterance)) :
  ok response = false ->
  (status response = 404%nat \/ includes (body_text response) "404" = true ->
   getDocumentTranscript response = Ok None) /\
  getDocumentTranscript response =
    (if includes (Orchestrator.showNat (status response)) "404"
        || includes (body_text response) "404"
     then Ok None
     else Throw (mkError ("API error " ++ Orchestrator.showNat (status response)
                          ++ ": " ++ body_text response))) /\
  ((status response < 1000)%nat ->
   status response <> 404%nat ->
   includes (body_text response) "404" = false ->
   getDocumentTranscript response =
     Throw (mkError ("API error " ++ Orchestrator.showNat (status response)
                     ++ ": " ++ body_text response))).
Proof.
  intros Hok.
  assert (Hrun :
    getDocumentTranscript response =
      (if includes (Orchestrator.showNat (status response)) "404"
          || includes (body_text response) "404"
       then Ok None
       else Throw (mkError ("API error " ++ Orchestrator.showNat (status response)
                            ++ ": " ++ body_text response)))).
  { unfold getDocumentTranscript, apiRequest. rewrite Hok.
    cbn [message]. now rewrite message_includes_404. }
  split; [|split].
  - intros H. rewrite Hrun. destruct H as [-> | ->].
    + reflexivity.
    + now rewrite orb_true_r.
  - exact Hrun.
  - intros Hlt Hne Hbody. rewrite Hrun, Hbody.
    now rewrite (@showNat_includes_404 (status response) Hlt Hne).
Qed.

(** A bad gateway whose body mentions 404 gives [null]; an internal
    server error that mentions it nowhere throws. *)
Lemma getDocumentTranscript_not_found_witness :
  (ok Corpus.gatewayError = false /\
   getDocumentTranscript Corpus.gatewayError = Ok None) /\
  (ok Corpus.serverError = false /\
   getDocumentTranscript Corpus.serverError =
     Throw (mkError "API error 500: internal error")).
Proof.
  split; (split; [reflexivity|]).
  - apply (proj1 (@getDocumentTranscript_not_found _ Corpus.gatewayError eq_refl)).
    right. reflexivity.
  - apply (proj2 (proj2 (@getDocumentTranscript_not_found _ Corpus.serverError
                           eq_refl))).
    + cbn. lia.
    + discriminate.
    + reflexivity.
Defined.

End ApiFacts.

(* ================================================================== *)
(** * The vector store: listings and statistics                        *)
(* ================================================================== *)
Module StoreQueriesFacts.

Import Types VectorStore StoreQueries JSFacts.

(** ** Maps *)

Lemma mapGet_mapSet {V} (k k' : string) (v : V) (m : JsMap V) :
  mapGet k (mapSet k' v m) = if String.eqb k k' then Some v else mapGet k m.
Proof.
  induction m as [|[k0 v0] m IH]; simpl.
  - reflexivity.
  - destruct (String.eqb k' k0) eqn:E0; simpl.
    + apply String.eqb_eq in E0. subst k0.
      destruct (String.eqb k k'); reflexivity.
    + rewrite IH. destruct (String.eqb k k0) eqn:E1; [|reflexivity].
      apply String.eqb_eq in E1. subst k0.
      now rewrite String.eqb_sym, E0.
Qed.

Lemma mapSet_keys {V} (k k' : string) (v : V) (m : JsMap V) :
  In k (map fst (mapSet k' v m)) <-> k = k' \/ In k (map fst m).
Proof.
  induction m as [|[k0 v0] m IH]; simpl.
  - intuition.
  - destruct (String.eqb k' k0) eqn:E0; simpl.
    + apply String.eqb_eq in E0. subst k0. intuition.
    + rewrite IH. intuition.
Qed.

Lemma mapSet_NoDup {V} (k : string) (v : V) (m : JsMap V) :
  NoDup (map fst m) -> NoDup (map fst (mapSet k v m)).
Proof.
  induction m as [|[k0 v0] m IH]; simpl; intros H.
  - constructor; [intros [] | constructor].
  - inversion H as [|? ? Hnotin Hnd]; subst.
    destruct (String.eqb k k0) eqn:E0; simpl.
    + constructor; assumption.
    + constructor; [|now apply IH].
      rewrite mapSet_keys. intros [->|Hin]; [|contradiction].
      now rewrite String.eqb_refl in E0.
Qed.

Lemma mapGet_In {V} (k : string) (v : V) (m : JsMap V) :
  NoDup (map fst m) -> (In (k, v) m <-> mapGet k m = Some v).
Proof.
  induction m as [|[k0 v0] m IH]; simpl; intros H.
  - split; [intros [] | discriminate].
  - inversion H as [|? ? Hnotin Hnd]; subst.
    destruct (String.eqb k k0) eqn:E0.
    + apply String.eqb_eq in E0. subst k0. split.
      * intros [Heq|Hin]; [congruence|].
        elim Hnotin. apply in_map_iff. exists (k, v). auto.
      * intros Heq. left. congruence.
    + rewrite <- (IH Hnd). split.
      * intros [Heq|Hin]; [|assumption].
        injection Heq as -> ->. now rewrite String.eqb_refl in E0.
      * intros Hin. right. assumption.
Qed.

Lemma fold_left_flat_map {A B S} (f : S -> B -> S) (g : A -> list B)
  (l : list A) (s : S) :
  fold_left (fun s a => fold_left f (g a) s) l s = fold_left f (flat_map g l) s.
Proof.
  revert s; induction l as [|a l IH]; intros s; simpl; [reflexivity|].
  now rewrite fold_left_app, IH.
Qed.

(** ** Sorting *)

Lemma insertBy_perm {A} (cmp : A -> A -> Z) (x : A) (l : list A) :
  Permutation (insertBy cmp x l) (x :: l).
Proof.
  induction l as [|y l IH]; simpl.
  - apply Permutation_refl.
  - destruct (cmp y x <=? 0)%Z.
    + rewrite IH. apply perm_swap.
    + apply Permutation_refl.
Qed.

Lemma sortBy_fold_perm {A} (cmp : A -> A -> Z) (l acc : list A) :
  Permutation (fold_left (fun sorted x => insertBy cmp x sorted) l acc) (acc ++ l).
Proof.
  revert acc; induction l as [|x l IH]; intros acc; simpl.
  - now rewrite app_nil_r.
  - rewrite IH, insertBy_perm. apply Permutation_middle.
Qed.

Lemma sortBy_perm {A} (cmp : A -> A -> Z) (l : list A) :
  Permutation (sortBy cmp l) l.
Proof. unfold sortBy. apply (sortBy_fold_perm cmp l []). Qed.

Section Keyed.

Variable A : Type.
Variable cmp : A -> A -> Z.
Variable key : A -> Z.
Variable valid : A -> Prop.

(** On valid elements the comparator orders by decreasing key. *)
Hypothesis cmp_key :
  forall a b, valid a -> valid b -> ((cmp a b <= 0)%Z <-> (key b <= key a)%Z).

Lemma insertBy_sorted (x : A) (l : list A) :
  valid x -> Forall valid l ->
  StronglySorted (decreasing key) l -> StronglySorted (decreasing key) (insertBy cmp x l).
Proof.
  intros Hx Hl Hs. induction Hs as [|y l Hs IH Hy]; simpl.
  - constructor; constructor.
  - inversion Hl as [|? ? Hvy Hvl]; subst.
    destruct (Z.leb_spec (cmp y x) 0) as [Hle|Hgt].
    + constructor; [now apply IH|].
      apply (Permutation_Forall (Permutation_sym (insertBy_perm cmp x l))).
      constructor; [|exact Hy]. unfold decreasing. now apply (cmp_key Hvy Hx).
    + constructor; [constructor; assumption|].
      assert (Hxy : (key y < key x)%Z).
      { destruct (Z.le_gt_cases (key x) (key y)) as [H|H]; [|exact H].
        apply (cmp_key Hvy Hx) in H. lia. }
      constructor; [unfold decreasing; lia|].
      eapply Forall_impl; [|exact Hy].
      unfold decreasing; intros z Hz; lia.
Qed.

Lemma sortBy_fold_sorted (l acc : list A) :
  Forall valid l -> Forall valid acc -> StronglySorted (decreasing key) acc ->
  StronglySorted (decreasing key)
    (fold_left (fun sorted x => insertBy cmp x sorted) l acc).
Proof.
  revert acc; induction l as [|x l IH]; intros acc Hl Hacc Hs; simpl;
    [assumption|].
  inversion Hl as [|? ? Hx Hl']; subst. apply IH; [assumption| |].
  - apply (Permutation_Forall (Permutation_sym (insertBy_perm cmp x acc))).
    constructor; assumption.
  - now apply insertBy_sorted.
Qed.

Lemma sortBy_sorted (l : list A) :
  Forall valid l -> StronglySorted (decreasing key) (sortBy cmp l).
Proof.
  intros Hl. unfold sortBy. apply sortBy_fold_sorted; [assumption | constructor | constructor].
Qed.

End Keyed.

(** ** [getAllDocuments] *)

Section Listing.

Variable getTime : string -> option Z.

(** [getAllDocuments] is a rearrangement of the rows that pass the folder
    filter, whatever their dates. *)
Lemma getAllDocuments_perm (db : Database) (folder : option string) :
  Permutation (getAllDocuments getTime db folder)
    (map toSummary
       (filter (fun row => folderMatches folder (row_folders row)) (rowsOf db))).
Proof.
  unfold getAllDocuments, rowsOf.
  destruct (documents db); [apply sortBy_perm | apply Permutation_refl].
Qed.

(** [getAllDocuments] returns the rows of the table that pass the folder
    filter, each once and nothing else (nothing when the table does not
    exist), whatever their dates; when the dates of the rows that pass
    the filter are valid, the result is ordered from the most recent
    document to the oldest. *)
Theorem getAllDocuments_lists_matching_rows (db : Database)
  (folder : option string) :
  Permutation (getAllDocuments getTime db folder)
    (map toSummary
       (filter (fun row => folderMatches folder (row_folders row)) (rowsOf db))) /\
  ((forall row,
      In row (rowsOf db) ->
      folderMatches folder (row_folders row) = true ->
      getTime (row_created_at row) <> None) ->
   StronglySorted (decreasing (timeOf getTime))
     (getAllDocuments getTime db folder)).
Proof.
  split; [apply getAllDocuments_perm|]. intros Hdates.
  unfold getAllDocuments, rowsOf in *.
  destruct (documents db) as [table|]; [|constructor].
  apply (@sortBy_sorted _ (newestFirst getTime) (timeOf getTime)
           (fun d => getTime (sum_created_at d) <> None)).
  - intros a b Ha Hb. unfold newestFirst, timeOf.
    destruct (getTime (sum_created_at a)); [|now elim Ha].
    destruct (getTime (sum_created_at b)); [|now elim Hb]. lia.
  - apply Forall_forall. intros d Hd. apply in_map_iff in Hd.
    destruct Hd as [row [<- Hrow]]. apply filter_In in Hrow.
    simpl. now apply Hdates.
Qed.

End Listing.

Lemma getAllDocuments_lists_matching_rows_witness :
  map sum_id (getAllDocuments Corpus.sampleTime Corpus.themedDb (Some "research"))
    = ["doc-2"; "doc-3"] /\
  Permutation
    (getAllDocuments Corpus.sampleTime Corpus.themedDb (Some "research"))
    (map toSummary
       (filter (fun row => folderMatches (Some "research") (row_folders row))
          (rowsOf Corpus.themedDb))) /\
  StronglySorted (decreasing (timeOf Corpus.sampleTime))
    (getAllDocuments Corpus.sampleTime Corpus.themedDb (Some "research")).
Proof.
  split; [reflexivity|]. split.
  - exact (proj1 (@getAllDocuments_lists_matching_rows Corpus.sampleTime
                    Corpus.themedDb (Some "research"))).
  - apply (proj2 (@getAllDocuments_lists_matching_rows Corpus.sampleTime
                    Corpus.themedDb (Some "research"))).
    intros row [<-|[<-|[<-|[]]]] _; discriminate.
Defined.

(** ** [getThemeStats] *)

Lemma countTheme_fold (name : string) (ts : list Theme) (stats : JsMap ThemeStats) :
  mapGet name (fold_left countTheme ts stats) =
    let c := List.length (filter (named name) ts) in
    let q := list_sum (map (fun t => List.length (th_evidence t))
                           (filter (named name) ts)) in
    match mapGet name stats with
    | Some e =>
        Some {| document_count := document_count e + c;
                total_quotes := total_quotes e + q |}
    | None =>
        if (c =? 0)%nat then None
        else Some {| document_count := c; total_quotes := q |}
    end.
Proof.
  revert stats; induction ts as [|t ts IH]; intros stats; simpl.
  - destruct (mapGet name stats) as [[dc tq]|]; [|reflexivity].
    simpl. now rewrite !Nat.add_0_r.
  - rewrite IH. unfold countTheme at 1. rewrite mapGet_mapSet.
    change (String.eqb name (th_name t)) with (named name t).
    destruct (named name t) eqn:E; cbn [List.length map list_sum fold_right].
    + unfold named in E. apply String.eqb_eq in E. rewrite <- E.
      destruct (mapGet name stats) as [[dc tq]|];
        unfold list_sum, noStats; cbn [document_count total_quotes Nat.eqb];
        f_equal; f_equal; lia.
    + reflexivity.
Qed.

Lemma countTheme_fold_NoDup (ts : list Theme) (stats : JsMap ThemeStats) :
  NoDup (map fst stats) -> NoDup (map fst (fold_left countTheme ts stats)).
Proof.
  revert stats; induction ts as [|t ts IH]; intros stats H; simpl; [assumption|].
  apply IH. unfold countTheme. now apply mapSet_NoDup.
Qed.

Lemma filter_flat_map_length {A B} (p : B -> bool) (f : A -> list B) (l : list A) :
  List.length (filter p (flat_map f l)) =
  list_sum (map (fun a => List.length (filter p (f a))) l).
Proof.
  induction l as [|a l IH]; simpl; [reflexivity|].
  now rewrite filter_app, length_app, IH.
Qed.

Lemma filter_length_sum {A} (p : A -> bool) (l : list A) :
  List.length (filter p l) = list_sum (map (fun a => if p a then 1 else 0)%nat l).
Proof.
  induction l as [|a l IH]; simpl; [reflexivity|].
  destruct (p a); simpl; now rewrite IH.
Qed.

Lemma named_once (name : string) (ts : list Theme) :
  NoDup (map th_name ts) ->
  List.length (filter (named name) ts) =
    (if existsb (named name) ts then 1 else 0)%nat.
Proof.
  induction ts as [|t ts IH]; simpl; intros H; [reflexivity|].
  inversion H as [|? ? Hnotin Hnd]; subst.
  destruct (named name t) eqn:E; simpl.
  - rewrite (IH Hnd). destruct (existsb (named name) ts) eqn:Ex; [|reflexivity].
    exfalso. apply existsb_exists in Ex. destruct Ex as [t' [Hin Hn]].
    unfold named in E, Hn. apply String.eqb_eq in E, Hn.
    apply Hnotin. rewrite <- E, Hn. now apply in_map.
  - now apply IH.
Qed.

Lemma getThemeStats_fold (db : Database) :
  getThemeStats db = fold_left countTheme (flat_map row_themes (rowsOf db)) [].
Proof.
  unfold getThemeStats, rowsOf.
  destruct (documents db); [apply fold_left_flat_map | reflexivity].
Qed.

Lemma getThemeStats_get (db : Database) (name : string) :
  mapGet name (getThemeStats db) =
    (if (themeOccurrences name (rowsOf db) =? 0)%nat then None
     else Some {| document_count := themeOccurrences name (rowsOf db);
                  total_quotes := themeEvidence name (rowsOf db) |}).
Proof.
  rewrite getThemeStats_fold.
  apply (countTheme_fold name (flat_map row_themes (rowsOf db)) []).
Qed.

(** [getThemeStats] has one entry per theme name that occurs in the
    table: its [document_count] is the number of themes of that name in
    the rows and its [total_quotes] the number of their evidence items; a
    name that does not occur has no entry (so a missing table gives the
    empty map).  When no row lists a theme name twice, [document_count] is
    the number of rows that have the theme. *)
Theorem getThemeStats_counts (db : Database) (name : string) :
  NoDup (map fst (getThemeStats db)) /\
  mapGet name (getThemeStats db) =
    (if (themeOccurrences name (rowsOf db) =? 0)%nat then None
     else Some {| document_count := themeOccurrences name (rowsOf db);
                  total_quotes := themeEvidence name (rowsOf db) |}) /\
  ((forall row, In row (rowsOf db) -> NoDup (map th_name (row_themes row))) ->
   themeOccurrences name (rowsOf db) =
     List.length
       (filter (fun row => existsb (named name) (row_themes row)) (rowsOf db))).
Proof.
  split; [rewrite getThemeStats_fold; apply countTheme_fold_NoDup; constructor|].
  split; [apply getThemeStats_get|].
  intros Hnodup. unfold themeOccurrences. rewrite filter_flat_map_length, filter_length_sum.
  f_equal. apply map_ext_in. intros row Hrow. now apply named_once, Hnodup.
Qed.

Lemma getThemeStats_counts_witness :
  mapGet "pricing" (getThemeStats Corpus.themedDb) =
    Some {| document_count := 2; total_quotes := 4 |} /\
  themeOccurrences "pricing" (rowsOf Corpus.themedDb) =
    List.length
      (filter (fun row => existsb (named "pricing") (row_themes row))
         (rowsOf Corpus.themedDb)).
Proof.
  split; [reflexivity|].
  apply (proj2 (proj2 (@getThemeStats_counts Corpus.themedDb "pricing"))).
  intros row [<-|[<-|[<-|[]]]]; simpl;
    repeat (constructor; [simpl; intuition discriminate|]); constructor.
Defined.

(** ** [getAllFolders] *)

Lemma countFolder_fold (name : string) (fs : list string) (counts : JsMap nat) :
  mapGet name (fold_left countFolder fs counts) =
    let c := List.length (filter (String.eqb name) fs) in
    match mapGet name counts with
    | Some n => Some (n + c)%nat
    | None => if (c =? 0)%nat then None else Some c
    end.
Proof.
  revert counts; induction fs as [|f fs IH]; intros counts; simpl.
  - destruct (mapGet name counts); [|reflexivity]. now rewrite Nat.add_0_r.
  - rewrite IH. unfold countFolder at 1. rewrite mapGet_mapSet.
    destruct (String.eqb name f) eqn:E; simpl.
    + apply String.eqb_eq in E. subst f.
      destruct (mapGet name counts); simpl; f_equal; lia.
    + reflexivity.
Qed.

Lemma countFolder_fold_NoDup (fs : list string) (counts : JsMap nat) :
  NoDup (map fst counts) -> NoDup (map fst (fold_left countFolder fs counts)).
Proof.
  revert counts; induction fs as [|f fs IH]; intros counts H; simpl; [assumption|].
  apply IH. unfold countFolder. now apply mapSet_NoDup.
Qed.

(** [getAllFolders] lists every folder name of the table exactly once,
    with the number of times the rows list it, most frequent first; a
    name that no row lists is absent. *)
Theorem getAllFolders_counts (db : Database) :
  NoDup (map fc_name (getAllFolders db)) /\
  (forall name n,
     In {| fc_name := name; fc_document_count := n |} (getAllFolders db) <->
     n = folderOccurrences name (rowsOf db) /\ (0 < n)%nat) /\
  StronglySorted (fun a b => (fc_document_count b <= fc_document_count a)%nat)
    (getAllFolders db).
Proof.
  set (table := rowsOf db).
  assert (Hfold : folderCounts db =
                  fold_left countFolder (flat_map row_folders table) []).
  { unfold folderCounts, table, rowsOf.
    destruct (documents db); [apply fold_left_flat_map | reflexivity]. }
  assert (Hnd : NoDup (map fst (folderCounts db))).
  { rewrite Hfold. apply countFolder_fold_NoDup. constructor. }
  assert (Hget : forall name,
            mapGet name (folderCounts db) =
            if (folderOccurrences name table =? 0)%nat then None
            else Some (folderOccurrences name table)).
  { intros name. rewrite Hfold.
    apply (countFolder_fold name (flat_map row_folders table) []). }
  assert (Hperm : Permutation (getAllFolders db)
                    (map (fun entry => {| fc_name := fst entry;
                                          fc_document_count := snd entry |})
                         (folderCounts db)))
    by apply sortBy_perm.
  split; [|split].
  - apply (Permutation_NoDup (l := map fst (folderCounts db))); [|exact Hnd].
    rewrite Hperm, map_map. simpl. apply Permutation_refl.
  - intros name n. split.
    + intros Hin. apply (Permutation_in _ Hperm) in Hin.
      apply in_map_iff in Hin. destruct Hin as [[k v] [Heq Hin]].
      simpl in Heq. injection Heq as -> ->.
      apply (mapGet_In name n (folderCounts db) Hnd) in Hin.
      rewrite Hget in Hin.
      destruct (Nat.eqb_spec (folderOccurrences name table) 0); [discriminate|].
      injection Hin as <-. split; [reflexivity | lia].
    + intros [-> Hpos]. apply (Permutation_in _ (Permutation_sym Hperm)).
      apply in_map_iff. exists (name, folderOccurrences name table).
      split; [reflexivity|].
      apply (mapGet_In name _ (folderCounts db) Hnd). rewrite Hget.
      destruct (Nat.eqb_spec (folderOccurrences name table) 0); [lia | reflexivity].
  - assert (Hsorted :
      StronglySorted (decreasing (fun a => Z.of_nat (fc_document_count a)))
        (getAllFolders db)).
    { apply (@sortBy_sorted _ byCountDescending
               (fun a => Z.of_nat (fc_document_count a)) (fun _ => True)).
      - intros a b _ _. unfold byCountDescending. lia.
      - apply Forall_forall. auto. }
    clear -Hsorted. induction Hsorted as [|a l Hs IH Ha]; constructor.
    + exact IH.
    + eapply Forall_impl; [|exact Ha]. unfold decreasing. intros b Hb. lia.
Qed.

End StoreQueriesFacts.

(* ================================================================== *)
(** * The handlers of the MCP tools                                    *)
(* ================================================================== *)
Module HandlersFacts.

Import Types VectorStore StoreQueries Handlers JSFacts.

(** ** [Math.round(x * 100) / 100] *)

Lemma round2_close (x : Q) :
  (x - (1 # 200) < round2 x)%Q /\ (round2 x <= x + (1 # 200))%Q.
Proof.
  unfold round2.
  pose proof (Qfloor_le (x * 100 + (1 # 2))) as Hle.
  pose proof (Qlt_floor (x * 100 + (1 # 2))) as Hlt.
  rewrite inject_Z_plus in Hlt.
  set (f := inject_Z (Qfloor (x * 100 + (1 # 2)))) in *.
  change (inject_Z 1) with 1%Q in Hlt.
  split.
  - apply Qlt_shift_div_l; [reflexivity|]. lra.
  - apply Qle_shift_div_r; [reflexivity|]. lra.
Qed.

Lemma round2_unit (x : Q) :
  (0 <= x)%Q -> (x <= 1)%Q -> (0 <= round2 x)%Q /\ (round2 x <= 1)%Q.
Proof.
  intros H0 H1. unfold round2.
  assert (Hlo : (0 <= Qfloor (x * 100 + (1 # 2)))%Z).
  { apply Z.le_trans with (Qfloor 0); [discriminate|].
    apply Qfloor_resp_le. lra. }
  assert (Hhi : (Qfloor (x * 100 + (1 # 2)) <= 100)%Z).
  { apply Z.le_trans with (Qfloor (100 + (1 # 2))); [|discriminate].
    apply Qfloor_resp_le. lra. }
  split.
  - apply Qle_shift_div_l; [reflexivity|].
    rewrite Qmult_0_l. change 0%Q with (inject_Z 0). now rewrite <- Zle_Qle.
  - apply Qle_shift_div_r; [reflexivity|].
    change (1 * 100)%Q with (inject_Z 100). now rewrite <- Zle_Qle.
Qed.

(** ** [themesFound] *)

Lemma noteTheme_fold (stats : JsMap ThemeStats) (name : string)
  (ts : list Theme) (found : JsMap ThemeStats) :
  mapGet name (fold_left (noteTheme stats) ts found) =
    match mapGet name found with
    | Some s => Some s
    | None =>
        if existsb (named name) ts && negb (arrayIncludes inheritedNames name)
        then Some (match mapGet name stats with
                   | Some s => s
                   | None => noStats
                   end)
        else None
    end.
Proof.
  revert found; induction ts as [|t ts IH]; intros found.
  - simpl. destruct (mapGet name found); reflexivity.
  - cbn [fold_left existsb]. rewrite IH. unfold noteTheme at 1.
    destruct (named name t) eqn:E.
    + unfold named in E. apply String.eqb_eq in E. rewrite <- E.
      destruct (mapGet name found) as [s|] eqn:Hf; [now rewrite Hf|].
      destruct (arrayIncludes inheritedNames name) eqn:Hi.
      * rewrite Hf. now rewrite andb_false_r.
      * rewrite StoreQueriesFacts.mapGet_mapSet, String.eqb_refl. reflexivity.
    + assert (Hsame :
        mapGet name
          (if match mapGet (th_name t) found with
              | Some _ => true
              | None => arrayIncludes inheritedNames (th_name t)
              end
           then found
           else mapSet (th_name t)
                  match mapGet (th_name t) stats with
                  | Some s => s
                  | None => noStats
                  end found) = mapGet name found).
      { match goal with |- context [if ?c then _ else _] => destruct c end;
          [reflexivity|].
        rewrite StoreQueriesFacts.mapGet_mapSet. unfold named in E. now rewrite E. }
      rewrite Hsame. reflexivity.
Qed.

Section WithStore.

Variable getTime : string -> option Z.
Variable sqlWhere : list DocumentRow -> string -> result (list DocumentRow).
Variable vectorSearch :
  forall A : Type, (A -> Vector) -> list A -> Vector -> nat -> result (list (Hit A)).
Variable create :
  nat -> Embedder.EmbeddingRequest -> result Embedder.EmbeddingResponse.

(** ** [handleListDocuments] *)

(** [total_count] is the number of rows that pass the folder filter,
    whatever the limit; the listing has [limit] entries (20 without a
    limit) or all of them if there are fewer, and each entry is made from
    a row that passes the filter. *)
Theorem handleListDocuments_counts (db : Database) (folder : option string)
  (limit : option nat) :
  let matching :=
    filter (fun row => folderMatches folder (row_folders row)) (rowsOf db) in
  let n := match limit with Some n => n | None => 20%nat end in
  let listing := handleListDocuments getTime db folder limit in
  total_count listing = List.length matching /\
  List.length (listed listing) = Nat.min n (List.length matching) /\
  forall d, In d (listed listing) ->
    exists row, In row matching /\ d = toListed (toSummary row).
Proof.
  intros matching n listing.
  pose proof (StoreQueriesFacts.getAllDocuments_perm getTime db folder) as Hperm.
  assert (Hlen : List.length (getAllDocuments getTime db folder)
                 = List.length matching).
  { rewrite (Permutation_length Hperm). apply length_map. }
  split; [exact Hlen|]. split.
  - unfold listing, handleListDocuments. cbn [listed].
    rewrite length_map, length_firstn, Hlen. reflexivity.
  - intros d Hd. unfold listing, handleListDocuments in Hd. cbn [listed] in Hd.
    apply in_map_iff in Hd. destruct Hd as [doc [<- Hdoc]].
    apply VectorStoreFacts.In_firstn in Hdoc.
    apply (Permutation_in _ Hperm) in Hdoc.
    apply in_map_iff in Hdoc. destruct Hdoc as [row [<- Hrow]].
    exists row. split; [exact Hrow | reflexivity].
Qed.

(** ** [handleSearchThemes] *)

Lemma themeMatch_more (db : Database) (theme : string) (doc : DocumentSummary)
  (docs : list DocumentSummary) (ds : list ThemeDocument) :
  Forall (themeMatch sqlWhere db theme docs) ds ->
  Forall (themeMatch sqlWhere db theme (doc :: docs)) ds.
Proof.
  apply Forall_impl. intros d (doc' & fullDoc & themeData & Hin & H).
  exists doc', fullDoc, themeData. split; [right; exact Hin | exact H].
Qed.

(** The loop appends entries made from the documents it is given, adds
    their evidence to the total, and stops at [limit] entries. *)
Lemma themeLoop_spec (db : Database) (theme : string) (limit : nat)
  (docs : list DocumentSummary) :
  forall (matchingDocs : list ThemeDocument) (totalEvidence : nat),
  exists new,
    themeLoop sqlWhere db theme limit docs matchingDocs totalEvidence =
      ((matchingDocs ++ new)%list, (totalEvidence + evidenceCount new)%nat) /\
    Forall (themeMatch sqlWhere db theme docs) new /\
    ((List.length matchingDocs < limit)%nat ->
     (List.length (matchingDocs ++ new) <= limit)%nat).
Proof.
  induction docs as [|doc rest IH]; intros matchingDocs totalEvidence.
  - exists []. cbn [themeLoop]. unfold evidenceCount. simpl.
    rewrite app_nil_r, Nat.add_0_r. repeat split; [constructor | lia].
  - cbn [themeLoop].
    destruct (getDocumentById sqlWhere db (sum_id doc)) as [fullDoc|] eqn:Hfull.
    2:{ destruct (IH matchingDocs totalEvidence) as (new & Hrun & Hnew & Hlen).
        exists new. split; [exact Hrun|]. split; [now apply themeMatch_more | exact Hlen]. }
    destruct (find (fun t => String.eqb (th_name t) theme) (det_themes fullDoc))
      as [themeData|] eqn:Hfind.
    2:{ destruct (IH matchingDocs totalEvidence) as (new & Hrun & Hnew & Hlen).
        exists new. split; [exact Hrun|]. split; [now apply themeMatch_more | exact Hlen]. }
    apply find_some in Hfind. destruct Hfind as [Hin Hname].
    apply String.eqb_eq in Hname.
    set (entry := {| td_id := det_id fullDoc;
                     td_title := det_title fullDoc;
                     td_folders := det_folders fullDoc;
                     td_date := datePart (det_created_at fullDoc);
                     td_evidence := th_evidence themeData;
                     td_key_quotes :=
                       filter (quoteHasTheme theme) (det_key_quotes fullDoc) |}).
    assert (Hentry : themeMatch sqlWhere db theme (doc :: rest) entry).
    { exists doc, fullDoc, themeData. repeat split; auto. now left. }
    destruct (Nat.leb_spec limit (List.length (matchingDocs ++ [entry])))
      as [Hfull'|Hroom].
    + exists [entry]. unfold evidenceCount. simpl. rewrite Nat.add_0_r.
      split; [reflexivity|]. split; [constructor; [exact Hentry | constructor]|].
      rewrite length_app. simpl. lia.
    + destruct (IH (matchingDocs ++ [entry])%list
                   (totalEvidence + List.length (th_evidence themeData))%nat)
        as (new & Hrun & Hnew & Hlen).
      exists (entry :: new). rewrite Hrun. unfold evidenceCount. simpl.
      rewrite <- app_assoc, Nat.add_assoc. simpl.
      split; [reflexivity|].
      split; [constructor; [exact Hentry | now apply themeMatch_more]|].
      intros _. specialize (Hlen Hroom). now rewrite <- app_assoc in Hlen.
Qed.

(** [handleSearchThemes] answers for the theme it was asked; a theme that
    is not a registry id gets no documents; there are at most [limit]
    documents (10 without a limit); [total_evidence_count] is the number
    of evidence items in the documents returned; and each of them is made
    from one of the first [2 * limit] listed documents, from a theme of
    that name in its details, with the key quotes that carry the theme. *)
Theorem handleSearchThemes_returns (db : Database) (theme : string)
  (folder : option string) (limit : option nat) :
  let n := match limit with Some n => n | None => 10%nat end in
  let found := handleSearchThemes getTime sqlWhere db theme folder limit in
  tsr_theme found = theme /\
  (In theme Themes.getThemeNames \/ tsr_documents found = []) /\
  (List.length (tsr_documents found) <= n)%nat /\
  tsr_total_evidence_count found = evidenceCount (tsr_documents found) /\
  Forall (themeMatch sqlWhere db theme
            (firstn (n * 2) (getAllDocuments getTime db folder)))
    (tsr_documents found).
Proof.
  intros n found. unfold found, handleSearchThemes. fold n.
  destruct (Themes.getThemeById theme) as [definition|] eqn:Hdef.
  2:{ cbn. repeat split; [right; reflexivity | lia | constructor]. }
  apply find_some in Hdef. destruct Hdef as [Hin Hid].
  apply String.eqb_eq in Hid.
  assert (Hknown : In theme Themes.getThemeNames).
  { unfold Themes.getThemeNames. rewrite <- Hid. now apply in_map. }
  destruct (themeLoop_spec db theme n
              (firstn (n * 2) (getAllDocuments getTime db folder)) [] 0)
    as (new & Hrun & Hnew & Hlen).
  rewrite Hrun. cbn [tsr_theme tsr_documents tsr_total_evidence_count app].
  split; [reflexivity|]. split; [left; exact Hknown|].
  split; [|split; [reflexivity | exact Hnew]].
  destruct n as [|n'].
  - cbn [Nat.mul firstn themeLoop] in Hrun. injection Hrun as Hempty _.
    rewrite <- Hempty. simpl. lia.
  - apply Hlen. simpl. lia.
Qed.

(** ** [handleGetDocument] *)

(** ** [handleSearch] *)

(** [handleSearch] throws exactly when the embedding of the query fails,
    without a search; otherwise it answers with one result per document
    found by [searchDocuments], in that order: the relevance score is the
    score of the document to within half a hundredth (and between 0 and 1
    when the score is), the key quotes are the first three of the
    document, and [themes_found] has an entry exactly for the theme names
    of the documents found that no object inherits, holding the
    statistics of [getThemeStats] for that name (zero counts when there
    are none). *)
Theorem handleSearch_response (p : Embedder.Process) (db : Database)
  (query : string) (folder : option string) (limit : option nat) :
  let n := match limit with Some n => n | None => 5%nat end in
  match fst (Embedder.generateEmbedding create p query Embedder.DEFAULT_MODEL) with
  | Throw e =>
      handleSearch vectorSearch create p db query folder limit = Throw e
  | Ok queryVector =>
      let docs := searchDocuments vectorSearch db queryVector n folder in
      exists response,
        handleSearch vectorSearch create p db query folder limit = Ok response /\
        rsp_query response = query /\
        Forall2
          (fun doc r =>
             sr_id r = res_id doc /\
             (res_score doc - (1 # 200) < sr_relevance_score r)%Q /\
             (sr_relevance_score r <= res_score doc + (1 # 200))%Q /\
             ((0 <= res_score doc)%Q -> (res_score doc <= 1)%Q ->
              (0 <= sr_relevance_score r)%Q /\ (sr_relevance_score r <= 1)%Q) /\
             sr_key_quotes r = firstn 3 (res_key_quotes doc) /\
             sr_total_quotes_available r = List.length (res_key_quotes doc))
          docs (rsp_results response) /\
        forall name,
          mapGet name (rsp_themes_found response) =
            if existsb (named name) (flat_map res_themes docs) &&
               negb (arrayIncludes inheritedNames name)
            then Some (match mapGet name (getThemeStats db) with
                       | Some s => s
                       | None => noStats
                       end)
            else None
  end.
Proof.
  intros n. unfold handleSearch. fold n.
  destruct (fst (Embedder.generateEmbedding create p query Embedder.DEFAULT_MODEL))
    as [queryVector|e]; [|reflexivity].
  cbv zeta. generalize (searchDocuments vectorSearch db queryVector n folder).
  intros docs. eexists. split; [reflexivity|].
  cbn [rsp_query rsp_results rsp_themes_found]. split; [reflexivity|]. split.
  - induction docs as [|doc rest IH]; simpl; constructor; [|exact IH].
    destruct (round2_close (res_score doc)) as [Hlo Hhi].
    repeat split; try assumption; now apply round2_unit.
  - intros name.
    rewrite (StoreQueriesFacts.fold_left_flat_map
               (noteTheme (getThemeStats db)) res_themes docs []).
    apply (noteTheme_fold (getThemeStats db) name (flat_map res_themes docs) []).
Qed.

End WithStore.

(** ** [handleGetThemes] *)

Lemma no_occurrence_no_evidence (name : string) (table : list DocumentRow) :
  themeOccurrences name table = 0%nat -> themeEvidence name table = 0%nat.
Proof.
  unfold themeOccurrences, themeEvidence. intros H.
  apply length_zero_iff_nil in H. now rewrite H.
Qed.

(** [handleGetThemes] lists the themes of the registry, in its order, each
    with the number of themes of that id in the rows of the table and the
    number of their evidence items; a missing table gives zero counts. *)
Theorem handleGetThemes_statistics (db : Database) :
  map ti_id (handleGetThemes db) = Themes.getThemeNames /\
  forall info, In info (handleGetThemes db) ->
    ti_document_count info = themeOccurrences (ti_id info) (rowsOf db) /\
    ti_total_quotes info = themeEvidence (ti_id info) (rowsOf db).
Proof.
  split.
  - unfold handleGetThemes, Themes.getThemeNames. rewrite map_map. reflexivity.
  - intros info Hinfo. unfold handleGetThemes in Hinfo.
    apply in_map_iff in Hinfo. destruct Hinfo as [definition [<- _]].
    cbn [ti_id ti_document_count ti_total_quotes].
    rewrite StoreQueriesFacts.getThemeStats_get.
    destruct (Nat.eqb_spec (themeOccurrences (Themes.id definition) (rowsOf db)) 0)
      as [Hzero|_]; [|split; reflexivity].
    rewrite (no_occurrence_no_evidence _ _ Hzero), Hzero. split; reflexivity.
Qed.

End HandlersFacts.

(* ================================================================== *)
(** * The insight extractor: what a call sends and returns             *)
(* ================================================================== *)
Module ExtractorRunFacts.

Import Types(Speaker, me, participant).
Import InsightExtractor JSFacts.

Lemma orElse_truthy_default (v : value) (d : json) :
  truthy (Some d) = true -> truthy (Some (orElse v d)) = true.
Proof.
  intros Hd. unfold orElse. destruct v as [x|]; [|exact Hd].
  destruct (truthy (Some x)) eqn:Hx; [exact Hx | exact Hd].
Qed.

Section Run.

Variable JSON_parse : string -> result json.
Variable coerceGt0 : json -> result bool.
Variable systemPromptText : string -> string.
Variable chat : nat -> ChatRequest -> result ChatCompletion.

Lemma repair_summary (names : list string) (parsed : json) (r : ExtractedInsights) :
  repair coerceGt0 names parsed = Ok r ->
  truthy (Some (insights_summary r)) = true.
Proof.
  unfold repair. intros H.
  inv_bind H. inv_bind H. inv_bind H. inv_bind H. inv_bind H. inv_bind H.
  inv_bind H. injection H as <-. cbn [insights_summary].
  now apply orElse_truthy_default.
Qed.

(** From attempt [attempt] on, the loop sends the same request [j] times,
    for some [j] from 1 up to the attempts that are left, sleeps the
    backoff of every attempt but the last, and ends with the result of
    the last attempt or the degraded result. *)
Lemma attemptLoop_trace (names : list string) (rq : ChatRequest) (notes : string) :
  forall fuel attempt tr,
    (1 <= attempt <= maxRetries)%nat -> (maxRetries - attempt < fuel)%nat ->
    exists j,
      (1 <= j)%nat /\ (attempt + j <= maxRetries + 1)%nat /\
      requests (snd (attemptLoop JSON_parse coerceGt0 chat fuel names rq notes attempt tr))
        = (requests tr ++ repeat rq j)%list /\
      sleeps (snd (attemptLoop JSON_parse coerceGt0 chat fuel names rq notes attempt tr))
        = (sleeps tr ++ map backoff (seq attempt (j - 1)))%list /\
      (fst (attemptLoop JSON_parse coerceGt0 chat fuel names rq notes attempt tr)
         = degraded notes \/
       attemptBody JSON_parse coerceGt0 chat names rq (attempt + j - 1)
         = Ok (fst (attemptLoop JSON_parse coerceGt0 chat fuel names rq notes attempt tr))).
Proof.
  induction fuel as [|fuel IH]; intros attempt tr Ha Hfuel; [lia|].
  cbn [attemptLoop].
  destruct (Nat.leb_spec attempt maxRetries) as [_|Hgt]; [|lia].
  destruct (attemptBody JSON_parse coerceGt0 chat names rq attempt) as [r|e] eqn:Hbody.
  - exists 1%nat. cbn [fst snd sent requests sleeps].
    replace (attempt + 1 - 1)%nat with attempt by lia.
    split; [lia|]. split; [lia|]. split; [reflexivity|].
    split; [symmetry; apply app_nil_r | right; exact Hbody].
  - destruct (isRetryable e && (attempt <? maxRetries)%nat) eqn:Hretry.
    + apply andb_true_iff in Hretry. destruct Hretry as [_ Hlt].
      apply Nat.ltb_lt in Hlt.
      destruct (IH (S attempt) (slept (backoff attempt) (sent rq tr)))
        as (j & Hj1 & Hj2 & Hreq & Hsl & Hres); [lia | lia |].
      exists (S j). split; [lia|]. split; [lia|].
      split; [|split].
      * rewrite Hreq. cbn [sent slept requests repeat].
        now rewrite <- app_assoc.
      * rewrite Hsl. cbn [sent slept sleeps]. rewrite <- app_assoc.
        replace (S j - 1)%nat with (S (j - 1)) by lia. reflexivity.
      * destruct Hres as [Hdeg|Hok]; [left; exact Hdeg | right].
        now replace (attempt + S j - 1)%nat with (S attempt + j - 1)%nat by lia.
    + exists 1%nat. cbn [fst snd sent requests sleeps].
      split; [lia|]. split; [lia|]. split; [reflexivity|].
      split; [symmetry; apply app_nil_r | left; reflexivity].
Qed.

(** A call of [extractInsights] that returns has sent one and the same
    request, built from its arguments, at least once and at most three
    times; it has slept 2000 ms after the first and 4000 ms after the
    second request if it sent that many, and not otherwise; and its
    result is the repaired output of the last request or the degraded
    result. *)
Theorem extractInsights_trace (p : Process)
  (transcript notes title model : string)
  (r : ExtractedInsights) (tr : Trace) :
  extractInsights JSON_parse coerceGt0 systemPromptText chat
    p transcript notes title model = Ok (r, tr) ->
  exists j,
    (1 <= j <= 3)%nat /\
    requests tr =
      repeat (buildRequest systemPromptText transcript notes title model) j /\
    sleeps tr = firstn (j - 1) [2000%Z; 4000%Z] /\
    (r = degraded notes \/
     attemptBody JSON_parse coerceGt0 chat Themes.getThemeNames
       (buildRequest systemPromptText transcript notes title model) j = Ok r).
Proof.
  intros H. apply ExtractorFacts.extractInsights_Ok in H.
  destruct (@attemptLoop_trace Themes.getThemeNames
              (buildRequest systemPromptText transcript notes title model) notes
              maxRetries 1%nat noTrace)
    as (j & Hj1 & Hj2 & Hreq & Hsl & Hres);
    [unfold maxRetries; lia | unfold maxRetries; lia |].
  rewrite H in Hreq, Hsl, Hres. cbn [fst snd] in Hreq, Hsl, Hres.
  unfold maxRetries in Hj2. exists j. split; [lia|].
  split; [exact Hreq|]. split.
  - rewrite Hsl. simpl.
    destruct j as [|[|[|[|j']]]]; try lia; reflexivity.
  - destruct Hres as [Hdeg|Hok]; [left; exact Hdeg | right].
    now replace (1 + j - 1)%nat with j in Hok by lia.
Qed.

(** Whatever the model answers, a result that [extractInsights] returns
    has a summary that is not empty (nor any other falsy value), and
    every theme in it is named by a registry id and holds only evidence
    whose text has positive length. *)
Theorem extractInsights_result_valid (p : Process)
  (transcript notes title model : string)
  (r : ExtractedInsights) (tr : Trace) :
  extractInsights JSON_parse coerceGt0 systemPromptText chat
    p transcript notes title model = Ok (r, tr) ->
  truthy (Some (insights_summary r)) = true /\
  forall th, In th (themes r) ->
    (exists s, th_name th = Some (JStr s) /\ In s Themes.getThemeNames) /\
    (forall e, In e (th_evidence th) ->
       lengthGt0 coerceGt0 (ev_text e) = Ok true /\ ev_text e <> JStr "").
Proof.
  intros H. apply ExtractorFacts.extractInsights_Ok in H.
  pose proof (ExtractorFacts.attemptLoop_cases JSON_parse coerceGt0 chat
                maxRetries Themes.getThemeNames
                (buildRequest systemPromptText transcript notes title model)
                notes 1 noTrace) as Hcases.
  rewrite H in Hcases. cbn [fst] in Hcases.
  destruct Hcases as [-> | [n Hbody]].
  - split; [|intros th []].
    unfold degraded. cbn [insights_summary]. now apply orElse_truthy_default.
  - apply ExtractorFacts.attemptBody_Ok in Hbody.
    destruct Hbody as (response & c & parsed & _ & _ & _ & Hrep).
    split; [exact (repair_summary _ _ Hrep)|].
    intros th Hth.
    destruct (ExtractorFacts.repaired_themes_valid _ _ _ Hrep th Hth) as [Hname Hev].
    split; [exact Hname|]. intros e He. destruct (Hev e He) as [Hlen _].
    split; [exact Hlen|]. intros E. rewrite E in Hlen.
    rewrite ExtractorFacts.lengthGt0_empty in Hlen. discriminate.
Qed.

End Run.

(** At a provider that fails with a connection error at every attempt:
    three requests, delays of 2000 and 4000 ms, the degraded result. *)
Lemma extractInsights_trace_witness :
  exists r tr,
    extractInsights (Samples.parseTo Samples.quotesOutput) Samples.noCoercion
      Samples.promptText (Samples.failWith "Connection error.")
      Samples.withKey "" "notes" "Sync" "gpt-4o-mini" = Ok (r, tr) /\
    List.length (requests tr) = 3%nat /\
    sleeps tr = [2000%Z; 4000%Z] /\
    exists j,
      (1 <= j <= 3)%nat /\
      requests tr =
        repeat (buildRequest Samples.promptText "" "notes" "Sync" "gpt-4o-mini") j.
Proof.
  eexists _, _. split; [reflexivity|]. split; [reflexivity|].
  split; [reflexivity|].
  destruct (@extractInsights_trace
              (Samples.parseTo Samples.quotesOutput) Samples.noCoercion
              Samples.promptText (Samples.failWith "Connection error.")
              Samples.withKey "" "notes" "Sync" "gpt-4o-mini" _ _ eq_refl)
    as (j & Hj & Hreq & _).
  exists j. split; [exact Hj | exact Hreq].
Defined.

(** At the model output with three key quotes. *)
Lemma extractInsights_result_valid_witness :
  extractInsights (Samples.parseTo Samples.quotesOutput) Samples.noCoercion
    Samples.promptText (Samples.replyWith "{}")
    Samples.withKey "" "notes" "Sync" "gpt-4o-mini" = Ok Samples.quotesResult /\
  truthy (Some (insights_summary (fst Samples.quotesResult))) = true.
Proof.
  split; [reflexivity|].
  exact (proj1 (@extractInsights_result_valid
                  (Samples.parseTo Samples.quotesOutput) Samples.noCoercion
                  Samples.promptText (Samples.replyWith "{}")
                  Samples.withKey "" "notes" "Sync" "gpt-4o-mini"
                  (fst Samples.quotesResult) (snd Samples.quotesResult) eq_refl)).
Defined.

End ExtractorRunFacts.

(* ================================================================== *)
(** * The embedding generator: batches                                 *)
(* ================================================================== *)
Module EmbedderRunFacts.

Import Types(Vector).
Import Embedder Observations JSFacts.

Lemma delays_app (l1 l2 : list Event) :
  delays (l1 ++ l2) = (delays l1 ++ delays l2)%list.
Proof.
  induction l1 as [|[rq|ms|c t] l1 IH]; simpl; [reflexivity| | |]; now rewrite IH.
Qed.

Lemma textsSent_nil_requests (log : list Event) :
  sentRequests log = [] -> textsSent log = [].
Proof. unfold textsSent. now intros ->. Qed.

Section Batches.

Variable create : nat -> EmbeddingRequest -> result EmbeddingResponse.

(** What the batch loop adds to the log, with a positive batch size:
    requests for the given model that carry from 1 to [batchSize] texts
    each; together they carry the truncated texts from position [i] on,
    in order, up to where the loop stopped, and all of them if the loop
    completes; a completed loop has paused 100 ms between two requests. *)
Lemma batchLoop_batches (texts : list string) (model : string) (batchSize : nat) :
  (0 < batchSize)%nat ->
  forall fuel i callNo results log outcome log',
    batchLoop create fuel texts model batchSize i callNo results log
      = Some (outcome, log') ->
    exists new rest,
      log' = (log ++ new)%list /\
      Forall (fun rq => rq_model rq = model /\
                        (1 <= List.length (inputTexts rq) <= batchSize)%nat)
             (sentRequests new) /\
      map (substring0 MAX_CHARS) (skipn i texts) = (textsSent new ++ rest)%list /\
      (forall vs, outcome = Ok vs ->
         rest = [] /\
         delays new = repeat 100%Z (List.length (sentRequests new) - 1)).
Proof.
  intros Hpos.
  assert (Hdone : forall fuel i callNo results log outcome log',
            (List.length texts <= i)%nat ->
            batchLoop create fuel texts model batchSize i callNo results log
              = Some (outcome, log') ->
            outcome = Ok results /\ log' = log).
  { intros fuel i callNo results log outcome log' Hi.
    destruct fuel; cbn [batchLoop];
      (destruct (Nat.ltb_spec i (List.length texts)) as [Hlt|_]; [lia|]);
      intros Hsome; injection Hsome as <- <-; auto. }
  induction fuel as [|fuel IH]; intros i callNo results log outcome log' Hrun.
  - destruct (Nat.le_gt_cases (List.length texts) i) as [Hi|Hi].
    + destruct (Hdone _ _ _ _ _ _ _ Hi Hrun) as [-> ->].
      exists [], []. rewrite app_nil_r, skipn_all2 by assumption.
      repeat split; constructor.
    + cbn [batchLoop] in Hrun.
      destruct (Nat.ltb_spec i (List.length texts)); [discriminate | lia].
  - destruct (Nat.le_gt_cases (List.length texts) i) as [Hi|Hi].
    + destruct (Hdone _ _ _ _ _ _ _ Hi Hrun) as [-> ->].
      exists [], []. rewrite app_nil_r, skipn_all2 by assumption.
      repeat split; constructor.
    + cbn [batchLoop] in Hrun.
      destruct (Nat.ltb_spec i (List.length texts)) as [_|]; [|lia].
      set (batch := slice i batchSize texts) in *.
      set (rq := {| rq_model := model;
                    rq_input := Many (map (substring0 MAX_CHARS) batch) |}) in *.
      assert (Hbatch : (1 <= List.length (inputTexts rq) <= batchSize)%nat).
      { unfold rq, inputTexts, batch, slice. cbn [rq_input].
        rewrite length_map, length_firstn, length_skipn. lia. }
      assert (Hsplit : map (substring0 MAX_CHARS) (skipn i texts) =
                       (inputTexts rq ++
                        map (substring0 MAX_CHARS) (skipn (i + batchSize) texts))%list).
      { unfold rq, inputTexts, batch. cbn [rq_input].
        rewrite <- map_app. f_equal. apply EmbedderFacts.slice_then_rest. }
      destruct (create callNo rq) as [response|e].
      * cbv zeta in Hrun.
        match type of Hrun with
        | batchLoop _ _ _ _ _ _ _ _ ?l = _ => set (log1 := l) in *
        end.
        destruct (IH _ _ _ _ _ _ Hrun) as (new & rest & -> & Hreqs & Htexts & Hok).
        destruct (Nat.ltb_spec (i + batchSize) (List.length texts)) as [Hmore|Hlast].
        -- exists ([Sent rq;
                    Progress (Nat.min (i + batchSize) (List.length texts))
                             (List.length texts);
                    Slept 100%Z] ++ new)%list, rest.
           split; [unfold log1; now rewrite <- !app_assoc|].
           split; [cbn [app sentRequests]; constructor;
                     [split; [reflexivity | exact Hbatch] | exact Hreqs]|].
           split.
           ++ rewrite Hsplit, Htexts. unfold textsSent.
              cbn [app sentRequests map List.concat]. now rewrite <- app_assoc.
           ++ intros vs Hvs. destruct (Hok vs Hvs) as [-> Hdelays].
              split; [reflexivity|].
              cbn [app sentRequests delays List.length Nat.sub].
              rewrite Nat.sub_0_r, Hdelays.
              rewrite app_nil_r in Htexts.
              destruct (sentRequests new) as [|rq' rqs] eqn:Hsent.
              ** apply textsSent_nil_requests in Hsent. rewrite Hsent in Htexts.
                 apply (f_equal (@List.length string)) in Htexts.
                 rewrite length_map, length_skipn in Htexts.
                 cbn [List.length] in Htexts. lia.
              ** cbn [List.length Nat.sub repeat]. now rewrite Nat.sub_0_r.
        -- exists ([Sent rq;
                    Progress (Nat.min (i + batchSize) (List.length texts))
                             (List.length texts)] ++ new)%list, rest.
           split; [unfold log1; now rewrite <- !app_assoc|].
           split; [cbn [app sentRequests]; constructor;
                     [split; [reflexivity | exact Hbatch] | exact Hreqs]|].
           split.
           ++ rewrite Hsplit, Htexts. unfold textsSent.
              cbn [app sentRequests map List.concat]. now rewrite <- app_assoc.
           ++ intros vs Hvs. destruct (Hok vs Hvs) as [-> Hdelays].
              split; [reflexivity|].
              cbn [app sentRequests delays List.length Nat.sub].
              rewrite Nat.sub_0_r, Hdelays.
              rewrite app_nil_r in Htexts.
              rewrite skipn_all2 in Htexts by assumption. cbn [map] in Htexts.
              destruct (sentRequests new) as [|rq' rqs] eqn:Hsent; [reflexivity|].
              exfalso. unfold textsSent in Htexts. rewrite Hsent in Htexts.
              apply Forall_inv in Hreqs. destruct Hreqs as [_ Hlen].
              cbn [map List.concat] in Htexts.
              destruct (inputTexts rq'); [cbn [List.length] in Hlen; lia|].
              discriminate.
      * injection Hrun as <- <-.
        exists [Sent rq],
          (map (substring0 MAX_CHARS) (skipn (i + batchSize) texts)).
        split; [reflexivity|].
        split; [cbn [sentRequests]; constructor;
                  [split; [reflexivity | exact Hbatch] | constructor]|].
        split; [rewrite Hsplit; unfold textsSent;
                cbn [sentRequests map List.concat]; now rewrite app_nil_r|].
        intros vs Hvs. discriminate.
Qed.

(** With a positive batch size the loop ends within as many rounds as
    there are texts left. *)
Lemma batchLoop_ends (texts : list string) (model : string) (batchSize : nat) :
  (0 < batchSize)%nat ->
  forall fuel i callNo results log,
    (List.length texts - i <= fuel)%nat ->
    exists outcome log',
      batchLoop create fuel texts model batchSize i callNo results log
        = Some (outcome, log').
Proof.
  intros Hpos. induction fuel as [|fuel IH]; intros i callNo results log Hfuel.
  - cbn [batchLoop]. destruct (Nat.ltb_spec i (List.length texts)); [lia|].
    eexists _, _. reflexivity.
  - cbn [batchLoop]. destruct (Nat.ltb_spec i (List.length texts));
      [|eexists _, _; reflexivity].
    destruct (create callNo _) as [response|e]; [|eexists _, _; reflexivity].
    cbv zeta. apply IH. lia.
Qed.

(** With a positive batch size, [generateEmbeddings] returns or throws,
    whatever the provider answers.  Each request it sent is for the given
    model and carries between 1 and [batchSize] texts; the texts of the
    requests, in the order sent, are the texts it was given, each cut to
    8000 characters, up to the batch at which it stopped, and all of them
    when it returns; in that case it has paused 100 ms between every two
    requests. *)
Theorem generateEmbeddings_batches (p : Process) (texts : list string)
  (model : string) (batchSize : nat) :
  (0 < batchSize)%nat ->
  exists outcome log rest,
    generateEmbeddings create p texts model batchSize = Some (outcome, log) /\
    Forall (fun rq => rq_model rq = model /\
                      (1 <= List.length (inputTexts rq) <= batchSize)%nat)
           (sentRequests log) /\
    map (substring0 MAX_CHARS) texts = (textsSent log ++ rest)%list /\
    (forall vs, outcome = Ok vs ->
       rest = [] /\
       delays log = repeat 100%Z (List.length (sentRequests log) - 1)).
Proof.
  intros Hpos. unfold generateEmbeddings.
  destruct (getOpenAI p) as [p'|e].
  - destruct (@batchLoop_ends texts model batchSize Hpos
                (List.length texts) 0%nat 1%nat [] [])
      as (outcome & log & Hrun); [lia|].
    destruct (@batchLoop_batches texts model batchSize Hpos _ _ _ _ _ _ _ Hrun)
      as (new & rest & -> & Hreqs & Htexts & Hok).
    exists outcome, new, rest. split; [exact Hrun|].
    split; [exact Hreqs|]. split; [exact Htexts | exact Hok].
  - exists (Throw e), [], (map (substring0 MAX_CHARS) texts).
    split; [reflexivity|]. split; [constructor|].
    split; [reflexivity | intros vs Hvs; discriminate].
Qed.

Lemma batchLoop_stuck (texts : list string) (model : string) :
  (forall n rq, exists response, create n rq = Ok response) ->
  forall fuel i callNo results log,
    (i < List.length texts)%nat ->
    batchLoop create fuel texts model 0 i callNo results log = None.
Proof.
  intros Hanswers. induction fuel as [|fuel IH]; intros i callNo results log Hi;
    cbn [batchLoop];
    (destruct (Nat.ltb_spec i (List.length texts)) as [_|]; [|lia]);
    [reflexivity|].
  destruct (Hanswers callNo
              {| rq_model := model;
                 rq_input := Many (map (substring0 MAX_CHARS) (slice i 0 texts)) |})
    as [response ->].
  cbv zeta. rewrite Nat.add_0_r. now apply IH.
Qed.

(** With a batch size of 0 the loop does not advance: given at least one
    text and a provider that answers every request, [generateEmbeddings]
    does not return, and its loop does not end however many rounds it is
    given. *)
Theorem generateEmbeddings_zero_batch (p : Process) (texts : list string)
  (model : string) :
  (exists p', getOpenAI p = Ok p') ->
  texts <> [] ->
  (forall n rq, exists response, create n rq = Ok response) ->
  generateEmbeddings create p texts model 0 = None /\
  forall fuel, batchLoop create fuel texts model 0 0 1 [] [] = None.
Proof.
  intros [p' Hp] Htexts Hanswers.
  assert (Hlen : (0 < List.length texts)%nat)
    by (destruct texts; [now elim Htexts | simpl; lia]).
  split.
  - unfold generateEmbeddings. rewrite Hp. now apply batchLoop_stuck.
  - intros fuel. now apply batchLoop_stuck.
Qed.

End Batches.

(** Three texts in batches of two, at a provider that reverses its
    answers. *)
Lemma generateEmbeddings_batches_witness :
  exists outcome log rest,
    generateEmbeddings Samples.reversing Samples.embedderWithKey
      ["a"; "bb"; "ccc"] "text-embedding-3-small" 2 = Some (outcome, log) /\
    map (substring0 MAX_CHARS) ["a"; "bb"; "ccc"] = (textsSent log ++ rest)%list.
Proof.
  destruct (@generateEmbeddings_batches Samples.reversing Samples.embedderWithKey
              ["a"; "bb"; "ccc"] "text-embedding-3-small" 2%nat)
    as (outcome & log & rest & Hrun & _ & Htexts & _); [lia|].
  exists outcome, log, rest. split; [exact Hrun | exact Htexts].
Defined.

Lemma generateEmbeddings_zero_batch_witness :
  generateEmbeddings Samples.reversing Samples.embedderWithKey
    ["a"; "bb"; "ccc"] "text-embedding-3-small" 0 = None.
Proof.
  apply (@generateEmbeddings_zero_batch Samples.reversing Samples.embedderWithKey
           ["a"; "bb"; "ccc"] "text-embedding-3-small").
  - eexists. reflexivity.
  - discriminate.
  - intros n [m [t|b]]; eexists; reflexivity.
Defined.

End EmbedderRunFacts.

(* ================================================================== *)
(** * The vector store: chunk search                                   *)
(* ================================================================== *)
Module ChunkSearchFacts.

Import Types VectorStore.

Lemma chunkTypeEqb_eq (a b : ChunkType) : chunkTypeEqb a b = true -> a = b.
Proof. destruct a, b; simpl; intros H; try reflexivity; discriminate H. Qed.

Section Search.

Variable vectorSearch :
  forall A : Type, (A -> Vector) -> list A -> Vector -> nat -> result (list (Hit A)).

(** [searchChunks] returns at most [limit] chunks, however many rows the
    search of the library returns; each is a row that this search
    returned when asked for [2 * limit] rows of the chunks table, it has
    the type asked for, if any, and the theme name asked for, if one is
    given and not empty. *)
Theorem searchChunks_filtered (db : Database) (q : Vector) (limit : nat)
  (type : option ChunkType) (themeName : option string) :
  (List.length (searchChunks vectorSearch db q limit type themeName) <= limit)%nat /\
  forall r, In r (searchChunks vectorSearch db q limit type themeName) ->
    (forall t, type = Some t -> cres_type r = t) /\
    (forall n, themeName = Some n -> n <> "" -> cres_theme_name r = n) /\
    exists table hits h,
      chunks db = Some table /\
      vectorSearch crow_vector table q (limit * 2) = Ok hits /\
      In h hits /\
      r = toChunkResult h.
Proof.
  unfold searchChunks.
  destruct (chunks db) as [table|] eqn:Htable; [|split; [simpl; lia | intros r []]].
  destruct (vectorSearch crow_vector table q (limit * 2)) as [hits|e] eqn:Hhits;
    [|split; [simpl; lia | intros r []]].
  split.
  - rewrite length_map. apply firstn_le_length.
  - intros r Hr. apply in_map_iff in Hr. destruct Hr as [h [<- Hh]].
    apply VectorStoreFacts.In_firstn, filter_In in Hh. destruct Hh as [Hin Hmatch].
    unfold chunkMatches in Hmatch. apply andb_true_iff in Hmatch.
    destruct Hmatch as [Htype Htheme].
    split; [|split].
    + intros t ->. cbn [toChunkResult cres_type]. now apply chunkTypeEqb_eq.
    + intros n -> Hn. cbn [toChunkResult cres_theme_name].
      destruct (String.eqb n "") eqn:E.
      * apply String.eqb_eq in E. contradiction.
      * now apply String.eqb_eq.
    + exists table, hits, h. repeat split; auto.
Qed.

End Search.

End ChunkSearchFacts.

(* ================================================================== *)
(** * The commands: documents, extraction, chunk ids                   *)
(* ================================================================== *)
Module PipelineFacts.

Import Types Orchestrator Observations OrchestratorFacts.

(** ** Strings *)

Lemma append_inv_head (a b c : string) : a ++ b = a ++ c -> b = c.
Proof.
  induction a as [|x a IH]; simpl; intros H; [exact H|].
  injection H as H. now apply IH.
Qed.

Lemma to_uint_nonnil (n : nat) : Nat.to_uint n <> Decimal.Nil.
Proof.
  intros H. pose proof (DecimalNat.Unsigned.of_to n) as E. rewrite H in E.
  simpl in E. subst n. discriminate H.
Qed.

Lemma showNat_inj (n m : nat) : showNat n = showNat m -> n = m.
Proof.
  unfold showNat. intros H.
  apply (f_equal DecimalString.NilZero.uint_of_string) in H.
  rewrite !DecimalString.NilZero.usu in H by apply to_uint_nonnil.
  injection H as H. now apply DecimalNat.Unsigned.to_uint_inj.
Qed.

Lemma NoDup_map_injective {A B} (f : A -> B) (l : list A) :
  (forall x y, f x = f y -> x = y) -> NoDup l -> NoDup (map f l).
Proof.
  intros Hinj. induction 1 as [|x l Hx Hl IH]; simpl; constructor; [|exact IH].
  intros Hin. apply in_map_iff in Hin. destruct Hin as [y [Hy Hin]].
  apply Hinj in Hy. now subst y.
Qed.

(** The ids of the chunks of one document are pairwise distinct when the
    theme names are. *)
Lemma chunk_ids_NoDup (docId : string) (insights : ExtractedInsights) :
  NoDup (map th_name (themes insights)) ->
  NoDup (summaryChunkId docId ::
         themeChunkIds docId insights ++ quoteChunkIds docId insights)%list.
Proof.
  intros Hnames. constructor.
  - rewrite in_app_iff. unfold themeChunkIds, quoteChunkIds.
    rewrite !in_map_iff. intros [[t [H _]] | [i [H _]]];
      unfold summaryChunkId, themeChunkId, quoteChunkId in H;
      apply append_inv_head in H; discriminate H.
  - apply NoDup_app.
    + unfold themeChunkIds.
      rewrite <- (map_map th_name (fun n => themeChunkId docId n)).
      apply NoDup_map_injective; [|exact Hnames].
      intros x y H. unfold themeChunkId in H.
      now apply append_inv_head, append_inv_head in H.
    + unfold quoteChunkIds. apply NoDup_map_injective; [|apply seq_NoDup].
      intros x y H. unfold quoteChunkId in H.
      apply append_inv_head, append_inv_head in H. now apply showNat_inj.
    + unfold themeChunkIds, quoteChunkIds. intros id Ht Hq.
      apply in_map_iff in Ht. destruct Ht as [t [Ht _]].
      apply in_map_iff in Hq. destruct Hq as [i [Hq _]].
      rewrite <- Hq in Ht. unfold themeChunkId, quoteChunkId in Ht.
      apply append_inv_head in Ht. discriminate Ht.
Qed.

Lemma filter_all {A} (l : list A) : filter (fun _ => true) l = l.
Proof. induction l as [|a l IH]; simpl; [reflexivity | now rewrite IH]. Qed.

Lemma forEach_ext {W A} (f g : A -> M W unit) (l : list A) :
  (forall a, In a l -> f a = g a) -> forEach l f = forEach l g.
Proof.
  induction l as [|a l IH]; intros H; simpl; [reflexivity|].
  rewrite (H a) by (left; reflexivity).
  rewrite IH by (intros b Hb; apply H; right; exact Hb). reflexivity.
Qed.

(** What the bulk write of the documents stores. *)
Lemma stored_rows_of (db : VectorStore.Database)
  (ps : list (DocDir * GranolaDocument)) (docs : list (IndexedDocument * Vector)) :
  Forall2 madeFrom ps docs ->
  exists rows,
    VectorStore.documents (VectorStore.storeDocuments db docs) = Some rows /\
    Forall2 rowOf ps rows.
Proof.
  intros Hmade. eexists. split; [reflexivity|].
  induction Hmade as [|p x ps docs [insights Hx] _ IH]; simpl; constructor;
    [|exact IH].
  unfold rowOf. cbn. rewrite Hx. repeat split.
Qed.

Lemma rowOf_ids (ps : list (DocDir * GranolaDocument))
  (rows : list VectorStore.DocumentRow) :
  Forall2 rowOf ps rows ->
  map VectorStore.row_id rows = map (fun p => g_id (snd p)) ps.
Proof.
  induction 1 as [|p row ps rows [Hid _] _ IH]; simpl; [reflexivity|].
  now rewrite Hid, IH.
Qed.

Section Commands.

Variable W : Type.
Variable extractInsights :
  string -> string -> string -> string -> W -> result ExtractedInsights * W.
Variable generateEmbedding : string -> W -> result Vector * W.

(** A loop whose body pushes one document for a directory with a
    [document.json] and none for the others has pushed, when it
    completes, one document per such directory, in their order. *)
Lemma forEach_documents (body : DocDir -> M W unit) :
  (forall dir st st', docJson dir = None -> body dir st = (Ok tt, st') ->
     indexedDocs st' = indexedDocs st) ->
  (forall dir d st st', docJson dir = Some d -> body dir st = (Ok tt, st') ->
     exists insights v,
       indexedDocs st' =
         (indexedDocs st ++ [(makeIndexedDocument dir d insights, v)])%list) ->
  forall dirs st st', forEach dirs body st = (Ok tt, st') ->
    exists new,
      indexedDocs st' = (indexedDocs st ++ new)%list /\
      Forall2 madeFrom (documentsOf dirs) new.
Proof.
  intros Hnone Hsome. induction dirs as [|dir dirs IH]; intros st st' H; simpl in H.
  - unfold ret in H. injection H as <-. exists []. rewrite app_nil_r.
    split; [reflexivity | constructor].
  - apply andThen_cases in H.
    destruct H as [(u & st1 & Hbody & Hrest) | (e & _ & Habs)]; [|discriminate].
    destruct u. apply IH in Hrest. destruct Hrest as (new & Hdocs & Hmade).
    unfold documentsOf. cbn [flat_map]. fold (documentsOf dirs).
    destruct (docJson dir) as [d|] eqn:Hd.
    + destruct (Hsome _ _ _ _ Hd Hbody) as (insights & v & Hpush).
      exists ((makeIndexedDocument dir d insights, v) :: new). split.
      * rewrite Hdocs, Hpush, <- app_assoc. reflexivity.
      * cbn [app]. constructor; [exists insights; reflexivity | exact Hmade].
    + exists new. split; [|exact Hmade].
      rewrite Hdocs, (Hnone _ _ _ Hd Hbody). reflexivity.
Qed.

Lemma indexLoop_documents (options : Options) (dirs : list DocDir) (w : W)
  (st : Run W) :
  indexLoop extractInsights generateEmbedding options dirs w = (Ok tt, st) ->
  Forall2 madeFrom (documentsOf dirs) (indexedDocs st).
Proof.
  unfold indexLoop. intros H.
  apply (forEach_documents
           (indexDocument extractInsights generateEmbedding options)) in H.
  - destruct H as (new & Hdocs & Hmade). now rewrite Hdocs.
  - intros dir st0 st' Hd Hrun. unfold indexDocument in Hrun. rewrite Hd in Hrun.
    unfold ret in Hrun. now injection Hrun as <-.
  - intros dir d st0 st' Hd Hrun.
    destruct (@indexDocument_run _ _ _ _ _ _ _ _ _ Hd Hrun)
      as [(Habs & _) | (insights & st1 & v & vsT & vsQ & _ & Hdocs & _)];
      [now elim Habs|].
    exists insights, v. exact Hdocs.
Qed.

Lemma syncLoop_documents (options : Options) (dirs : list DocDir) (w : W)
  (st : Run W) :
  syncLoop extractInsights generateEmbedding options dirs w = (Ok tt, st) ->
  Forall2 madeFrom (documentsOf dirs) (indexedDocs st).
Proof.
  unfold syncLoop. intros H.
  apply (forEach_documents
           (syncDocument extractInsights generateEmbedding options)) in H.
  - destruct H as (new & Hdocs & Hmade). now rewrite Hdocs.
  - intros dir st0 st' Hd Hrun. unfold syncDocument in Hrun. rewrite Hd in Hrun.
    unfold ret in Hrun. now injection Hrun as <-.
  - intros dir d st0 st' Hd Hrun.
    destruct (@syncDocument_run _ _ _ _ _ _ _ _ _ Hd Hrun)
      as [(Habs & _) | (insights & st1 & v & vsT & vsQ & _ & Hdocs & _)];
      [now elim Habs|].
    exists insights, v. exact Hdocs.
Qed.

(** What a completed command leaves in the documents table. *)
Lemma indexCommand_rows (keyPresent : bool) (options : Options)
  (dirs : list DocDir) (db : VectorStore.Database) (w : W) (nd nc : nat) :
  reported (indexCommand extractInsights generateEmbedding
              keyPresent options dirs db w) = Ok (nd, nc) ->
  nd = List.length (documentsOf dirs) /\
  exists rows,
    VectorStore.documents
      (database (indexCommand extractInsights generateEmbedding
                   keyPresent options dirs db w)) = Some rows /\
    Forall2 rowOf (documentsOf dirs) rows.
Proof.
  unfold indexCommand. destruct keyPresent; cbn [negb]; [|discriminate].
  destruct (indexLoop extractInsights generateEmbedding options dirs w)
    as [[[]|e] st] eqn:Hloop; cbn [reported database]; [|discriminate].
  intros H. injection H as <- _.
  apply indexLoop_documents in Hloop. split.
  - symmetry. exact (Forall2_length Hloop).
  - cbn [VectorStore.storeChunks VectorStore.documents].
    exact (stored_rows_of (VectorStore.initializeTables db) Hloop).
Qed.

Lemma syncCommand_rows (keyPresent : bool) (options : Options)
  (dirs : list DocDir) (db : VectorStore.Database) (w : W) (nd nc : nat) :
  reported (syncCommand extractInsights generateEmbedding
              keyPresent options dirs db w) = Ok (nd, nc) ->
  nd = List.length (documentsOf dirs) /\
  exists rows,
    VectorStore.documents
      (database (syncCommand extractInsights generateEmbedding
                   keyPresent options dirs db w)) = Some rows /\
    Forall2 rowOf (documentsOf dirs) rows.
Proof.
  unfold syncCommand. destruct keyPresent; cbn [negb]; [|discriminate].
  destruct (syncLoop extractInsights generateEmbedding options dirs w)
    as [[[]|e] st] eqn:Hloop; cbn [reported database]; [|discriminate].
  intros H. injection H as <- _.
  apply syncLoop_documents in Hloop. split.
  - symmetry. exact (Forall2_length Hloop).
  - cbn [VectorStore.storeChunks VectorStore.documents].
    exact (stored_rows_of (VectorStore.initializeTables db) Hloop).
Qed.

(** A completed [index] command reports as many documents as there are
    directories with a [document.json], and the documents table it
    leaves holds one row per such directory, in the order of the
    directories: the id, the dates from the document, the title of the
    document or else the name of the directory, the folders, the notes
    and the transcript flag of the directory; whatever the table held
    before. *)
Theorem index_stores_documents (keyPresent : bool) (options : Options)
  (dirs : list DocDir) (db : VectorStore.Database) (w : W) (nd nc : nat) :
  reported (indexCommand extractInsights generateEmbedding
              keyPresent options dirs db w) = Ok (nd, nc) ->
  nd = List.length (documentsOf dirs) /\
  exists rows,
    VectorStore.documents
      (database (indexCommand extractInsights generateEmbedding
                   keyPresent options dirs db w)) = Some rows /\
    Forall2 rowOf (documentsOf dirs) rows.
Proof. apply indexCommand_rows. Qed.

(** The same for the index phase of a completed [sync] command. *)
Theorem sync_stores_documents (keyPresent : bool) (options : Options)
  (dirs : list DocDir) (db : VectorStore.Database) (w : W) (nd nc : nat) :
  reported (syncCommand extractInsights generateEmbedding
              keyPresent options dirs db w) = Ok (nd, nc) ->
  nd = List.length (documentsOf dirs) /\
  exists rows,
    VectorStore.documents
      (database (syncCommand extractInsights generateEmbedding
                   keyPresent options dirs db w)) = Some rows /\
    Forall2 rowOf (documentsOf dirs) rows.
Proof. apply syncCommand_rows. Qed.

(** After a completed [index] command the listing of the store holds the
    indexed documents and nothing else: [getAllDocuments] without a
    folder returns the ids of the directories with a [document.json],
    each once, and [handleListDocuments] counts as many documents as the
    command reported. *)
Theorem indexed_documents_are_listed (getTime : string -> option Z)
  (keyPresent : bool) (options : Options) (dirs : list DocDir)
  (db : VectorStore.Database) (w : W) (nd nc : nat) (limit : option nat) :
  reported (indexCommand extractInsights generateEmbedding
              keyPresent options dirs db w) = Ok (nd, nc) ->
  Permutation
    (map StoreQueries.sum_id
       (StoreQueries.getAllDocuments getTime
          (database (indexCommand extractInsights generateEmbedding
                       keyPresent options dirs db w)) None))
    (map (fun p => g_id (snd p)) (documentsOf dirs)) /\
  Handlers.total_count
    (Handlers.handleListDocuments getTime
       (database (indexCommand extractInsights generateEmbedding
                    keyPresent options dirs db w)) None limit) = nd.
Proof.
  intros H. destruct (indexCommand_rows _ _ _ _ _ H) as [-> (rows & Hrows & Hof)].
  pose proof (StoreQueriesFacts.getAllDocuments_perm getTime
                (database (indexCommand extractInsights generateEmbedding
                             keyPresent options dirs db w)) None) as Hperm.
  unfold StoreQueries.rowsOf in Hperm. rewrite Hrows in Hperm.
  cbn [VectorStore.folderMatches] in Hperm. rewrite filter_all in Hperm.
  split.
  - rewrite <- (rowOf_ids Hof).
    replace (map VectorStore.row_id rows)
      with (map StoreQueries.sum_id (map StoreQueries.toSummary rows))
      by (rewrite map_map; reflexivity).
    now apply Permutation_map.
  - unfold Handlers.handleListDocuments. cbn [Handlers.total_count].
    rewrite (Permutation_length Hperm), length_map.
    symmetry. exact (Forall2_length Hof).
Qed.

(** The chunks that a completed run of the [index] loop body adds for a
    document have pairwise distinct ids when the themes of the insights
    have pairwise distinct names. *)
Theorem indexDocument_chunk_ids_distinct (options : Options) (dir : DocDir)
  (d : GranolaDocument) (st st' : Run W) :
  docJson dir = Some d ->
  indexDocument extractInsights generateEmbedding options dir st = (Ok tt, st') ->
  exists insights st0 new,
    loadInsights extractInsights options dir (orString (g_title d) (dir_name dir)) st
      = (Ok insights, st0) /\
    allChunks st' = (allChunks st ++ new)%list /\
    (NoDup (map th_name (themes insights)) -> NoDup (map chunk_id new)).
Proof.
  intros Hd H.
  destruct (@indexDocument_emits _ _ _ _ _ _ _ _ Hd H)
    as (insights & st0 & new & Hload & Hchunks & _ & Hids & _).
  exists insights, st0, new. split; [exact Hload|]. split; [exact Hchunks|].
  intros Hnames. rewrite Hids. now apply chunk_ids_NoDup.
Qed.

End Commands.

Section Extractors.

Variable W : Type.
Variable generateEmbedding : string -> W -> result Vector * W.

Lemma loadInsights_unused
  (ex1 ex2 : string -> string -> string -> string -> W -> result ExtractedInsights * W)
  (options : Options) (dir : DocDir) (title : string) :
  skipExtraction options = true \/ (transcript dir = "" /\ notes dir = "") ->
  loadInsights ex1 options dir title = loadInsights ex2 options dir title.
Proof.
  unfold loadInsights. intros [-> | [-> ->]]; [reflexivity|].
  cbn [nonEmpty String.eqb negb orb]. now rewrite andb_false_r.
Qed.

(** The extractor is consulted only when extraction is not skipped, and
    then only for a document that has a transcript or notes: otherwise
    both commands do the same whatever the extractor is. *)
Theorem extraction_skipped_ignores_extractor
  (ex1 ex2 : string -> string -> string -> string -> W -> result ExtractedInsights * W)
  (keyPresent : bool) (options : Options) (dirs : list DocDir)
  (db : VectorStore.Database) (w : W) :
  (forall dir, In dir dirs ->
     skipExtraction options = true \/ (transcript dir = "" /\ notes dir = "")) ->
  indexCommand ex1 generateEmbedding keyPresent options dirs db w =
    indexCommand ex2 generateEmbedding keyPresent options dirs db w /\
  syncCommand ex1 generateEmbedding keyPresent options dirs db w =
    syncCommand ex2 generateEmbedding keyPresent options dirs db w.
Proof.
  intros Hskip. unfold indexCommand, syncCommand, indexLoop, syncLoop.
  rewrite (forEach_ext (indexDocument ex1 generateEmbedding options)
             (indexDocument ex2 generateEmbedding options) dirs).
  - rewrite (forEach_ext (syncDocument ex1 generateEmbedding options)
               (syncDocument ex2 generateEmbedding options) dirs);
      [split; reflexivity|].
    intros dir Hdir. unfold syncDocument.
    destruct (docJson dir) as [d|]; [|reflexivity].
    now rewrite (loadInsights_unused ex1 ex2 _ _ _ (Hskip dir Hdir)).
  - intros dir Hdir. unfold indexDocument.
    destruct (docJson dir) as [d|]; [|reflexivity].
    now rewrite (loadInsights_unused ex1 ex2 _ _ _ (Hskip dir Hdir)).
Qed.

End Extractors.

(** Two directories, one of them without any text. *)
Lemma index_stores_documents_witness :
  reported (indexCommand Samples.countingExtractor Samples.countingEmbedder
              true Samples.extracting [Samples.pricingDir; Corpus.untitledDir]
              Samples.emptyDb 0%nat) = Ok (2, 5)%nat /\
  2%nat = List.length (documentsOf [Samples.pricingDir; Corpus.untitledDir]).
Proof.
  split; [reflexivity|].
  exact (proj1 (@index_stores_documents nat Samples.countingExtractor
                  Samples.countingEmbedder true Samples.extracting
                  [Samples.pricingDir; Corpus.untitledDir] Samples.emptyDb 0%nat
                  2%nat 5%nat eq_refl)).
Defined.

Lemma sync_stores_documents_witness :
  reported (syncCommand Samples.countingExtractor Samples.countingEmbedder
              true Samples.extracting [Samples.pricingDir; Corpus.untitledDir]
              Samples.emptyDb 0%nat) = Ok (2, 3)%nat /\
  2%nat = List.length (documentsOf [Samples.pricingDir; Corpus.untitledDir]).
Proof.
  split; [reflexivity|].
  exact (proj1 (@sync_stores_documents nat Samples.countingExtractor
                  Samples.countingEmbedder true Samples.extracting
                  [Samples.pricingDir; Corpus.untitledDir] Samples.emptyDb 0%nat
                  2%nat 3%nat eq_refl)).
Defined.

Lemma indexed_documents_are_listed_witness :
  Handlers.total_count
    (Handlers.handleListDocuments Corpus.sampleTime
       (database (indexCommand Samples.countingExtractor Samples.countingEmbedder
                    true Samples.extracting [Samples.pricingDir; Corpus.untitledDir]
                    Samples.emptyDb 0%nat)) None (Some 1%nat)) = 2%nat.
Proof.
  exact (proj2 (@indexed_documents_are_listed nat Samples.countingExtractor
                  Samples.countingEmbedder Corpus.sampleTime true Samples.extracting
                  [Samples.pricingDir; Corpus.untitledDir] Samples.emptyDb 0%nat
                  2%nat 5%nat (Some 1%nat) eq_refl)).
Defined.

Lemma indexDocument_chunk_ids_distinct_witness :
  exists new,
    allChunks (snd (indexDocument Samples.countingExtractor Samples.countingEmbedder
                      Samples.extracting Samples.pricingDir (start 0%nat))) = new /\
    NoDup (map chunk_id new).
Proof.
  assert (Hrun :
    indexDocument Samples.countingExtractor Samples.countingEmbedder
      Samples.extracting Samples.pricingDir (start 0%nat) =
    (Ok tt,
     snd (indexDocument Samples.countingExtractor Samples.countingEmbedder
            Samples.extracting Samples.pricingDir (start 0%nat))))
    by (vm_compute; reflexivity).
  destruct (@indexDocument_chunk_ids_distinct nat Samples.countingExtractor
              Samples.countingEmbedder Samples.extracting Samples.pricingDir
              _ (start 0%nat) _ eq_refl Hrun)
    as (insights & st0 & new & Hload & Hchunks & Hdistinct).
  exists new. split; [exact Hchunks|]. apply Hdistinct.
  vm_compute in Hload. injection Hload as <- _.
  constructor; [intros [] | constructor].
Defined.

Lemma extraction_skipped_ignores_extractor_witness :
  indexCommand Samples.countingExtractor Samples.countingEmbedder
    true Samples.skipping [Samples.pricingDir; Corpus.untitledDir]
    Samples.emptyDb 0%nat =
  indexCommand Corpus.failingExtractor Samples.countingEmbedder
    true Samples.skipping [Samples.pricingDir; Corpus.untitledDir]
    Samples.emptyDb 0%nat.
Proof.
  apply (@extraction_skipped_ignores_extractor nat Samples.countingEmbedder
           Samples.countingExtractor Corpus.failingExtractor true Samples.skipping
           [Samples.pricingDir; Corpus.untitledDir] Samples.emptyDb 0%nat).
  intros dir _. left. reflexivity.
Defined.

End PipelineFacts.

(* ================================================================== *)
(** * Looking a document up by its id                                  *)
(* ================================================================== *)
Module LookupFacts.

Import Types VectorStore StoreQueries Handlers Observations.

Lemma first_filter {A} (f : A -> bool) (l : list A) :
  first (filter f l) = find f l.
Proof.
  induction l as [|a l IH]; simpl; [reflexivity|].
  destruct (f a); [reflexivity | exact IH].
Qed.

Lemma find_none_iff (documentId : string) (table : list DocumentRow) :
  find (fun row => String.eqb (row_id row) documentId) table = None <->
  ~ In documentId (map row_id table).
Proof.
  induction table as [|row table IH]; simpl; [tauto|].
  destruct (String.eqb (row_id row) documentId) eqn:E.
  - apply String.eqb_eq in E. split; [discriminate | intros H; elim H; now left].
  - apply String.eqb_neq in E. rewrite IH. tauto.
Qed.

Section Lookup.

Variable sqlWhere : list DocumentRow -> string -> result (list DocumentRow).

(** When the filtered scan of the library answers the predicate that
    [getDocumentById] builds with the rows of that id, [getDocumentById]
    returns the details of the first row of the table with the id, which
    carry the id asked for, and [null] exactly when no row has the id (so
    also for a missing table); [handleGetDocument] then answers with the
    error object for that id. *)
Theorem getDocumentById_finds (db : Database) (documentId : string) :
  sqlWhere (rowsOf db) ("id = '" ++ documentId ++ "'") =
    Ok (filter (fun row => String.eqb (row_id row) documentId) (rowsOf db)) ->
  getDocumentById sqlWhere db documentId =
    option_map toDetail
      (find (fun row => String.eqb (row_id row) documentId) (rowsOf db)) /\
  (forall d, getDocumentById sqlWhere db documentId = Some d ->
     det_id d = documentId) /\
  (getDocumentById sqlWhere db documentId = None <->
   ~ In documentId (map row_id (rowsOf db))) /\
  (handleGetDocument sqlWhere db documentId =
     inr ("Document not found: " ++ documentId) <->
   ~ In documentId (map row_id (rowsOf db))).
Proof.
  intros Hscan.
  assert (Hget : getDocumentById sqlWhere db documentId =
                 option_map toDetail
                   (find (fun row => String.eqb (row_id row) documentId) (rowsOf db))).
  { unfold getDocumentById, rowsOf in *.
    destruct (documents db) as [table|]; [|reflexivity].
    rewrite Hscan, <- first_filter.
    destruct (filter (fun row => String.eqb (row_id row) documentId) table);
      reflexivity. }
  assert (Hnone : getDocumentById sqlWhere db documentId = None <->
                  ~ In documentId (map row_id (rowsOf db))).
  { rewrite Hget, <- find_none_iff.
    destruct (find (fun row => String.eqb (row_id row) documentId) (rowsOf db));
      simpl; split; congruence. }
  split; [exact Hget|]. split; [|split; [exact Hnone|]].
  - intros d Hd. rewrite Hget in Hd.
    destruct (find (fun row => String.eqb (row_id row) documentId) (rowsOf db))
      as [row|] eqn:Hfind; [|discriminate].
    apply find_some in Hfind. destruct Hfind as [_ Hid].
    apply String.eqb_eq in Hid. simpl in Hd. injection Hd as <-. exact Hid.
  - rewrite <- Hnone. unfold handleGetDocument.
    destruct (getDocumentById sqlWhere db documentId); split;
      congruence || discriminate.
Qed.

End Lookup.

Lemma getDocumentById_finds_witness :
  option_map det_title (getDocumentById Corpus.whereId Corpus.themedDb "doc-2")
    = Some "doc-2" /\
  (getDocumentById Corpus.whereId Corpus.themedDb "doc-9" = None <->
   ~ In "doc-9" (map row_id (rowsOf Corpus.themedDb))).
Proof.
  split; [reflexivity|].
  apply (@getDocumentById_finds Corpus.whereId Corpus.themedDb "doc-9").
  reflexivity.
Defined.

End LookupFacts.

(* ================================================================== *)
(** * The quote chunks of the [sync] command                           *)
(* ================================================================== *)
Module SyncFacts.

Import Types Orchestrator Observations OrchestratorFacts.

Lemma chunkTypeEqb_neq (a b : ChunkType) :
  a <> b -> VectorStore.chunkTypeEqb a b = false.
Proof. destruct a, b; intros H; try reflexivity; now elim H. Qed.

Lemma filter_none {A} (f : A -> bool) (l : list A) :
  (forall x, In x l -> f x = false) -> filter f l = [].
Proof.
  induction l as [|a l IH]; intros H; simpl; [reflexivity|].
  rewrite (H a) by (left; reflexivity). apply IH. intros x Hx. apply H. now right.
Qed.

Section Commands.

Variable W : Type.
Variable extractInsights :
  string -> string -> string -> string -> W -> result ExtractedInsights * W.
Variable generateEmbedding : string -> W -> result Vector * W.

Lemma syncDocument_unthemed (options : Options) (dir : DocDir)
  (st st' : Run W) (r : result unit) :
  quotesUnthemed st ->
  syncDocument extractInsights generateEmbedding options dir st = (r, st') ->
  quotesUnthemed st'.
Proof.
  intros Hinv H. destruct (docJson dir) as [d|] eqn:Hd.
  - destruct (@syncDocument_run _ _ _ _ _ _ _ _ _ Hd H)
      as [(_ & _ & Hchunks) | (insights & st0 & v & vsT & vsQ & _ & _ & Hchunks & _)];
      intros c Hc; rewrite Hchunks in Hc.
    + now apply Hinv.
    + rewrite !in_app_iff in Hc. destruct Hc as [Hc | [Hc | Hc]].
      * now apply Hinv.
      * apply built_In in Hc. destruct Hc as (i & t & v' & _ & ->). discriminate.
      * apply built_In in Hc. destruct Hc as (i & q & v' & _ & ->). reflexivity.
  - unfold syncDocument in H. rewrite Hd in H. unfold ret in H.
    injection H as _ <-. assumption.
Qed.

(** In the chunks table that a completed [sync] command leaves, no quote
    chunk has a theme name (the loop does not copy the theme of the
    quote): so a chunk search for quotes of a given theme finds nothing
    in it, whatever the search of the library ranks first among the rows
    of the table. *)
Theorem sync_quote_chunks_lose_theme (keyPresent : bool) (options : Options)
  (dirs : list DocDir) (db : VectorStore.Database) (w : W) (nd nc : nat) :
  reported (syncCommand extractInsights generateEmbedding
              keyPresent options dirs db w) = Ok (nd, nc) ->
  exists rows,
    VectorStore.chunks
      (database (syncCommand extractInsights generateEmbedding
                   keyPresent options dirs db w)) = Some rows /\
    (forall row, In row rows ->
       VectorStore.crow_type row = quote -> VectorStore.crow_theme_name row = "") /\
    forall (vectorSearch :
              forall A : Type, (A -> Vector) -> list A -> Vector -> nat ->
                               result (list (VectorStore.Hit A)))
           (q : Vector) (limit : nat) (name : string),
      name <> "" ->
      (forall hits,
         vectorSearch VectorStore.ChunkRow VectorStore.crow_vector rows q (limit * 2)
           = Ok hits ->
         forall h, In h hits -> In (VectorStore.hit_row h) rows) ->
      VectorStore.searchChunks vectorSearch
        (database (syncCommand extractInsights generateEmbedding
                     keyPresent options dirs db w))
        q limit (Some quote) (Some name) = [].
Proof.
  unfold syncCommand. destruct keyPresent; cbn [negb]; [|discriminate].
  destruct (syncLoop extractInsights generateEmbedding options dirs w)
    as [[[]|e] st] eqn:Hloop; cbn [reported database]; [|discriminate].
  intros _.
  assert (Hinv : quotesUnthemed st).
  { unfold syncLoop in Hloop.
    refine (@forEach_preserves W DocDir
              (syncDocument extractInsights generateEmbedding options)
              quotesUnthemed _ dirs (start w) (Ok tt) st _ Hloop).
    - intros a st0 r0 st1. apply syncDocument_unthemed.
    - unfold quotesUnthemed. simpl. intros c []. }
  eexists. split; [reflexivity|].
  assert (Hrows : forall row,
            In row
              (map (fun c =>
                      {| VectorStore.crow_id := chunk_id c;
                         VectorStore.crow_document_id := chunk_document_id c;
                         VectorStore.crow_content := chunk_content c;
                         VectorStore.crow_type := chunk_type c;
                         VectorStore.crow_theme_name :=
                           VectorStore.orEmpty (chunk_theme_name c);
                         VectorStore.crow_timestamp :=
                           VectorStore.orEmpty (chunk_timestamp c);
                         VectorStore.crow_vector := chunk_vector c |})
                   (allChunks st)) ->
            VectorStore.crow_type row = quote ->
            VectorStore.crow_theme_name row = "").
  { intros row Hrow Htype. apply in_map_iff in Hrow.
    destruct Hrow as [c [<- Hc]]. cbn in Htype |- *.
    now rewrite (Hinv c Hc Htype). }
  split; [exact Hrows|].
  intros vectorSearch q limit name Hname Hfrom.
  unfold VectorStore.searchChunks. cbn [VectorStore.storeChunks VectorStore.chunks].
  match goal with
  | |- context [vectorSearch _ _ ?rows _ _] =>
      destruct (vectorSearch VectorStore.ChunkRow VectorStore.crow_vector rows q
                  (limit * 2)) as [hits|e] eqn:Hsearch
  end; [|reflexivity].
  rewrite filter_none; [now rewrite firstn_nil|].
  intros h Hh. unfold VectorStore.chunkMatches.
  destruct (VectorStore.crow_type (VectorStore.hit_row h)) eqn:Htype;
    try reflexivity.
  rewrite (Hrows _ (Hfrom hits eq_refl h Hh) Htype).
  destruct (String.eqb name "") eqn:E1; [apply String.eqb_eq in E1; contradiction|].
  destruct (String.eqb "" name) eqn:E2; [|reflexivity].
  apply String.eqb_eq in E2. now elim Hname.
Qed.

End Commands.

(** After a sync of the pricing call, with extraction: two quote chunks,
    none found under the theme of the first quote. *)
Lemma sync_quote_chunks_lose_theme_witness :
  VectorStore.searchChunks VectorStore.l2Search
    (database (syncCommand Samples.countingExtractor Samples.countingEmbedder
                 true Samples.extracting [Samples.pricingDir] Samples.emptyDb 0%nat))
    [0%Q] 5 (Some quote) (Some "pricing") = [].
Proof.
  destruct (@sync_quote_chunks_lose_theme nat Samples.countingExtractor
              Samples.countingEmbedder true Samples.extracting
              [Samples.pricingDir] Samples.emptyDb 0%nat 1%nat 3%nat eq_refl)
    as (rows & Hrows & _ & Hsearch).
  apply Hsearch; [discriminate|].
  vm_compute in Hrows. injection Hrows as <-.
  intros hits Hhits. vm_compute in Hhits. injection Hhits as <-.
  intros h Hh. simpl in Hh.
  repeat (destruct Hh as [<-|Hh]; [simpl; tauto|]). destruct Hh.
Defined.

End SyncFacts.

(* ================================================================== *)
(** * Extraction in batches                                            *)
(* ================================================================== *)
Module BatchExtractorFacts.

Import InsightExtractor BatchExtractor.
Import StoreQueries(JsMap, mapGet, mapSet).

Lemma storeResults_get {V} (id : string) (entries : list (string * V))
  (results : JsMap V) :
  mapGet id (fold_left (fun m r => mapSet (fst r) (snd r) m) entries results) =
    match lastWith id entries with
    | Some v => Some v
    | None => mapGet id results
    end.
Proof.
  revert results; induction entries as [|e entries IH]; intros results;
    cbn [fold_left lastWith]; [reflexivity|].
  rewrite IH, StoreQueriesFacts.mapGet_mapSet.
  destruct (lastWith id entries); [reflexivity|].
  destruct (String.eqb id (fst e)); reflexivity.
Qed.

Lemma storeResults_NoDup {V} (entries : list (string * V)) (results : JsMap V) :
  NoDup (map fst results) ->
  NoDup (map fst (fold_left (fun m r => mapSet (fst r) (snd r) m) entries results)).
Proof.
  revert results; induction entries as [|e entries IH]; intros results H;
    cbn [fold_left]; [exact H|].
  apply IH. now apply StoreQueriesFacts.mapSet_NoDup.
Qed.

Section Batch.

Variable JSON_parse : string -> result json.
Variable coerceGt0 : json -> result bool.
Variable systemPromptText : string -> string.
Variable chat : nat -> nat -> ChatRequest -> result ChatCompletion.

Lemma entriesFrom_app (model : string) (j : nat) (a b : list BatchDocument) :
  entriesFrom JSON_parse coerceGt0 systemPromptText chat model j (a ++ b) =
    (entriesFrom JSON_parse coerceGt0 systemPromptText chat model j a ++
     entriesFrom JSON_parse coerceGt0 systemPromptText chat model
       (j + List.length a) b)%list.
Proof.
  revert j; induction a as [|doc a IH]; intros j; cbn [app entriesFrom List.length].
  - now rewrite Nat.add_0_r.
  - rewrite IH. now rewrite Nat.add_succ_r.
Qed.

(** With the client at hand every extraction of a batch resolves. *)
Lemma extractAll_resolves (p p' : Process) (model : string) (j : nat)
  (batch : list BatchDocument) :
  getOpenAI p = Ok p' ->
  extractAll JSON_parse coerceGt0 systemPromptText chat p model j batch =
    Ok (entriesFrom JSON_parse coerceGt0 systemPromptText chat model j batch).
Proof.
  intros Hp. revert j; induction batch as [|doc batch IH]; intros j;
    cbn [extractAll entriesFrom]; [reflexivity|].
  rewrite IH. unfold extractOne, extractInsights. rewrite Hp. reflexivity.
Qed.

(** Without it the first extraction of a batch rejects. *)
Lemma extractAll_rejects (p : Process) (e : Error) (model : string) (j : nat)
  (doc : BatchDocument) (batch : list BatchDocument) :
  getOpenAI p = Throw e ->
  extractAll JSON_parse coerceGt0 systemPromptText chat p model j (doc :: batch) =
    Throw e.
Proof.
  intros Hp. cbn [extractAll]. unfold extractOne, extractInsights.
  rewrite Hp. reflexivity.
Qed.

Lemma batchLoop_collects (p p' : Process) (documents : list BatchDocument)
  (model : string) (concurrency : nat) :
  getOpenAI p = Ok p' ->
  (0 < concurrency)%nat ->
  forall fuel i results sleeps,
    (List.length documents - i <= fuel)%nat ->
    exists sleeps',
      batchLoop JSON_parse coerceGt0 systemPromptText chat
        fuel p documents model concurrency i results sleeps =
      Some (Ok (storeResults results
                  (entriesFrom JSON_parse coerceGt0 systemPromptText chat
                     model i (skipn i documents))),
            sleeps').
Proof.
  intros Hp Hpos.
  assert (Hdone : forall fuel i results sleeps,
            (List.length documents <= i)%nat ->
            batchLoop JSON_parse coerceGt0 systemPromptText chat
              fuel p documents model concurrency i results sleeps =
            Some (Ok (storeResults results
                        (entriesFrom JSON_parse coerceGt0 systemPromptText chat
                           model i (skipn i documents))),
                  sleeps)).
  { intros fuel i results sleeps Hi. rewrite skipn_all2 by assumption.
    destruct fuel; cbn [batchLoop];
      (destruct (Nat.ltb_spec i (List.length documents)) as [Hlt|_]; [lia|]);
      reflexivity. }
  induction fuel as [|fuel IH]; intros i results sleeps Hfuel.
  - exists sleeps. apply Hdone. lia.
  - destruct (Nat.le_gt_cases (List.length documents) i) as [Hi|Hi].
    + exists sleeps. now apply Hdone.
    + cbn [batchLoop].
      destruct (Nat.ltb_spec i (List.length documents)) as [_|]; [|lia].
      rewrite (@extractAll_resolves p p' model i _ Hp). cbv zeta.
      match goal with
      | |- context [batchLoop _ _ _ _ fuel p documents model concurrency _ ?r ?s] =>
          destruct (IH (i + concurrency)%nat r s) as [sleeps' Hrec]; [lia|]
      end.
      exists sleeps'. rewrite Hrec. do 3 f_equal.
      unfold storeResults. rewrite <- fold_left_app. f_equal.
      rewrite (EmbedderFacts.slice_then_rest i concurrency documents).
      rewrite entriesFrom_app. f_equal.
      destruct (Nat.le_gt_cases (i + concurrency) (List.length documents))
        as [Hfull|Hshort].
      * unfold Embedder.slice. rewrite length_firstn, length_skipn.
        now replace (Nat.min concurrency (List.length documents - i))
          with concurrency by lia.
      * rewrite (skipn_all2 documents) by lia. reflexivity.
Qed.

(** With the client at hand and a positive concurrency,
    [extractInsightsBatch] returns a map with one entry per document id,
    in which each id has the insights extracted for the last document
    with that id; without the client, and with at least one document, it
    rejects with the configuration error before any request is sent. *)
Theorem extractInsightsBatch_collects (p : Process)
  (documents : list BatchDocument) (model : string) (concurrency : nat) :
  (0 < concurrency)%nat ->
  match getOpenAI p with
  | Ok _ =>
      exists results sleeps,
        extractInsightsBatch JSON_parse coerceGt0 systemPromptText chat
          p documents (Some model) (Some concurrency) = Some (Ok results, sleeps) /\
        NoDup (map fst results) /\
        forall id,
          mapGet id results =
            lastWith id
              (entriesFrom JSON_parse coerceGt0 systemPromptText chat model 0 documents)
  | Throw e =>
      documents <> [] ->
      extractInsightsBatch JSON_parse coerceGt0 systemPromptText chat
        p documents (Some model) (Some concurrency) = Some (Throw e, [])
  end.
Proof.
  intros Hpos. unfold extractInsightsBatch.
  destruct (getOpenAI p) as [p'|e] eqn:Hp.
  - destruct (@batchLoop_collects p p' documents model concurrency Hp Hpos
                (List.length documents) 0%nat [] []) as [sleeps Hrun]; [lia|].
    eexists _, sleeps. split; [exact Hrun|]. cbn [skipn]. split.
    + apply storeResults_NoDup. constructor.
    + intros id. unfold storeResults. rewrite storeResults_get.
      destruct (lastWith id _); reflexivity.
  - intros Hdocs. destruct documents as [|doc rest]; [now elim Hdocs|].
    cbn [List.length batchLoop Nat.ltb Nat.leb].
    unfold Embedder.slice. cbn [skipn].
    destruct concurrency as [|c]; [lia|]. cbn [firstn].
    now rewrite (@extractAll_rejects p e model 0%nat doc (firstn c rest) Hp).
Qed.

End Batch.

(** Three documents, two with the same id, in batches of two, while the
    provider is down: every extraction degrades to the notes, and the id
    that occurs twice has the insights of its last document. *)
Lemma extractInsightsBatch_collects_witness :
  exists results sleeps,
    extractInsightsBatch (Samples.parseTo Samples.quotesOutput) Samples.noCoercion
      Samples.promptText Corpus.downFor Samples.withKey Corpus.toExtract
      (Some "gpt-4o-mini") (Some 2%nat) = Some (Ok results, sleeps) /\
    option_map insights_summary (mapGet "doc-1" results) = Some (JStr "three").
Proof.
  pose proof (@extractInsightsBatch_collects
                (Samples.parseTo Samples.quotesOutput) Samples.noCoercion
                Samples.promptText Corpus.downFor Samples.withKey Corpus.toExtract
                "gpt-4o-mini" 2%nat) as H.
  cbn [getOpenAI Samples.withKey openaiClient OPENAI_API_KEY String.eqb Ascii.eqb
       Bool.eqb] in H.
  destruct H as (results & sleeps & Hrun & _ & Hget); [lia|].
  exists results, sleeps. split; [exact Hrun|].
  rewrite Hget. reflexivity.
Defined.

End BatchExtractorFacts.

(* ================================================================== *)
(** * The notes file: writing and reading the frontmatter              *)
(* ================================================================== *)
Module NotesFileFacts.

Import NotesFile JSFacts.
Import StoreQueries(JsMap, mapGet).

Lemma join_snoc (sep x : string) (l : list string) :
  l <> [] -> join sep (l ++ [x]) = join sep l ++ sep ++ x.
Proof.
  induction l as [|a l IH]; intros Hl; [now elim Hl|].
  destruct l as [|b l]; [reflexivity|].
  change (join sep ((a :: b :: l) ++ [x]))
    with (a ++ sep ++ join sep ((b :: l) ++ [x])).
  rewrite IH by discriminate.
  change (join sep (a :: b :: l)) with (a ++ sep ++ join sep (b :: l)).
  now rewrite !ApiFacts.append_assoc.
Qed.

Lemma startsWith_empty (s : string) : startsWith s "" = true.
Proof. destruct s; reflexivity. Qed.

(** Three hyphens that start in [h] before a line feed lie in [h]. *)
Lemma startsWith_before_newline (c : ascii) (h t : string) :
  startsWith (String c h) "---" = false ->
  startsWith (String c (h ++ newline ++ t)) "---" = false.
Proof.
  destruct h as [|d [|e h]]; cbn [startsWith append newline].
  - intros _. now rewrite andb_false_r.
  - intros _. now rewrite !andb_false_r.
  - now rewrite !startsWith_empty.
Qed.

Lemma afterFirst_header (h rest : string) :
  includes h "---" = false ->
  afterFirst "---" (h ++ newline ++ "---" ++ rest) = Some rest.
Proof.
  induction h as [|c h IH]; intros Hh.
  - cbn [append newline afterFirst startsWith Ascii.eqb Bool.eqb andb
         dropChars String.length].
    now rewrite startsWith_empty.
  - cbn [includes] in Hh. apply orb_false_iff in Hh. destruct Hh as [Hstart Hrest].
    change (String c h ++ newline ++ "---" ++ rest)
      with (String c (h ++ newline ++ "---" ++ rest)).
    cbn [afterFirst].
    rewrite (startsWith_before_newline c h ("---" ++ rest) Hstart).
    now apply IH.
Qed.

Section Notes.

Variable Panel : Type.
Variable proseMirrorToMarkdown : option Panel -> string.

(** What [createNotesMarkdown] writes: the delimiter, the header lines,
    the delimiter, an empty line, the notes. *)
Lemma createNotesMarkdown_layout (doc : GranolaDocument Panel)
  (workspaceMap : JsMap string) (folders : list DocumentList) :
  createNotesMarkdown proseMirrorToMarkdown doc workspaceMap folders =
    "---" ++ newline
      ++ join newline (headerLines doc workspaceMap folders)
      ++ newline ++ "---"
      ++ (newline ++ newline ++ proseMirrorToMarkdown (gd_panel_content doc)).
Proof.
  unfold createNotesMarkdown. cbv zeta.
  assert (Hne : headerLines doc workspaceMap folders <> []) by discriminate.
  destruct (headerLines doc workspaceMap folders) as [|l ls] eqn:Hlines;
    [now elim Hne|].
  set (closing := "---" ++ newline).
  change (join newline (("---" :: l :: ls) ++ [closing])%list)
    with ("---" ++ newline ++ join newline ((l :: ls) ++ [closing])%list).
  rewrite join_snoc by discriminate.
  now rewrite !ApiFacts.append_assoc.
Qed.

(** The notes that the [index] and [sync] commands load from a notes file
    written by the export are the Markdown of the document's notes
    without the line feeds at its start, provided that the header lines
    of the frontmatter (the id, the title, the dates, the workspace and
    the folder names) nowhere hold three hyphens in a row. *)
Theorem frontmatter_round_trip (doc : GranolaDocument Panel)
  (workspaceMap : JsMap string) (folders : list DocumentList) :
  includes (join newline (headerLines doc workspaceMap folders)) "---" = false ->
  loadNotes (Some (createNotesMarkdown proseMirrorToMarkdown doc workspaceMap folders))
    = dropNewlines (proseMirrorToMarkdown (gd_panel_content doc)).
Proof.
  intros Hheader. unfold loadNotes, stripFrontmatter.
  rewrite createNotesMarkdown_layout.
  change ("---" ++ newline
            ++ join newline (headerLines doc workspaceMap folders)
            ++ newline ++ "---"
            ++ (newline ++ newline ++ proseMirrorToMarkdown (gd_panel_content doc)))
    with (String "-" (String "-" (String "-" (String "010"
            (join newline (headerLines doc workspaceMap folders)
             ++ newline ++ "---"
             ++ (newline ++ newline
                 ++ proseMirrorToMarkdown (gd_panel_content doc))))))).
  cbn [startsWith Ascii.eqb Bool.eqb andb dropChars afterFirst].
  rewrite (afterFirst_header _ _ Hheader). reflexivity.
Qed.

End Notes.

(** ** The folders line *)

Lemma startsWith_line_cut (a t p : string) :
  ~ In "010"%char (list_ascii_of_string p) ->
  startsWith (a ++ newline ++ t) p = true -> startsWith a p = true.
Proof.
  revert a; induction p as [|x p IH]; intros a Hp H.
  - apply startsWith_empty.
  - destruct a as [|y a].
    + cbn [append newline startsWith] in H. apply andb_true_iff in H.
      destruct H as [Hx _]. apply Ascii.eqb_eq in Hx. subst x.
      elim Hp. now left.
    + cbn [append startsWith] in H |- *. apply andb_true_iff in H.
      destruct H as [Hxy Hrest]. rewrite Hxy. cbn [andb].
      apply IH; [|exact Hrest]. intros Hin. apply Hp. now right.
Qed.

Lemma includes_startsWith (s p : string) :
  includes s p = false -> startsWith s p = false.
Proof.
  destruct s; cbn [includes]; intros H; apply orb_false_iff in H; tauto.
Qed.

(** A text without [folders:] before a line feed holds no match. *)
Lemma folderMatch_skip (h t : string) :
  includes h "folders:" = false ->
  folderMatch (h ++ newline ++ t) = folderMatch t.
Proof.
  assert (Hp : ~ In "010"%char (list_ascii_of_string "folders:"))
    by (simpl; intuition discriminate).
  induction h as [|c h IH]; intros Hh.
  - reflexivity.
  - assert (Hstart : startsWith (String c h ++ newline ++ t) "folders:" = false).
    { destruct (startsWith (String c h ++ newline ++ t) "folders:") eqn:E;
        [|reflexivity].
      apply (startsWith_line_cut _ _ _ Hp) in E.
      now rewrite (includes_startsWith _ _ Hh) in E. }
    change (String c h ++ newline ++ t) with (String c (h ++ newline ++ t)) in *.
    cbn [folderMatch]. unfold foldersAt at 1. rewrite Hstart.
    apply IH. cbn [includes] in Hh. apply orb_false_iff in Hh. tauto.
Qed.

Lemma allChars_append (p : ascii -> bool) (a b : string) :
  Filenames.allChars p (a ++ b) =
    Filenames.allChars p a && Filenames.allChars p b.
Proof.
  induction a as [|c a IH]; cbn [append Filenames.allChars]; [reflexivity|].
  now rewrite IH, andb_assoc.
Qed.

(** The quotation marks of a name that holds none are its first and its
    last character. *)
Lemma scanQuoted_name (name rest run : string) :
  Filenames.allChars folderChar name = true ->
  run ++ name <> "" ->
  scanQuoted (Some run) (name ++ dquote ++ rest) =
    (run ++ name) :: scanQuoted None rest.
Proof.
  revert run; induction name as [|c name IH]; intros run Hname Hne.
  - cbn [append dquote scanQuoted]. rewrite Ascii.eqb_refl.
    assert (Hrun : run ++ "" = run).
    { clear. induction run as [|x run IH]; simpl; [reflexivity | now rewrite IH]. }
    rewrite Hrun in *.
    destruct (String.eqb run "") eqn:E; [|reflexivity].
    apply String.eqb_eq in E. contradiction.
  - cbn [Filenames.allChars] in Hname. apply andb_true_iff in Hname.
    destruct Hname as [Hc Hname]. unfold folderChar in Hc.
    apply andb_true_iff in Hc. destruct Hc as [Hc _].
    apply andb_true_iff in Hc. destruct Hc as [Hquote _].
    apply negb_true_iff in Hquote.
    cbn [append scanQuoted]. rewrite Hquote.
    assert (Hshift : (run ++ String c "") ++ name = run ++ String c name)
      by (now rewrite ApiFacts.append_assoc).
    rewrite IH; [now rewrite Hshift | exact Hname|].
    rewrite Hshift. destruct run; discriminate.
Qed.

Lemma quoted_plain (names : list string) :
  Forall (fun n => Filenames.allChars folderChar n = true) names ->
  Filenames.allChars
    (fun c => negb (Ascii.eqb c "]") && negb (lineTerminator c))
    (join ", " (map (fun n => dquote ++ n ++ dquote) names)) = true.
Proof.
  assert (Hweak : forall n, Filenames.allChars folderChar n = true ->
            Filenames.allChars
              (fun c => negb (Ascii.eqb c "]") && negb (lineTerminator c))
              (dquote ++ n ++ dquote) = true).
  { intros n Hn. rewrite !allChars_append. cbn.
    rewrite andb_true_r. induction n as [|c n IH]; [reflexivity|].
    cbn [Filenames.allChars] in Hn |- *. apply andb_true_iff in Hn.
    destruct Hn as [Hc Hn]. rewrite (IH Hn), andb_true_r.
    unfold folderChar in Hc. rewrite <- andb_assoc in Hc.
    apply andb_true_iff in Hc. tauto. }
  induction 1 as [|n names Hn Hnames IH]; [reflexivity|].
  destruct names as [|m names]; [now apply Hweak|].
  change (join ", " (map (fun n => dquote ++ n ++ dquote) (n :: m :: names)))
    with ((dquote ++ n ++ dquote) ++ ", "
          ++ join ", " (map (fun n => dquote ++ n ++ dquote) (m :: names))).
  rewrite allChars_append, (Hweak n Hn). rewrite allChars_append, IH.
  reflexivity.
Qed.

Lemma upToBracket_weak (j rest : string) :
  Filenames.allChars
    (fun c => negb (Ascii.eqb c "]") && negb (lineTerminator c)) j = true ->
  upToBracket (j ++ String "]" rest) = Some j.
Proof.
  induction j as [|c j IH]; intros Hj.
  - reflexivity.
  - cbn [Filenames.allChars] in Hj. apply andb_true_iff in Hj.
    destruct Hj as [Hc Hj]. apply andb_true_iff in Hc.
    destruct Hc as [Hbracket Hline]. apply negb_true_iff in Hline, Hbracket.
    cbn [append upToBracket]. rewrite Hbracket, Hline, (IH Hj). reflexivity.
Qed.

(** The names read back from the list that the export writes. *)
Lemma scanQuoted_names (names : list string) :
  Forall (fun n => Filenames.allChars folderChar n = true /\ n <> "") names ->
  scanQuoted None (join ", " (map (fun n => dquote ++ n ++ dquote) names)) = names.
Proof.
  induction 1 as [|n names [Hn Hne] Hnames IH]; [reflexivity|].
  destruct names as [|m names].
  - cbn [map join]. change (dquote ++ n ++ dquote) with (String (ascii_of_nat 34) (n ++ dquote ++ "")).
    cbn [scanQuoted]. rewrite Ascii.eqb_refl.
    rewrite (scanQuoted_name n "" "" Hn Hne). reflexivity.
  - change (join ", " (map (fun n => dquote ++ n ++ dquote) (n :: m :: names)))
      with ((dquote ++ n ++ dquote) ++ ", "
            ++ join ", " (map (fun n => dquote ++ n ++ dquote) (m :: names))).
    rewrite !ApiFacts.append_assoc.
    change (dquote ++ n ++ dquote ++ ", "
              ++ join ", " (map (fun n => dquote ++ n ++ dquote) (m :: names)))
      with (String (ascii_of_nat 34)
              (n ++ dquote ++ ", "
                 ++ join ", " (map (fun n => dquote ++ n ++ dquote) (m :: names)))).
    cbn [scanQuoted]. rewrite Ascii.eqb_refl.
    rewrite (scanQuoted_name n _ "" Hn Hne).
    cbn [append]. f_equal.
    change (", " ++ join ", " (map (fun n => dquote ++ n ++ dquote) (m :: names)))
      with (String "," (String " "
              (join ", " (map (fun n => dquote ++ n ++ dquote) (m :: names))))).
    cbn [scanQuoted Ascii.eqb Bool.eqb ascii_of_nat ascii_of_pos]. exact IH.
Qed.

Lemma folderName_nonempty (f : DocumentList) : folderName f <> "".
Proof.
  unfold folderName, orDefault.
  destruct (dl_title f) as [t|]; [destruct (String.eqb t "") eqn:Et|];
    try (apply String.eqb_neq in Et; exact Et);
    (destruct (dl_name f) as [n|]; [destruct (String.eqb n "") eqn:En|];
     try discriminate; apply String.eqb_neq in En; exact En).
Qed.

Section Folders.

Variable Panel : Type.
Variable proseMirrorToMarkdown : option Panel -> string.

(** The folders that the [index] and [sync] commands read from a notes
    file written by the export are the names of the folders that hold
    the document, in their order, provided that there is such a folder,
    that no name holds a quotation mark, a closing bracket or a line
    terminator, and that the header lines before the folders line (the
    id, the title, the dates, the workspace) nowhere hold the text
    [folders:]. *)
Theorem folders_round_trip (doc : GranolaDocument Panel)
  (workspaceMap : JsMap string) (folders : list DocumentList) :
  filter (holds (gd_id doc)) folders <> [] ->
  Forall (fun f => Filenames.allChars folderChar (folderName f) = true)
    (filter (holds (gd_id doc)) folders) ->
  includes (join newline (documentLines doc ++ workspaceLines doc workspaceMap))
    "folders:" = false ->
  loadFolders (Some (createNotesMarkdown proseMirrorToMarkdown doc workspaceMap folders))
    = map folderName (filter (holds (gd_id doc)) folders).
Proof.
  intros Hsome Hplain Hbefore. unfold loadFolders.
  rewrite createNotesMarkdown_layout. unfold headerLines, folderLines.
  destruct (filter (holds (gd_id doc)) folders) as [|f fs] eqn:Hfilter;
    [now elim Hsome|].
  set (names := map folderName (f :: fs)).
  set (listed := join ", " (map (fun n => dquote ++ n ++ dquote) names)).
  set (content := proseMirrorToMarkdown (gd_panel_content doc)).
  set (before := (documentLines doc ++ workspaceLines doc workspaceMap)%list) in *.
  assert (Hne : before <> []) by discriminate.
  rewrite app_assoc. fold before. rewrite join_snoc by exact Hne.
  assert (Hnames : Forall (fun n => Filenames.allChars folderChar n = true /\ n <> "")
                     names).
  { unfold names. apply Forall_forall. intros n Hn. apply in_map_iff in Hn.
    destruct Hn as [g [<- Hg]]. split; [|apply folderName_nonempty].
    rewrite Forall_forall in Hplain. now apply Hplain. }
  assert (Hlisted : Filenames.allChars
                      (fun c => negb (Ascii.eqb c "]") && negb (lineTerminator c))
                      listed = true).
  { apply quoted_plain. eapply Forall_impl; [|exact Hnames]. simpl. tauto. }
  rewrite (folderMatch_skip "---" _ eq_refl).
  rewrite !ApiFacts.append_assoc.
  rewrite (folderMatch_skip (join newline before) _ Hbefore).
  change ("folders: [" ++ listed ++ "]"
            ++ newline ++ "---" ++ newline ++ newline ++ content)
    with ("folders: [" ++ listed
            ++ String "]" (newline ++ "---" ++ newline ++ newline ++ content)).
  assert (Hmatch : forall rest,
            folderMatch ("folders: [" ++ listed ++ String "]" rest) = Some listed).
  { intros rest.
    change ("folders: [" ++ listed ++ String "]" rest)
      with (String "f" ("olders: [" ++ listed ++ String "]" rest)).
    cbn [folderMatch]. unfold foldersAt.
    change (String "f" ("olders: [" ++ listed ++ String "]" rest))
      with ("folders:" ++ String " " (String "[" (listed ++ String "]" rest))).
    cbn [append startsWith Ascii.eqb Bool.eqb andb dropChars].
    change (skipWhitespace (String " " (String "[" (listed ++ String "]" rest))))
      with (String "[" (listed ++ String "]" rest)).
    cbn [Ascii.eqb Bool.eqb].
    now rewrite (upToBracket_weak listed rest Hlisted). }
  rewrite Hmatch. apply scanQuoted_names. exact Hnames.
Qed.

End Folders.

Lemma folders_round_trip_witness :
  loadFolders
    (Some (createNotesMarkdown Corpus.plainNotes Corpus.notedDoc
             [("ws-1", "Research")] [Corpus.teamFolder; Corpus.otherFolder]))
  = ["A team"; "Untitled"].
Proof.
  apply (@folders_round_trip string Corpus.plainNotes Corpus.notedDoc
           [("ws-1", "Research")] [Corpus.teamFolder; Corpus.otherFolder]).
  - discriminate.
  - repeat constructor.
  - reflexivity.
Defined.

(** A title that holds a folders list of its own is read instead of the
    folders line: the document is in a folder, and none is loaded. *)
Example folders_shadowed_by_title :
  loadFolders
    (Some (createNotesMarkdown Corpus.plainNotes Corpus.shadowDoc
             [] [Corpus.teamFolder])) = [].
Proof. reflexivity. Qed.

Lemma frontmatter_round_trip_witness :
  loadNotes
    (Some (createNotesMarkdown Corpus.plainNotes Corpus.notedDoc
             [("ws-1", "Research")] [Corpus.teamFolder]))
  = "# Pricing".
Proof.
  apply (@frontmatter_round_trip string Corpus.plainNotes Corpus.notedDoc
           [("ws-1", "Research")] [Corpus.teamFolder]).
  reflexivity.
Defined.

(** A title with three hyphens ends the frontmatter early for the
    reader: the notes it loads start with the rest of the title line. *)
Example frontmatter_cut_short :
  startsWith
    (loadNotes (Some (createNotesMarkdown Corpus.plainNotes Corpus.dashedDoc
                        [] [Corpus.teamFolder])))
    " draft" = true.
Proof. reflexivity. Qed.

End NotesFileFacts.
